(** * Device-behaviour layer of the Mirte telemetrix bridge

    Shallow embedding of [mirte_telemetrix/scripts/ROS_telemetrix_aio_api.py]:
    the publish-rate limiter of the sensor monitors, the keypad decoder and
    debouncer, the three H-bridge motor drivers, the OLED driver and the
    on-demand pin read service.

    Conventions.
    - Python [int] is [Z].  Where the source does float arithmetic that
      rounds, the model computes on the kernel's binary64 [float]: the PWM
      duty ([int(...)] of a division and a product), and in the rate limiter
      the millisecond clock ([round] of a product), the period (a quotient)
      and [last_publish_time] (a running sum).  A number that is only
      compared is kept by its value, a rational [Q]: the configured
      [max_frequency], and in the keypad the band thresholds (dyadic
      rationals, so nothing is lost) and the debounce stamps.
    - A method that mutates [self] and talks to the board is a function from
      the object's state to a result, the new state and the list of calls it
      made, in order ([Act]).  A raised exception ends the method; the calls
      made so far stay made.
    - [board_mapping] (the [mappings] package) is not part of the sources and
      enters as a record of the values its getters return. *)

From Stdlib Require Import ZArith QArith Qpower Lia Lqa List Bool.
From Stdlib Require Import Floats.PrimFloat Floats.FloatOps Floats.SpecFloat.
From Stdlib Require Import Floats.FloatAxioms.
From stdpp Require Import base gmap strings list.

Local Open Scope Z_scope.

(** ** Python values *)

Inductive exn : Type :=
| KeyError
| IndexError
| TypeError
| ValueError
| ZeroDivisionError
| OSError.

Inductive outcome (A : Type) : Type :=
| Return (a : A)
| Raise (e : exn).
Arguments Return {A} a.
Arguments Raise {A} e.

(** [float(z)]: the nearest binary64, ties to even. *)
Definition py_float (z : Z) : float :=
  SF2Prim (binary_normalize prec emax z 0 false).

(** [int(x)]: truncation towards zero.  Python raises on an infinity or a
    NaN; the products below are finite for every PWM resolution a board
    mapping returns, and the default is never reached there. *)
Definition py_int (x : float) : Z :=
  match Prim2SF x with
  | S754_zero _ => 0
  | S754_finite s m e =>
      let a := if 0 <=? e then Z.pos m * 2 ^ e else Z.pos m / 2 ^ (- e) in
      if s then - a else a
  | S754_infinity _ | S754_nan => 0
  end.

(** [round(x)] on a float: the nearest integer, ties to even.  Python
    raises on an infinity or a NaN; the product [time.time() * 1000] is
    finite, and the default is never reached there. *)
Definition py_round (x : float) : Z :=
  match Prim2SF x with
  | S754_zero _ => 0
  | S754_finite s m e =>
      let a :=
        if 0 <=? e then Z.pos m * 2 ^ e
        else
          let d := 2 ^ (- e) in
          let q := Z.pos m / d in
          match 2 * (Z.pos m mod d) ?= d with
          | Lt => q
          | Gt => q + 1
          | Eq => if Z.even q then q else q + 1
          end in
      if s then - a else a
  | S754_infinity _ | S754_nan => 0
  end.

(** The float operand that Python makes of a number kept by its value [q]:
    an int is converted ([float(n)], [n # 1] here), a float is itself (the
    quotient of its numerator and denominator is exact). *)
Definition py_number (q : Q) : float :=
  (py_float (Qnum q) / py_float (Z.pos (Qden q)))%float.

(** ** Effects: state, calls made, exceptions *)

Definition Act (S E A : Type) : Type := S -> outcome A * S * list E.

Definition ret {S E A} (a : A) : Act S E A := fun s => (Return a, s, []).

Definition bind {S E A B} (c : Act S E A) (k : A -> Act S E B) : Act S E B :=
  fun s =>
    match c s with
    | (Return a, s1, l1) => let '(r, s2, l2) := k a s1 in (r, s2, l1 ++ l2)
    | (Raise e, s1, l1) => (Raise e, s1, l1)
    end.

Definition raise {S E A} (e : exn) : Act S E A := fun s => (Raise e, s, []).
Definition emit {S E} (e : E) : Act S E unit := fun s => (Return tt, s, [e]).
Definition get {S E} : Act S E S := fun s => (Return s, s, []).
Definition put {S E} (s : S) : Act S E unit := fun _ => (Return tt, s, []).
Definition modify {S E} (f : S -> S) : Act S E unit :=
  fun s => (Return tt, f s, []).
Definition when {S E} (b : bool) (c : Act S E unit) : Act S E unit :=
  if b then c else ret tt.

(** [try: c except Exception as e: h e] *)
Definition catch {S E A} (c : Act S E A) (h : exn -> Act S E A) : Act S E A :=
  fun s =>
    match c s with
    | (Return a, s1, l1) => (Return a, s1, l1)
    | (Raise e, s1, l1) => let '(r, s2, l2) := h e s1 in (r, s2, l1 ++ l2)
    end.

(** The result of [c] as a value. *)
Definition attempt {S E A} (c : Act S E A) : Act S E (outcome A) :=
  fun s => let '(r, s1, l1) := c s in (Return r, s1, l1).

Declare Scope act_scope.
Delimit Scope act_scope with act.
Notation "x <- c ;; k" := (bind c (fun x => k))
  (at level 100, c at next level, right associativity) : act_scope.
Notation "c ;; k" := (bind c (fun _ => k))
  (at level 100, right associativity) : act_scope.
Local Open Scope act_scope.

Definition result_of {A S E} (r : outcome A * S * list E) : outcome A := r.1.1.
Definition state_of {A S E} (r : outcome A * S * list E) : S := r.1.2.
Definition calls_of {A S E} (r : outcome A * S * list E) : list E := r.2.

(** [d[k]] on a dict. *)
Definition subscript {S E K V} `{Countable K} (d : gmap K V) (k : K)
    : Act S E V :=
  match d !! k with
  | Some v => ret v
  | None => raise KeyError
  end.

(** ** The board mapping and the board *)

Module mappings.
Record t : Type := {
  get_mcu : string;
  get_max_pwm_value : Z;
  get_adc_bits : Z;
  get_analog_offset : Z
}.
End mappings.

(** The calls of the telemetrix client that the motor drivers and the pin
    service make. *)
Module board.

Inductive call : Type :=
| set_pin_mode_pwm_output (pin : Z)
| set_pin_mode_analog_output (pin : Z)
| set_pin_mode_digital_output (pin : Z)
| set_pin_mode_analog_input (pin : Z)
| set_pin_mode_digital_input (pin : Z)
| pwm_write (pin value : Z)
| analog_write (pin value : Z)
| digital_write (pin value : Z).

Definition is_pin_mode (c : call) : bool :=
  match c with
  | set_pin_mode_pwm_output _ | set_pin_mode_analog_output _
  | set_pin_mode_digital_output _ | set_pin_mode_analog_input _
  | set_pin_mode_digital_input _ => true
  | _ => false
  end.

(** The levels of the pins, as the value last written to each; a write
    replaces the level of its pin. *)
Definition apply (lv : gmap Z Z) (c : call) : gmap Z Z :=
  match c with
  | pwm_write pin v | analog_write pin v | digital_write pin v =>
      <[pin := v]> lv
  | _ => lv
  end.

Definition is_high (lv : gmap Z Z) (pin : Z) : bool :=
  match lv !! pin with
  | Some v => negb (v =? 0)
  | None => false
  end.

(** The pin levels after each call of a trace, in order. *)
Fixpoint observe (lv : gmap Z Z) (cs : list call) : list (gmap Z Z) :=
  match cs with
  | [] => []
  | c :: cs' => apply lv c :: observe (apply lv c) cs'
  end.

End board.

(** The module-level wrappers around the two spellings of the PWM calls. *)
Section Wrappers.
Variable board_mapping : mappings.t.
Context {S : Type}.

(** The call that the wrapper passes on to the board. *)
Definition pwm_mode_call (pin : Z) : board.call :=
  if bool_decide (mappings.get_mcu board_mapping = "pico")
  then board.set_pin_mode_pwm_output pin
  else board.set_pin_mode_analog_output pin.

Definition pwm_write_call (pin value : Z) : board.call :=
  if bool_decide (mappings.get_mcu board_mapping = "pico")
  then board.pwm_write pin value
  else board.analog_write pin value.

Definition set_pin_mode_analog_output (pin : Z) : Act S board.call unit :=
  emit (pwm_mode_call pin).

Definition analog_write (pin value : Z) : Act S board.call unit :=
  emit (pwm_write_call pin value).

End Wrappers.

(** ** Motors *)

Record Motor : Type := {
  pins : gmap string Z;
  name : string;
  prev_motor_speed : Z;
  initialized : bool
}.

Definition Motor_init (pins : gmap string Z) (name : string) : Motor :=
  {| pins := pins; name := name; prev_motor_speed := 0; initialized := false |}.

Definition set_initialized (b : bool) (m : Motor) : Motor :=
  {| pins := pins m; name := name m;
     prev_motor_speed := prev_motor_speed m; initialized := b |}.

Definition set_prev_motor_speed (v : Z) (m : Motor) : Motor :=
  {| pins := pins m; name := name m;
     prev_motor_speed := v; initialized := initialized m |}.

(** [self.pins[k]] *)
Definition pin (k : string) : Act Motor board.call Z :=
  self <- get ;; subscript (pins self) k.

(** [int(min(m, 100) / 100.0 * max_pwm)] *)
Definition scaled_pwm (max_pwm m : Z) : Z :=
  py_int (py_float (Z.min m 100) / 100 * py_float max_pwm)%float.

(** [int(max_pwm - min(abs(speed), 100) / 100.0 * max_pwm)] *)
Definition inverted_pwm (max_pwm speed : Z) : Z :=
  py_int (py_float max_pwm
          - py_float (Z.min (Z.abs speed) 100) / 100 * py_float max_pwm)%float.

Module PPMotor.
Section Methods.
Variable board_mapping : mappings.t.
Let max_pwm := mappings.get_max_pwm_value board_mapping.

Definition init_motors (speed : Z) : Act Motor board.call unit :=
  self <- get ;;
  when (negb (initialized self))
    (when (0 <? speed)
       (p2 <- pin "p2" ;; set_pin_mode_analog_output board_mapping p2 ;;
        p1 <- pin "p1" ;; set_pin_mode_analog_output board_mapping p1) ;;
     when (speed <? 0)
       (p1 <- pin "p1" ;; set_pin_mode_analog_output board_mapping p1 ;;
        p2 <- pin "p2" ;; set_pin_mode_analog_output board_mapping p2) ;;
     modify (set_initialized true)).

Definition set_speed (speed : Z) : Act Motor board.call unit :=
  self <- get ;;
  when (negb (prev_motor_speed self =? speed))
    ((if speed =? 0 then
        p2 <- pin "p2" ;; analog_write board_mapping p2 0 ;;
        p1 <- pin "p1" ;; analog_write board_mapping p1 0
      else if 0 <? speed then
        init_motors speed ;;
        p2 <- pin "p2" ;; analog_write board_mapping p2 0 ;;
        p1 <- pin "p1" ;;
        analog_write board_mapping p1 (scaled_pwm max_pwm speed)
      else if speed <? 0 then
        init_motors speed ;;
        p1 <- pin "p1" ;; analog_write board_mapping p1 0 ;;
        p2 <- pin "p2" ;;
        analog_write board_mapping p2 (scaled_pwm max_pwm (- speed))
      else ret tt) ;;
     modify (set_prev_motor_speed speed)).

End Methods.
End PPMotor.

Module DPMotor.
Section Methods.
Variable board_mapping : mappings.t.
Let max_pwm := mappings.get_max_pwm_value board_mapping.

Definition init_motors (speed : Z) : Act Motor board.call unit :=
  self <- get ;;
  when (negb (initialized self))
    (when (0 <? speed)
       (d1 <- pin "d1" ;; emit (board.set_pin_mode_digital_output d1) ;;
        p1 <- pin "p1" ;; set_pin_mode_analog_output board_mapping p1) ;;
     when (speed <? 0)
       (p1 <- pin "p1" ;; set_pin_mode_analog_output board_mapping p1 ;;
        d1 <- pin "d1" ;; emit (board.set_pin_mode_digital_output d1)) ;;
     modify (set_initialized true)).

Definition set_speed (speed : Z) : Act Motor board.call unit :=
  self <- get ;;
  when (negb (prev_motor_speed self =? speed))
    ((if speed =? 0 then
        d1 <- pin "d1" ;; emit (board.digital_write d1 0) ;;
        p1 <- pin "p1" ;; analog_write board_mapping p1 0
      else if 0 <? speed then
        init_motors speed ;;
        d1 <- pin "d1" ;; emit (board.digital_write d1 0) ;;
        p1 <- pin "p1" ;;
        analog_write board_mapping p1 (scaled_pwm max_pwm speed)
      else if speed <? 0 then
        init_motors speed ;;
        d1 <- pin "d1" ;; emit (board.digital_write d1 1) ;;
        p1 <- pin "p1" ;;
        analog_write board_mapping p1 (inverted_pwm max_pwm speed)
      else ret tt) ;;
     modify (set_prev_motor_speed speed)).

End Methods.
End DPMotor.

Module DDPMotor.
Section Methods.
Variable board_mapping : mappings.t.
Let max_pwm := mappings.get_max_pwm_value board_mapping.

Definition init_motors : Act Motor board.call unit :=
  self <- get ;;
  when (negb (initialized self))
    (p1 <- pin "p1" ;; set_pin_mode_analog_output board_mapping p1 ;;
     d1 <- pin "d1" ;; emit (board.set_pin_mode_digital_output d1) ;;
     d2 <- pin "d2" ;; emit (board.set_pin_mode_digital_output d2) ;;
     modify (set_initialized true)).

Definition set_speed (speed : Z) : Act Motor board.call unit :=
  self <- get ;;
  when (negb (prev_motor_speed self =? speed))
    (init_motors ;;
     (if 0 <=? speed then
        d1 <- pin "d1" ;; emit (board.digital_write d1 0) ;;
        d2 <- pin "d2" ;; emit (board.digital_write d2 0) ;;
        p1 <- pin "p1" ;;
        analog_write board_mapping p1 (scaled_pwm max_pwm speed) ;;
        d2 <- pin "d2" ;; emit (board.digital_write d2 1)
      else if speed <? 0 then
        d2 <- pin "d2" ;; emit (board.digital_write d2 0) ;;
        d1 <- pin "d1" ;; emit (board.digital_write d1 0) ;;
        p1 <- pin "p1" ;;
        analog_write board_mapping p1 (scaled_pwm max_pwm (Z.abs speed)) ;;
        d1 <- pin "d1" ;; emit (board.digital_write d1 1)
      else ret tt) ;;
     modify (set_prev_motor_speed speed)).

End Methods.
End DDPMotor.

(** The three motor interfaces of the configuration ([ddp], [dp], [pp]). *)
Inductive motor_type : Type := ddp | dp | pp.

Definition set_speed (board_mapping : mappings.t) (ty : motor_type)
    (speed : Z) : Act Motor board.call unit :=
  match ty with
  | ddp => DDPMotor.set_speed board_mapping speed
  | dp => DPMotor.set_speed board_mapping speed
  | pp => PPMotor.set_speed board_mapping speed
  end.

(** A motor receives its speeds one callback at a time; an exception ends
    that callback only. *)
Fixpoint drive (step : Z -> Act Motor board.call unit) (speeds : list Z)
    (m : Motor) : Motor * list board.call :=
  match speeds with
  | [] => (m, [])
  | v :: rest =>
      let r := step v m in
      let '(m', cs) := drive step rest (state_of r) in
      (m', calls_of r ++ cs)
  end.

(** ** Sensor monitors *)

(** A report of the telemetrix client: [data[0]] to [data[3]]. *)
Record report : Type := {
  report_type : Z;
  report_pin : Z;
  report_value : Z;
  report_time : Q
}.

(** The clocks a callback reads: [time.time()] and [rospy.Time.now()]. *)
Record clock : Type := {
  time_time : float;
  rospy_Time_now : Q
}.

(** The entries of a sensor's configuration that the monitors read. *)
Record sensor : Type := {
  sensor_name : string;
  sensor_pins : gmap string Z;
  max_frequency : option Q;
  sensor_differential : option Z;
  ticks_per_wheel : option Z
}.

(** [max_freq] is the number the configuration gives (an int or a float) or
    the int [-1], kept by its value.  [last_publish_time] is the int [-1],
    then the int [now_millis], and a float from the first [+=] on: it is
    kept as the binary64 of that value, on which [==], [-] and [+=] give
    what Python gives on the int as long as the clock is below 2^53 ms. *)
Record SensorMonitor (Msg : Type) : Type := {
  monitor_pins : gmap string Z;
  max_freq : Q;
  differential : Z;
  last_publish_time : float;
  last_publish_value : Msg
}.
Arguments monitor_pins {Msg} _.
Arguments max_freq {Msg} _.
Arguments differential {Msg} _.
Arguments last_publish_time {Msg} _.
Arguments last_publish_value {Msg} _.

Section SensorMonitor.
Context {Msg E : Type}.
(** [self.publisher.publish] *)
Variable publisher : Msg -> E.

Definition SensorMonitor_init (s : sensor) (v : Msg) : SensorMonitor Msg :=
  {| monitor_pins := sensor_pins s;
     max_freq := match max_frequency s with Some f => f | None => 10 end;
     differential := match sensor_differential s with Some d => d | None => 0 end;
     last_publish_time := (-1)%float;
     last_publish_value := v |}.

Definition set_max_freq (f : Q) (m : SensorMonitor Msg) : SensorMonitor Msg :=
  {| monitor_pins := monitor_pins m; max_freq := f;
     differential := differential m;
     last_publish_time := last_publish_time m;
     last_publish_value := last_publish_value m |}.

Definition set_last_publish_time (t : float) (m : SensorMonitor Msg)
    : SensorMonitor Msg :=
  {| monitor_pins := monitor_pins m; max_freq := max_freq m;
     differential := differential m;
     last_publish_time := t;
     last_publish_value := last_publish_value m |}.

Definition set_last_publish_value (v : Msg) (m : SensorMonitor Msg)
    : SensorMonitor Msg :=
  {| monitor_pins := monitor_pins m; max_freq := max_freq m;
     differential := differential m;
     last_publish_time := last_publish_time m;
     last_publish_value := v |}.

Definition publish_imp (data : Msg) : Act (SensorMonitor Msg) E unit :=
  emit (publisher data) ;;
  modify (set_last_publish_value data).

(** [1000.0 / self.max_freq], a binary64 quotient. *)
Definition period : Act (SensorMonitor Msg) E float :=
  self <- get ;;
  if Qeq_bool (max_freq self) 0 then raise ZeroDivisionError
  else ret (1000 / py_number (max_freq self))%float.

(** [int(round(time.time() * 1000))]: the binary64 product, rounded. *)
Definition now_millis (c : clock) : Z := py_round (time_time c * 1000)%float.

Definition publish (c : clock) (data : Msg) : Act (SensorMonitor Msg) E unit :=
  self <- get ;;
  if Qeq_bool (max_freq self) (- (1)) then publish_imp data
  else
    when (last_publish_time self =? -1)%float
      (publish_imp data ;;
       modify (set_last_publish_time (py_float (now_millis c)))) ;;
    self <- get ;;
    p <- period ;;
    when (p <=? py_float (now_millis c) - last_publish_time self)%float
      (publish_imp data ;;
       modify (set_last_publish_time (last_publish_time self + p)%float)).

End SensorMonitor.

(** A method of the base class run on a subclass instance. *)
Definition zoom {S T E A} (proj : T -> S) (upd : S -> T -> T)
    (c : Act S E A) : Act T E A :=
  fun t => let '(r, s, l) := c (proj t) in (r, upd s t, l).

(** *** Keypad *)

Record Keypad : Type := {
  keypad_header : Q;
  key : string
}.

Inductive keypad_topic : Type :=
| on_keypad (msg : Keypad)
| on_keypad_pressed (msg : Keypad).

Record KeypadMonitor : Type := {
  keypad_base : SensorMonitor Keypad;
  last_debounce_time : Q;
  last_key : string;
  last_debounced_key : string
}.

Definition KeypadMonitor_init (s : sensor) : KeypadMonitor :=
  {| keypad_base := SensorMonitor_init s {| keypad_header := 0; key := "" |};
     last_debounce_time := 0;
     last_key := "";
     last_debounced_key := "" |}.

Definition set_keypad_base (b : SensorMonitor Keypad) (m : KeypadMonitor)
    : KeypadMonitor :=
  {| keypad_base := b; last_debounce_time := last_debounce_time m;
     last_key := last_key m; last_debounced_key := last_debounced_key m |}.

Definition set_last_debounce_time (t : Q) (m : KeypadMonitor) : KeypadMonitor :=
  {| keypad_base := keypad_base m; last_debounce_time := t;
     last_key := last_key m; last_debounced_key := last_debounced_key m |}.

Definition set_last_keys (k d : string) (m : KeypadMonitor) : KeypadMonitor :=
  {| keypad_base := keypad_base m;
     last_debounce_time := last_debounce_time m;
     last_key := k; last_debounced_key := d |}.

(** [t12 / 4096 * (2 ** adc_bits)] *)
Definition threshold (adc_bits : Z) (t12 : Z) : Q :=
  (inject_Z t12 / 4096 * 2 ^ adc_bits)%Q.

(** The chain of comparisons at the head of [KeypadMonitor.publish_data]. *)
Definition decode_key (adc_bits : Z) (value : Z) : string :=
  if Qlt_le_dec (inject_Z value) (threshold adc_bits 70) then "left"
  else if Qlt_le_dec (inject_Z value) (threshold adc_bits 230) then "up"
  else if Qlt_le_dec (inject_Z value) (threshold adc_bits 410) then "down"
  else if Qlt_le_dec (inject_Z value) (threshold adc_bits 620) then "right"
  else if Qlt_le_dec (inject_Z value) (threshold adc_bits 880) then "enter"
  else "".

(** [data[3] - last_debounce_time > 0.1] *)
Definition debounce_elapsed (t last : Q) : bool :=
  if Qlt_le_dec (1 # 10) (t - last) then true else false.

Module KeypadMonitor.
Section Methods.
Variable board_mapping : mappings.t.

(** The string literals of the method are interned, so that [is not] on the
    keys is [!=]. *)
Definition publish_data (c : clock) (data : report)
    : Act KeypadMonitor keypad_topic unit :=
  let key := decode_key (mappings.get_adc_bits board_mapping) (report_value data) in
  self <- get ;;
  when (negb (bool_decide (last_key self = key)))
    (modify (set_last_debounce_time (report_time data))) ;;
  self <- get ;;
  let debounced_key :=
    if debounce_elapsed (report_time data) (last_debounce_time self)
    then key else "" in
  let keypad := {| keypad_header := rospy_Time_now c; key := debounced_key |} in
  zoom keypad_base set_keypad_base (publish on_keypad c keypad) ;;
  self <- get ;;
  when (negb (bool_decide (last_debounced_key self = ""))
        && negb (bool_decide (last_debounced_key self = debounced_key)))
    (emit (on_keypad_pressed
             {| keypad_header := rospy_Time_now c;
                key := last_debounced_key self |})) ;;
  modify (set_last_keys key debounced_key).

End Methods.
End KeypadMonitor.

(** *** Encoder *)

Record Encoder : Type := {
  encoder_header : Q;
  value : Z
}.

Record EncoderSensorMonitor : Type := {
  encoder_base : SensorMonitor Encoder;
  encoder_ticks_per_wheel : Z;
  speed_count : Z
}.

Definition EncoderSensorMonitor_init (s : sensor) : EncoderSensorMonitor :=
  let base := SensorMonitor_init s {| encoder_header := 0; value := 0 |} in
  {| encoder_base := set_max_freq (- (1)) base;
     encoder_ticks_per_wheel :=
       match ticks_per_wheel s with Some n => n | None => 20 end;
     speed_count := 0 |}.

Definition set_encoder_base (b : SensorMonitor Encoder)
    (m : EncoderSensorMonitor) : EncoderSensorMonitor :=
  {| encoder_base := b;
     encoder_ticks_per_wheel := encoder_ticks_per_wheel m;
     speed_count := speed_count m |}.

Definition set_speed_count (n : Z) (m : EncoderSensorMonitor)
    : EncoderSensorMonitor :=
  {| encoder_base := encoder_base m;
     encoder_ticks_per_wheel := encoder_ticks_per_wheel m;
     speed_count := n |}.

Module EncoderSensorMonitor.

Definition publish_data (c : clock) (data : report)
    : Act EncoderSensorMonitor Encoder unit :=
  self <- get ;;
  modify (set_speed_count (speed_count self + 1)) ;;
  let encoder :=
    {| encoder_header := rospy_Time_now c; value := report_value data |} in
  zoom encoder_base set_encoder_base (publish (fun msg => msg) c encoder).

End EncoderSensorMonitor.

(** A monitor receives its reports one callback at a time. *)
Fixpoint feed {S E X} (step : X -> Act S E unit) (inputs : list X) (s : S)
    : S * list E :=
  match inputs with
  | [] => (s, [])
  | x :: rest =>
      let r := step x s in
      let '(s', es) := feed step rest (state_of r) in
      (s', calls_of r ++ es)
  end.

(** ** The OLED display *)

Inductive i2c_call : Type :=
| set_pin_mode_i2c (i2c_port : Z)
| i2c_write (address : Z) (args : list Z) (i2c_port : Z).

(** The event loop resumes the coroutines of a batch in an order of its
    own: it starts the next coroutine of the batch, or resumes the [k]-th of
    those that wait for the reply to their transaction. *)
Inductive choice : Type :=
| Start
| Resume (k : nat).

Record Oled : Type := {
  width : Z;
  height : Z;
  pages : Z;
  i2c_port : Z;
  temp : Z * Z;
  failed : bool;
  buffer : list Z;
  write_commands : list (list Z)
}.

(** The bus as the driver meets it: the number of transactions sent so far,
    what the board answers to the [n]-th of them ([True], [False], or [None]
    where the transport does not acknowledge), and the order in which the
    loop will resume coroutines. *)
Record bus : Type := {
  sent : nat;
  acks : nat -> option bool;
  schedule : list choice
}.

Definition OledAct (A : Type) : Type := Act (Oled * bus) i2c_call A.

Definition self : OledAct Oled := fun w => (Return w.1, w, []).

Definition update (f : Oled -> Oled) : OledAct unit :=
  fun w => (Return tt, (f w.1, w.2), []).

Definition set_temp (t : Z * Z) (o : Oled) : Oled :=
  {| width := width o; height := height o; pages := pages o;
     i2c_port := i2c_port o; temp := t; failed := failed o;
     buffer := buffer o; write_commands := write_commands o |}.

Definition set_failed (b : bool) (o : Oled) : Oled :=
  {| width := width o; height := height o; pages := pages o;
     i2c_port := i2c_port o; temp := temp o; failed := b;
     buffer := buffer o; write_commands := write_commands o |}.

Definition set_buffer (l : list Z) (o : Oled) : Oled :=
  {| width := width o; height := height o; pages := pages o;
     i2c_port := i2c_port o; temp := temp o; failed := failed o;
     buffer := l; write_commands := write_commands o |}.

Definition set_write_commands (l : list (list Z)) (o : Oled) : Oled :=
  {| width := width o; height := height o; pages := pages o;
     i2c_port := i2c_port o; temp := temp o; failed := failed o;
     buffer := buffer o; write_commands := l |}.

(** [Oled.__init__].  The base class [_SSD1306] is not part of the sources:
    [queued] is what its constructor leaves in [write_commands]. *)
Definition Oled_init (width height port : Z) (queued : list (list Z)) : Oled :=
  {| width := width; height := height; pages := height / 8;
     i2c_port := port; temp := (0, 0); failed := false;
     buffer := repeat 0 (Z.to_nat (height / 8 * width + 1));
     write_commands := queued |}.

(** [l[a:b]] *)
Definition slice {A} (a b : nat) (l : list A) : list A :=
  take (b - a) (drop a l).

(** [out == False] *)
Definition is_False (out : option bool) : bool :=
  match out with
  | Some false => true
  | _ => false
  end.

(** [await self.board.i2c_write(60, args, i2c_port=self.i2c_port)], up to
    the point where the coroutine waits for the reply.  The client builds
    its message from [args] when it is called, so the transaction carries
    the bytes that [args] holds then. *)
Definition i2c_issue (args : list Z) : OledAct nat :=
  fun w =>
    (Return (sent w.2),
     (w.1, {| sent := S (sent w.2); acks := acks w.2;
              schedule := schedule w.2 |}),
     [i2c_write 60 args (i2c_port w.1)]).

(** The reply to the [n]-th transaction. *)
Definition i2c_reply (n : nat) : OledAct (option bool) :=
  fun w => (Return (acks w.2 n), w, []).

(** [self.temp[0] = 0x80; self.temp[1] = cmd] *)
Definition store_cmd (cmd : Z) : OledAct unit :=
  o <- self ;;
  update (set_temp (128, (temp o).2)) ;;
  if (0 <=? cmd) && (cmd <? 256)
  then o <- self ;; update (set_temp ((temp o).1, cmd))
  else raise ValueError.

(** A [SetOLEDImage] request, with the bitmaps PIL yields for it in the
    order the service asks for them: the rendered text, the image file, or
    the files of the animation. *)
Record SetOLEDImage : Type := {
  req_type : string;
  req_value : string;
  bitmaps : list (outcome (list Z))
}.

Module Oled.

Fixpoint start_loop (cmds : list (list Z)) : OledAct unit :=
  match cmds with
  | [] => ret tt
  | cmd :: rest =>
      n <- i2c_issue cmd ;;
      out <- i2c_reply n ;;
      if is_False out then update (set_failed true)
      else start_loop rest
  end.

Definition start : OledAct unit :=
  o <- self ;;
  emit (set_pin_mode_i2c (i2c_port o)) ;;
  start_loop (write_commands o).

Definition write_cmd (cmd : Z) : OledAct unit :=
  store_cmd cmd ;;
  o <- self ;;
  update (set_write_commands (write_commands o ++ [[128; cmd]])).

Fixpoint write_framebuf_loop (idx : list nat) : OledAct unit :=
  match idx with
  | [] => ret tt
  | i :: rest =>
      o <- self ;;
      match slice (i * 16) ((i + 1) * 16 + 1) (buffer o) with
      | [] => raise IndexError
      | _ :: data =>
          update (set_write_commands (write_commands o ++ [64 :: data])) ;;
          write_framebuf_loop rest
      end
  end.

Definition write_framebuf : OledAct unit :=
  write_framebuf_loop (seq 0 64).

(** The addressing window: [xpos0] and [xpos1]. *)
Definition xpos (o : Oled) : Z * Z :=
  let shift := (if width o =? 64 then 32 else 0)
               + (if width o =? 72 then 28 else 0) in
  (0 + shift, width o - 1 + shift).

Definition show : OledAct unit :=
  o <- self ;;
  write_cmd 33 ;;
  write_cmd (xpos o).1 ;;
  write_cmd (xpos o).2 ;;
  write_cmd 34 ;;
  write_cmd 0 ;;
  write_cmd (pages o - 1) ;;
  write_framebuf.

(** The coroutines that [show_async] hands to [asyncio.gather]. *)
Inductive coroutine : Type :=
| write_cmd_async (cmd : Z)
| task (i : nat).

(** A coroutine runs from its start to its [await]: it returns the number of
    the transaction it waits for, or [None] when it has returned. *)
Definition begin (c : coroutine) : OledAct (option nat) :=
  match c with
  | write_cmd_async cmd =>
      o <- self ;;
      if failed o then ret None
      else
        store_cmd cmd ;;
        o <- self ;;
        n <- i2c_issue [(temp o).1; (temp o).2] ;;
        ret (Some n)
  | task i =>
      o <- self ;;
      match slice (i * 16) ((i + 1) * 16 + 1) (buffer o) with
      | [] => raise IndexError
      | _ :: data =>
          n <- i2c_issue (64 :: data) ;;
          ret (Some n)
      end
  end.

(** A coroutine runs from the reply to its end; both kinds latch [failed]
    on [False]. *)
Definition resume (c : coroutine) (n : nat) : OledAct unit :=
  out <- i2c_reply n ;;
  when (is_False out) (update (set_failed true)).

Definition write_framebuf_async : OledAct (option (list coroutine)) :=
  o <- self ;;
  if failed o then ret None
  else ret (Some (map task (seq 0 64))).

(** The next decision of the event loop. *)
Definition next_choice : OledAct choice :=
  fun w =>
    match schedule w.2 with
    | [] => (Return Start, w, [])
    | ch :: rest =>
        (Return ch,
         (w.1, {| sent := sent w.2; acks := acks w.2; schedule := rest |}),
         [])
    end.

Inductive move : Type :=
| Begin (c : coroutine) (todo : list coroutine)
| Continue (c : coroutine) (n : nat) (waiting : list (coroutine * nat))
| Finished.

(** What the loop does on a decision: a decision that does not apply (no
    coroutine left to start, no such waiting coroutine) falls back on what
    can run. *)
Definition pick (ch : choice) (todo : list coroutine)
    (waiting : list (coroutine * nat)) : move :=
  let fallback :=
    match todo, waiting with
    | c :: todo', _ => Begin c todo'
    | [], (c, n) :: waiting' => Continue c n waiting'
    | [], [] => Finished
    end in
  match ch with
  | Start => fallback
  | Resume k =>
      match waiting !! k with
      | Some (c, n) => Continue c n (delete k waiting)
      | None => fallback
      end
  end.

Definition first_exn (err : option exn) (e : exn) : option exn :=
  match err with
  | Some e0 => Some e0
  | None => Some e
  end.

(** [asyncio.gather]: every coroutine of the batch runs to its end; the
    result is the first exception one of them raised, if any. *)
Fixpoint gather_loop (fuel : nat) (todo : list coroutine)
    (waiting : list (coroutine * nat)) (err : option exn)
    : OledAct (option exn) :=
  match fuel with
  | O => ret err
  | Datatypes.S fuel' =>
      ch <- next_choice ;;
      match pick ch todo waiting with
      | Begin c todo' =>
          r <- attempt (begin c) ;;
          match r with
          | Return (Some n) => gather_loop fuel' todo' (waiting ++ [(c, n)]) err
          | Return None => gather_loop fuel' todo' waiting err
          | Raise e => gather_loop fuel' todo' waiting (first_exn err e)
          end
      | Continue c n waiting' =>
          r <- attempt (resume c n) ;;
          match r with
          | Return _ => gather_loop fuel' todo waiting' err
          | Raise e => gather_loop fuel' todo waiting' (first_exn err e)
          end
      | Finished => ret err
      end
  end.

Definition gather (cs : list coroutine) : OledAct unit :=
  err <- gather_loop (2 * length cs) cs [] None ;;
  match err with
  | Some e => raise e
  | None => ret tt
  end.

Definition show_async : OledAct unit :=
  o <- self ;;
  catch
    (tasks <- write_framebuf_async ;;
     match tasks with
     | None => raise TypeError
     | Some tasks =>
         gather ([write_cmd_async 33;
                  write_cmd_async (xpos o).1;
                  write_cmd_async (xpos o).2;
                  write_cmd_async 34;
                  write_cmd_async 0;
                  write_cmd_async (pages o - 1)] ++ tasks)
     end)
    (fun _ => ret tt).

(** [self.image(img)] of the base class: the bitmap replaces the frame
    buffer, which is [self.buffer[1:]]; a bitmap of another size is
    refused. *)
Definition image (img : list Z) : OledAct unit :=
  o <- self ;;
  if bool_decide (length img = (length (buffer o) - 1)%nat)
  then update (set_buffer (firstn 1 (buffer o) ++ img))
  else raise ValueError.

(** A bitmap that PIL produced, or the exception it raised instead. *)
Definition show_png (file : outcome (list Z)) : OledAct unit :=
  match file with
  | Raise e => raise e
  | Return img => image img ;; show_async
  end.

Fixpoint show_all (files : list (outcome (list Z))) : OledAct unit :=
  match files with
  | [] => ret tt
  | f :: rest => show_png f ;; show_all rest
  end.


Definition set_oled_image_service_async (req : SetOLEDImage) : OledAct unit :=
  when (bool_decide (req_type req = "text"))
    (match bitmaps req with
     | Return img :: _ => image img ;; show_async
     | Raise e :: _ => raise e
     | [] => raise ValueError
     end) ;;
  when (bool_decide (req_type req = "image"))
    (match bitmaps req with
     | f :: _ => show_png f
     | [] => raise OSError
     end) ;;
  when (bool_decide (req_type req = "animation"))
    (show_all (bitmaps req)).

Definition set_oled_image_service (req : SetOLEDImage) : OledAct bool :=
  o <- self ;;
  if failed o then ret false
  else
    catch (set_oled_image_service_async req) (fun _ => ret tt) ;;
    ret true.

End Oled.

(** The display receives its requests one service call at a time. *)
Fixpoint serve (reqs : list SetOLEDImage) (w : Oled * bus)
    : list bool * (Oled * bus) * list i2c_call :=
  match reqs with
  | [] => ([], w, [])
  | req :: rest =>
      let r := Oled.set_oled_image_service req w in
      let '(answers, w', cs) := serve rest (state_of r) in
      (match result_of r with Return b => b | Raise _ => false end :: answers,
       w', calls_of r ++ cs)
  end.

(** ** The on-demand pin read *)

(** A [GetPinValue] request; [get_pin] is the pin number that the request's
    pin name resolves to. *)
Record GetPinValue : Type := {
  get_pin : Z;
  get_type : string
}.

(** One turn of the polling loop: the clock as the loop test reads it, and
    the reports that [data_callback] takes in during the sleep after it. *)
Record tick : Type := {
  tick_time : Q;
  arrivals : list report
}.

Section PinService.
Variable board_mapping : mappings.t.

Definition data_callback (data : report) : Act (gmap Z Z) board.call unit :=
  let pin_number :=
    if report_type data =? 3
    then report_pin data + mappings.get_analog_offset board_mapping
    else report_pin data in
  modify (fun pin_values : gmap Z Z => <[pin_number := report_value data]> pin_values).

Fixpoint deliver (rs : list report) : Act (gmap Z Z) board.call unit :=
  match rs with
  | [] => ret tt
  | r :: rest => data_callback r ;; deliver rest
  end.

(** [while not pin in pin_values and time.time() - start_time < 5.0], over
    the turns the loop takes. *)
Fixpoint poll (pin : Z) (start_time : Q) (ticks : list tick)
    : Act (gmap Z Z) board.call unit :=
  match ticks with
  | [] => ret tt
  | tk :: rest =>
      pin_values <- get ;;
      if negb (bool_decide (is_Some ((pin_values : gmap Z Z) !! pin)))
         && (if Qlt_le_dec (tick_time tk - start_time) 5 then true else false)
      then deliver (arrivals tk) ;; poll pin start_time rest
      else ret tt
  end.

Definition handle_get_pin_value (req : GetPinValue) (start_time : Q)
    (ticks : list tick) : Act (gmap Z Z) board.call Z :=
  let pin := get_pin req in
  pin_values <- get ;;
  when (negb (bool_decide (is_Some ((pin_values : gmap Z Z) !! pin))))
    (when (bool_decide (get_type req = "analog"))
       (emit (board.set_pin_mode_analog_input
                (pin - mappings.get_analog_offset board_mapping))) ;;
     when (bool_decide (get_type req = "digital"))
       (emit (board.set_pin_mode_digital_input pin))) ;;
  poll pin start_time ticks ;;
  pin_values <- get ;;
  value <- ret (match (pin_values : gmap Z Z) !! pin with
                | Some v => v
                | None => -1
                end) ;;
  value <- subscript (pin_values : gmap Z Z) pin ;;
  ret value.

End PinService.

(** ** Vocabulary of the properties *)

(** No call of the trace drives a pin low. *)
Fixpoint no_low_write (cs : list board.call) : bool :=
  match cs with
  | [] => true
  | board.digital_write _ v :: rest => negb (v =? 0) && no_low_write rest
  | _ :: rest => no_low_write rest
  end.

(** Every [digital_write] of a low level comes before every [digital_write]
    of a high level. *)
Fixpoint lows_before_highs (cs : list board.call) : bool :=
  match cs with
  | [] => true
  | board.digital_write _ v :: rest =>
      (if v =? 0 then true else no_low_write rest) && lows_before_highs rest
  | _ :: rest => lows_before_highs rest
  end.

(** A float that is not below zero: a zero, a positive number, or a NaN. *)
Definition not_negative (x : float) : Prop := (x <? 0)%float = false.

(** A float that is a number, not an infinity or a NaN. *)
Definition finite_float (x : float) : Prop :=
  (abs x <? infinity)%float = true.

(** The number that a finite float is. *)
Definition float_value (x : float) : Q :=
  match Prim2SF x with
  | S754_finite s m e =>
      let v := (inject_Z (Z.pos m) * 2 ^ e)%Q in
      if s then (- v)%Q else v
  | _ => 0%Q
  end.

(** What the rate limiter promises for one call on a monitor that has
    published before: with the period [1000.0 / max_freq] and the time
    elapsed since [last_publish_time], both in binary64, the reading is
    forwarded exactly when the elapsed time is at least the period, and
    [last_publish_time] then moves on by one period (a binary64 sum);
    otherwise nothing is forwarded and the monitor is as it was. *)
Definition follows_rate {Msg E} (publisher : Msg -> E)
    (m : SensorMonitor Msg) (c : clock) (data : Msg) : Prop :=
  let p := (1000 / py_number (max_freq m))%float in
  let elapsed := (py_float (now_millis c) - last_publish_time m)%float in
  let r := publish publisher c data m in
  result_of r = Return tt
  /\ ((p <=? elapsed)%float = true ->
       calls_of r = [publisher data]
       /\ last_publish_time (state_of r) = (last_publish_time m + p)%float
       /\ last_publish_value (state_of r) = data
       /\ max_freq (state_of r) = max_freq m)
  /\ ((p <=? elapsed)%float = false -> calls_of r = [] /\ state_of r = m).

(** Every call of a sequence follows the rate. *)
Fixpoint governed {Msg E} (publisher : Msg -> E) (m : SensorMonitor Msg)
    (inputs : list (clock * Msg)) : Prop :=
  match inputs with
  | [] => True
  | (c, data) :: rest =>
      follows_rate publisher m c data
      /\ governed publisher (state_of (publish publisher c data m)) rest
  end.

(** The keypad bands as a table, in the documented order: the upper bound
    on the 12-bit reference and the key. *)
Definition bands : list (Z * string) :=
  [(70, "left"); (230, "up"); (410, "down"); (620, "right"); (880, "enter")].

(** The key of the first band whose rescaled bound is strictly above the
    sample; the empty key when there is none. *)
Fixpoint first_band (adc_bits value : Z) (bs : list (Z * string)) : string :=
  match bs with
  | [] => ""
  | (t12, k) :: rest =>
      if Qlt_le_dec (inject_Z value) (threshold adc_bits t12) then k
      else first_band adc_bits value rest
  end.

(** The raw key of a keypad sample. *)
Definition raw_key (board_mapping : mappings.t) (x : clock * report) : string :=
  decode_key (mappings.get_adc_bits board_mapping) (report_value x.2).

(** The raw key of the sample before the next one: the last of the samples
    so far, the empty key at the start. *)
Definition previous_raw_key (board_mapping : mappings.t)
    (samples : list (clock * report)) : string :=
  match last samples with
  | Some x => raw_key board_mapping x
  | None => ""
  end.

(** The keypad monitor after a list of samples. *)
Definition keypad_after (board_mapping : mappings.t) (s : sensor)
    (samples : list (clock * report)) : KeypadMonitor :=
  (feed (fun x => KeypadMonitor.publish_data board_mapping x.1 x.2) samples
     (KeypadMonitor_init s)).1.

(** The samples end with a run of samples that all decode to [k], the
    first of them taken at [t0]. *)
Definition stable_since (board_mapping : mappings.t)
    (samples : list (clock * report)) (k : string) (t0 : Q) : Prop :=
  exists (pre run : list (clock * report)) (first : clock * report),
    samples = pre ++ first :: run
    /\ report_time first.2 = t0
    /\ Forall (fun x => raw_key board_mapping x = k) (first :: run).

(** The key that a message on either keypad topic carries. *)
Definition carried_key (e : keypad_topic) : string :=
  match e with
  | on_keypad msg => key msg
  | on_keypad_pressed msg => key msg
  end.

(** The transaction that a coroutine of the flush sends when it starts on a
    display in state [o] that has not failed; none when it raises first. *)
Definition issue_of (o : Oled) (c : Oled.coroutine) : list i2c_call :=
  match c with
  | Oled.write_cmd_async cmd =>
      if (0 <=? cmd) && (cmd <? 256)
      then [i2c_write 60 [128; cmd] (i2c_port o)]
      else []
  | Oled.task i =>
      match slice (i * 16) ((i + 1) * 16 + 1) (buffer o) with
      | [] => []
      | _ :: data => [i2c_write 60 (64 :: data) (i2c_port o)]
      end
  end.

(** Two states of one display that differ in the scratch bytes [temp] at
    most. *)
Definition same_panel (o o' : Oled) : Prop :=
  width o' = width o /\ height o' = height o /\ pages o' = pages o
  /\ i2c_port o' = i2c_port o /\ buffer o' = buffer o
  /\ write_commands o' = write_commands o.

(** From [w] to [w']: the bus answers as before, transactions were only
    added, [failed] was not reset, and [failed] is set if the board answered
    [False] to one of the added transactions or to one of those that
    [waiting] coroutines were waiting for. *)
Definition latched (waiting : list nat) (w w' : Oled * bus) : Prop :=
  acks w'.2 = acks w.2
  /\ (sent w.2 <= sent w'.2)%nat
  /\ (failed w.1 = true -> failed w'.1 = true)
  /\ (forall n : nat,
        n ∈ waiting \/ (sent w.2 <= n < sent w'.2)%nat ->
        acks w.2 n = Some false -> failed w'.1 = true).

(** The decision that [next_choice] returns, and the bus it leaves. *)
Definition chosen (w : Oled * bus) : choice :=
  match schedule w.2 with
  | [] => Start
  | ch :: _ => ch
  end.

Definition popped (w : Oled * bus) : Oled * bus :=
  (w.1, {| sent := sent w.2; acks := acks w.2;
           schedule := tail (schedule w.2) |}).

(** A method that keeps the latch and is silent on a failed display. *)
Definition quiet_latch {A : Type} (c : OledAct A) : Prop :=
  forall w : Oled * bus,
    latched [] w (state_of (c w))
    /\ (failed w.1 = true -> calls_of (c w) = []).

(** The operations on a display that reach the bus: [start], a flush, a
    service call. *)
Inductive operation : Type :=
| do_start
| do_show_async
| do_set_oled_image (req : SetOLEDImage).

Definition perform (op : operation) (w : Oled * bus) : Oled * bus :=
  match op with
  | do_start => state_of (Oled.start w)
  | do_show_async => state_of (Oled.show_async w)
  | do_set_oled_image req => state_of (Oled.set_oled_image_service req w)
  end.

(** The pin levels at the end of a trace. *)
Definition settle (lv : gmap Z Z) (cs : list board.call) : gmap Z Z :=
  fold_left board.apply cs lv.

(** Sample values: a board mapping of an 8-bit PWM, 12-bit ADC board and the
    pins of a motor. *)
Definition sample_mapping : mappings.t :=
  {| mappings.get_mcu := "nanoatmega328"; mappings.get_max_pwm_value := 255;
     mappings.get_adc_bits := 12; mappings.get_analog_offset := 14 |}.

Definition sample_sensor : sensor :=
  {| sensor_name := "left"; sensor_pins := {[ "pin" := 15 ]};
     max_frequency := Some (inject_Z 10); sensor_differential := None;
     ticks_per_wheel := None |}.

(** A clock that reads [t] seconds. *)
Definition at_time (t : Q) : clock :=
  {| time_time := py_number t; rospy_Time_now := t |}.

(** A sensor with a [max_frequency] of 60, and the clock that reads [ms]
    milliseconds. *)
Definition fast_sensor : sensor :=
  {| sensor_name := "line"; sensor_pins := {[ "pin" := 16 ]};
     max_frequency := Some (inject_Z 60); sensor_differential := None;
     ticks_per_wheel := None |}.

Definition at_millis (ms : Z) : clock := at_time (ms # 1000).

(** The display that [actuators] creates, and two buses: one that does not
    acknowledge, one that answers [False] to its fourth transaction. *)
Definition sample_display : Oled := Oled_init 128 64 0 [].

Definition silent_bus : bus :=
  {| sent := 0; acks := fun _ => None; schedule := [Start; Resume 0; Start] |}.

Definition failing_bus : bus :=
  {| sent := 0;
     acks := fun n => if (n =? 3)%nat then Some false else Some true;
     schedule := [] |}.

Definition sample_pins : gmap string Z :=
  {[ "p1" := 5; "p2" := 6; "d1" := 7; "d2" := 8 ]}.

(** The two pins are not high together. *)
Definition not_both_high (d1 d2 : Z) (lv : gmap Z Z) : Prop :=
  board.is_high lv d1 && board.is_high lv d2 = false.

(** ** Vocabulary of the further properties *)

(** The entries of [self.pins] that a motor interface reads. *)
Definition motor_keys (ty : motor_type) : list string :=
  match ty with
  | ddp => ["p1"; "d1"; "d2"]
  | dp => ["p1"; "d1"]
  | pp => ["p1"; "p2"]
  end.

Definition configured (ty : motor_type) (ps : gmap string Z) : Prop :=
  Forall (fun k => is_Some (ps !! k)) (motor_keys ty).

(** The pin-mode calls of the lazy initialization, for the speed [v] that
    triggers it. *)
Definition lazy_init_calls (board_mapping : mappings.t) (ty : motor_type)
    (ps : gmap string Z) (v : Z) : list board.call :=
  let pin := fun k => default 0 (ps !! k) in
  match ty with
  | ddp =>
      [pwm_mode_call board_mapping (pin "p1");
       board.set_pin_mode_digital_output (pin "d1");
       board.set_pin_mode_digital_output (pin "d2")]
  | dp =>
      if 0 <? v
      then [board.set_pin_mode_digital_output (pin "d1");
            pwm_mode_call board_mapping (pin "p1")]
      else [pwm_mode_call board_mapping (pin "p1");
            board.set_pin_mode_digital_output (pin "d1")]
  | pp =>
      if 0 <? v
      then [pwm_mode_call board_mapping (pin "p2");
            pwm_mode_call board_mapping (pin "p1")]
      else [pwm_mode_call board_mapping (pin "p1");
            pwm_mode_call board_mapping (pin "p2")]
  end.

(** The first speed of a list that is not 0. *)
Definition first_nonzero (speeds : list Z) : option Z :=
  List.find (fun v => negb (v =? 0)) speeds.

(** The PWM pins of a motor interface: the pins whose duty makes it turn. *)
Definition pwm_keys (ty : motor_type) : list string :=
  match ty with
  | ddp | dp => ["p1"]
  | pp => ["p1"; "p2"]
  end.

(** The keys of the messages on the [_pressed] topic, in order. *)
Fixpoint pressed_keys (es : list keypad_topic) : list string :=
  match es with
  | [] => []
  | on_keypad_pressed msg :: rest => key msg :: pressed_keys rest
  | on_keypad _ :: rest => pressed_keys rest
  end.

(** A sensor whose configuration carries a [max_frequency] of 0. *)
Definition stalled_sensor : sensor :=
  {| sensor_name := "keys"; sensor_pins := {[ "pin" := 15 ]};
     max_frequency := Some 0%Q; sensor_differential := None;
     ticks_per_wheel := None |}.

(** The display keeps its shape: the fields that [__init__] sets once, the
    queue of [start], and the size of the buffer. *)
Definition same_geometry (o o' : Oled) : Prop :=
  width o' = width o /\ height o' = height o /\ pages o' = pages o
  /\ i2c_port o' = i2c_port o
  /\ length (buffer o') = length (buffer o)
  /\ write_commands o' = write_commands o.

Definition keeps_geometry {A : Type} (c : OledAct A) : Prop :=
  forall w : Oled * bus, same_geometry w.1 (state_of (c w)).1.

(** The operations of a list, one after the other. *)
Definition perform_all (ops : list operation) (w : Oled * bus) : Oled * bus :=
  fold_left (fun w op => perform op w) ops w.

(** Sample values: a display with three commands in its queue, a bus that
    answers [False] to its second transaction, and a request for a white
    image. *)
Definition queued_display : Oled :=
  Oled_init 128 64 0 [[128; 174]; [128; 213]; [128; 175]].

Definition refusing_bus : bus :=
  {| sent := 0;
     acks := fun n => if (n =? 1)%nat then Some false else Some true;
     schedule := [] |}.

Definition white_image : SetOLEDImage :=
  {| req_type := "image"; req_value := "white";
     bitmaps := [Return (repeat 255 1024)] |}.

(** The key under which [data_callback] files a report: [pin_number]. *)
Definition pin_number (board_mapping : mappings.t) (r : report) : Z :=
  if report_type r =? 3
  then report_pin r + mappings.get_analog_offset board_mapping
  else report_pin r.

(** The pin that the service asks the board to report, by request type. *)
Definition watched (board_mapping : mappings.t) (req : GetPinValue)
    : list board.call :=
  (if bool_decide (get_type req = "analog")
   then [board.set_pin_mode_analog_input
           (get_pin req - mappings.get_analog_offset board_mapping)]
   else [])
  ++ (if bool_decide (get_type req = "digital")
      then [board.set_pin_mode_digital_input (get_pin req)]
      else []).

(** * Properties *)

(** ** Motors *)

Section MotorFacts.
Variable board_mapping : mappings.t.

Lemma pp_same_speed (m : Motor) :
  PPMotor.set_speed board_mapping (prev_motor_speed m) m = (Return tt, m, []).
Proof.
  cbv [PPMotor.set_speed bind get when ret]. rewrite Z.eqb_refl. reflexivity.
Qed.

Lemma dp_same_speed (m : Motor) :
  DPMotor.set_speed board_mapping (prev_motor_speed m) m = (Return tt, m, []).
Proof.
  cbv [DPMotor.set_speed bind get when ret]. rewrite Z.eqb_refl. reflexivity.
Qed.

Lemma ddp_same_speed (m : Motor) :
  DDPMotor.set_speed board_mapping (prev_motor_speed m) m = (Return tt, m, []).
Proof.
  cbv [DDPMotor.set_speed bind get when ret]. rewrite Z.eqb_refl. reflexivity.
Qed.

(** C9.  For each of the three motor interfaces, [set_speed] with the speed
    that was commanded last does nothing: it returns, the motor is the same,
    and no call (no pin mode, no write) reaches the board. *)
Theorem set_speed_same_speed_noop (ty : motor_type) (m : Motor) :
  set_speed board_mapping ty (prev_motor_speed m) m = (Return tt, m, []).
Proof.
  destruct ty; simpl;
    [apply ddp_same_speed | apply dp_same_speed | apply pp_same_speed].
Qed.

Lemma no_low_write_lookup (cs : list board.call) (j : nat) (q : Z) :
  no_low_write cs = true -> cs !! j = Some (board.digital_write q 0) -> False.
Proof.
  revert j; induction cs as [|c cs IH]; intros j Hn Hj; [done|].
  destruct j as [|j]; simpl in Hj.
  - injection Hj as ->. simpl in Hn. discriminate.
  - apply (IH j); [|exact Hj].
    destruct c; simpl in Hn; try exact Hn.
    apply andb_true_iff in Hn. tauto.
Qed.

Lemma lows_before_highs_lookup (cs : list board.call) (i j : nat)
    (p q v : Z) :
  lows_before_highs cs = true ->
  cs !! i = Some (board.digital_write p v) -> v <> 0 ->
  cs !! j = Some (board.digital_write q 0) -> (j < i)%nat.
Proof.
  revert i j; induction cs as [|c cs IH]; intros i j Hl Hi Hv Hj; [done|].
  assert (Hrest : lows_before_highs cs = true).
  { destruct c; simpl in Hl; try exact Hl.
    apply andb_true_iff in Hl. tauto. }
  destruct i as [|i], j as [|j]; simpl in Hi, Hj.
  - congruence.
  - exfalso. injection Hi as ->. simpl in Hl.
    apply andb_true_iff in Hl. destruct Hl as [Hl _].
    destruct (Z.eqb_spec v 0); [done|].
    exact (no_low_write_lookup cs j q Hl Hj).
  - lia.
  - apply (IH i j Hrest Hi Hv) in Hj. lia.
Qed.

Lemma ddp_lows_before_highs (speed : Z) (m : Motor) :
  lows_before_highs (calls_of (DDPMotor.set_speed board_mapping speed m)) = true.
Proof.
  destruct m as [ps nm prev ini].
  cbv [DDPMotor.set_speed DDPMotor.init_motors pin subscript bind get when ret
       raise emit modify calls_of set_pin_mode_analog_output analog_write
       pwm_mode_call pwm_write_call set_initialized set_prev_motor_speed
       pins initialized prev_motor_speed negb].
  destruct (prev =? speed); [reflexivity|].
  destruct ini, (0 <=? speed), (speed <? 0),
    (bool_decide (mappings.get_mcu board_mapping = "pico"));
    repeat (match goal with
            | |- context [ps !! ?k] => destruct (ps !! k)
            end; cbn);
    reflexivity.
Qed.

Lemma observe_app (lv : gmap Z Z) (cs1 cs2 : list board.call) :
  board.observe lv (cs1 ++ cs2)
  = board.observe lv cs1 ++ board.observe (settle lv cs1) cs2.
Proof.
  revert lv; induction cs1 as [|c cs1 IH]; intros lv; [reflexivity|].
  simpl. rewrite IH. reflexivity.
Qed.

Lemma settle_app (lv : gmap Z Z) (cs1 cs2 : list board.call) :
  settle lv (cs1 ++ cs2) = settle (settle lv cs1) cs2.
Proof. apply fold_left_app. Qed.

Lemma is_high_insert (lv : gmap Z Z) (p d v : Z) :
  board.is_high (<[p := v]> lv) d
  = if decide (p = d) then negb (v =? 0) else board.is_high lv d.
Proof.
  unfold board.is_high. rewrite lookup_insert.
  destruct (decide (p = d)); reflexivity.
Qed.

(** What one effective [set_speed] of the DDP driver does when the three
    pins are configured. *)
Lemma ddp_set_speed_calls (m : Motor) (speed p1 d1 d2 : Z) :
  pins m !! "p1" = Some p1 -> pins m !! "d1" = Some d1 ->
  pins m !! "d2" = Some d2 ->
  prev_motor_speed m <> speed ->
  DDPMotor.set_speed board_mapping speed m
  = (Return tt,
     set_prev_motor_speed speed
       (if initialized m then m else set_initialized true m),
     (if initialized m then []
      else [pwm_mode_call board_mapping p1;
            board.set_pin_mode_digital_output d1;
            board.set_pin_mode_digital_output d2])
     ++ (if 0 <=? speed
         then [board.digital_write d1 0; board.digital_write d2 0;
               pwm_write_call board_mapping p1
                 (scaled_pwm (mappings.get_max_pwm_value board_mapping) speed);
               board.digital_write d2 1]
         else [board.digital_write d2 0; board.digital_write d1 0;
               pwm_write_call board_mapping p1
                 (scaled_pwm (mappings.get_max_pwm_value board_mapping)
                    (Z.abs speed));
               board.digital_write d1 1])).
Proof.
  destruct m as [ps nm prev ini]. simpl. intros H1 H2 H3 Hne.
  cbv [DDPMotor.set_speed DDPMotor.init_motors pin subscript bind get when ret
       raise emit modify calls_of set_pin_mode_analog_output analog_write
       set_initialized set_prev_motor_speed
       pins initialized prev_motor_speed negb].
  destruct (Z.eqb_spec prev speed) as [|_]; [contradiction|].
  destruct ini; destruct (Z.leb_spec 0 speed) as [Hs|Hs];
    try (destruct (Z.ltb_spec speed 0); [|lia]);
    repeat (progress (cbn; rewrite ?H1, ?H2, ?H3));
    reflexivity.
Qed.

Lemma ddp_set_speed_pins (m : Motor) (speed : Z) :
  pins (state_of (DDPMotor.set_speed board_mapping speed m)) = pins m.
Proof.
  destruct m as [ps nm prev ini].
  cbv [DDPMotor.set_speed DDPMotor.init_motors pin subscript bind get when ret
       raise emit modify state_of set_pin_mode_analog_output analog_write
       set_initialized set_prev_motor_speed
       pins initialized prev_motor_speed negb].
  destruct (prev =? speed); [reflexivity|].
  destruct ini, (0 <=? speed), (speed <? 0);
    repeat (match goal with
            | |- context [ps !! ?k] => destruct (ps !! k)
            end; cbn);
    reflexivity.
Qed.

(** One call of the DDP driver keeps the direction pins from being high
    together, at every level it passes through and at the end. *)
Lemma ddp_set_speed_safe (m : Motor) (speed p1 d1 d2 : Z) (lv : gmap Z Z) :
  pins m !! "p1" = Some p1 -> pins m !! "d1" = Some d1 ->
  pins m !! "d2" = Some d2 ->
  p1 <> d1 -> p1 <> d2 -> d1 <> d2 ->
  not_both_high d1 d2 lv ->
  let cs := calls_of (DDPMotor.set_speed board_mapping speed m) in
  Forall (not_both_high d1 d2) (board.observe lv cs)
  /\ not_both_high d1 d2 (settle lv cs).
Proof.
  intros H1 H2 H3 N1 N2 N3 Hlv cs. subst cs.
  destruct (Z.eq_dec (prev_motor_speed m) speed) as [<-|Hne].
  { rewrite ddp_same_speed. split; [constructor|exact Hlv]. }
  rewrite (ddp_set_speed_calls m speed p1 d1 d2 H1 H2 H3 Hne).
  unfold calls_of, pwm_mode_call, pwm_write_call, not_both_high in *. simpl.
  destruct (initialized m), (0 <=? speed),
    (bool_decide (mappings.get_mcu board_mapping = "pico"));
    cbn [app board.observe settle fold_left board.apply];
    repeat first [apply Forall_cons_2 | apply Forall_nil_2 | split];
    rewrite ?is_high_insert;
    repeat (case_decide; try congruence);
    try reflexivity; try exact Hlv;
    rewrite ?andb_false_r; reflexivity.
Qed.

Lemma ddp_drive_safe (speeds : list Z) (m : Motor) (p1 d1 d2 : Z)
    (lv : gmap Z Z) :
  pins m !! "p1" = Some p1 -> pins m !! "d1" = Some d1 ->
  pins m !! "d2" = Some d2 ->
  p1 <> d1 -> p1 <> d2 -> d1 <> d2 ->
  not_both_high d1 d2 lv ->
  Forall (not_both_high d1 d2)
    (board.observe lv (drive (DDPMotor.set_speed board_mapping) speeds m).2).
Proof.
  intros H1 H2 H3 N1 N2 N3. revert m lv H1 H2 H3.
  induction speeds as [|v rest IH]; intros m lv H1 H2 H3 Hlv; [constructor|].
  simpl.
  destruct (ddp_set_speed_safe m v p1 d1 d2 lv H1 H2 H3 N1 N2 N3 Hlv)
    as [Hobs Hend].
  pose proof (ddp_set_speed_pins m v) as Hp.
  specialize (IH (state_of (DDPMotor.set_speed board_mapping v m))
                 (settle lv (calls_of (DDPMotor.set_speed board_mapping v m)))).
  rewrite Hp in IH. specialize (IH H1 H2 H3 Hend).
  destruct (drive (DDPMotor.set_speed board_mapping) rest
              (state_of (DDPMotor.set_speed board_mapping v m))) as [m' cs].
  simpl in *. rewrite observe_app. apply Forall_app. split; assumption.
Qed.

(** C1.  DDP motor.  In every call of [set_speed], in whatever state and for
    either sign of the speed, each write that drives a pin low comes strictly
    before each write that drives a pin high.  Hence, for a motor whose three
    pins are distinct and whose direction pins are not both high to begin
    with, no sequence of [set_speed] calls passes through pin levels where
    [d1] and [d2] are high together. *)
Theorem ddp_low_before_high (m : Motor) (p1 d1 d2 : Z) :
  pins m !! "p1" = Some p1 -> pins m !! "d1" = Some d1 ->
  pins m !! "d2" = Some d2 ->
  p1 <> d1 -> p1 <> d2 -> d1 <> d2 ->
  (forall (m0 : Motor) (speed : Z) (i j : nat) (p q v : Z),
     let cs := calls_of (DDPMotor.set_speed board_mapping speed m0) in
     cs !! i = Some (board.digital_write p v) -> v <> 0 ->
     cs !! j = Some (board.digital_write q 0) -> (j < i)%nat)
  /\ (forall (speeds : list Z) (lv : gmap Z Z),
        not_both_high d1 d2 lv ->
        Forall (not_both_high d1 d2)
          (board.observe lv
             (drive (DDPMotor.set_speed board_mapping) speeds m).2)).
Proof.
  intros H1 H2 H3 N1 N2 N3. split.
  - intros m0 speed i j p q v cs Hi Hv Hj.
    exact (lows_before_highs_lookup cs i j p q v
             (ddp_lows_before_highs speed m0) Hi Hv Hj).
  - intros speeds lv Hlv.
    exact (ddp_drive_safe speeds m p1 d1 d2 lv H1 H2 H3 N1 N2 N3 Hlv).
Qed.

Lemma drive_app (step : Z -> Act Motor board.call unit)
    (speeds more : list Z) (m : Motor) :
  drive step (speeds ++ more) m
  = ((drive step more (drive step speeds m).1).1,
     (drive step speeds m).2 ++ (drive step more (drive step speeds m).1).2).
Proof.
  revert m; induction speeds as [|v rest IH]; intros m; simpl.
  - destruct (drive step more m); reflexivity.
  - rewrite IH.
    destruct (drive step rest (state_of (step v m))) as [m1 c1]. simpl.
    rewrite app_assoc. reflexivity.
Qed.

(** What one effective [set_speed] of the DP driver does when the two pins
    are configured. *)
Lemma dp_set_speed_calls (m : Motor) (speed p1 d1 : Z) :
  pins m !! "p1" = Some p1 -> pins m !! "d1" = Some d1 ->
  prev_motor_speed m <> speed ->
  DPMotor.set_speed board_mapping speed m
  = (Return tt,
     set_prev_motor_speed speed
       (if (speed =? 0) || initialized m then m else set_initialized true m),
     if speed =? 0 then
       [board.digital_write d1 0; pwm_write_call board_mapping p1 0]
     else if 0 <? speed then
       (if initialized m then []
        else [board.set_pin_mode_digital_output d1;
              pwm_mode_call board_mapping p1])
       ++ [board.digital_write d1 0;
           pwm_write_call board_mapping p1
             (scaled_pwm (mappings.get_max_pwm_value board_mapping) speed)]
     else
       (if initialized m then []
        else [pwm_mode_call board_mapping p1;
              board.set_pin_mode_digital_output d1])
       ++ [board.digital_write d1 1;
           pwm_write_call board_mapping p1
             (inverted_pwm (mappings.get_max_pwm_value board_mapping) speed)]).
Proof.
  destruct m as [ps nm prev ini]. simpl. intros H1 H2 Hne.
  cbv [DPMotor.set_speed DPMotor.init_motors pin subscript bind get when ret
       raise emit modify calls_of set_pin_mode_analog_output analog_write
       set_initialized set_prev_motor_speed
       pins initialized prev_motor_speed negb].
  destruct (Z.eqb_spec prev speed) as [|_]; [contradiction|].
  destruct (Z.eqb_spec speed 0) as [Hz|Hz];
    [|destruct (Z.ltb_spec 0 speed) as [Hs|Hs];
      destruct (Z.ltb_spec speed 0); try lia];
    destruct ini;
    repeat (progress (cbn; rewrite ?H1, ?H2));
    reflexivity.
Qed.

(** Once initialized, the DP driver sets no pin mode again. *)
Lemma dp_initialized_no_pin_mode (m : Motor) (speed : Z) :
  initialized m = true ->
  List.filter board.is_pin_mode
    (calls_of (DPMotor.set_speed board_mapping speed m)) = []
  /\ initialized (state_of (DPMotor.set_speed board_mapping speed m)) = true.
Proof.
  destruct m as [ps nm prev ini]. simpl. intros ->.
  cbv [DPMotor.set_speed DPMotor.init_motors pin subscript bind get when ret
       raise emit modify calls_of state_of set_pin_mode_analog_output
       analog_write pwm_write_call
       set_initialized set_prev_motor_speed
       pins initialized prev_motor_speed negb].
  destruct (prev =? speed); [split; reflexivity|].
  destruct (speed =? 0), (0 <? speed), (speed <? 0),
    (bool_decide (mappings.get_mcu board_mapping = "pico"));
    repeat (match goal with
            | |- context [ps !! ?k] => destruct (ps !! k)
            end; cbn);
    split; reflexivity.
Qed.

Lemma dp_drive_no_pin_mode (speeds : list Z) (m : Motor) :
  initialized m = true ->
  List.filter board.is_pin_mode
    (drive (DPMotor.set_speed board_mapping) speeds m).2 = [].
Proof.
  revert m; induction speeds as [|v rest IH]; intros m Hi; [reflexivity|].
  simpl. destruct (dp_initialized_no_pin_mode m v Hi) as [Hc Hs].
  specialize (IH _ Hs).
  destruct (drive (DPMotor.set_speed board_mapping) rest
              (state_of (DPMotor.set_speed board_mapping v m))) as [m' cs].
  simpl in *. rewrite List.filter_app, Hc, IH. reflexivity.
Qed.

(** C7.  DP motor, fresh from its constructor, driven forward ([0 < f]), then
    to 0, then into reverse ([r < 0]).  The calls that reach the board are
    the two pin-mode calls, once, at the head of the forward call, and then
    writes only; they stay the only pin-mode calls whatever speeds follow.
    Every effective reverse call of a motor on these pins (in any state)
    ends with the direction pin written high and the PWM pin written
    [int(max_pwm - min(abs(speed), 100) / 100.0 * max_pwm)], the inverted
    curve, after at most its lazy pin-mode calls. *)
Theorem dp_forward_stop_reverse (ps : gmap string Z) (nm : string)
    (d1 p1 f r : Z) :
  ps !! "d1" = Some d1 -> ps !! "p1" = Some p1 -> 0 < f -> r < 0 ->
  let max_pwm := mappings.get_max_pwm_value board_mapping in
  let step := DPMotor.set_speed board_mapping in
  (drive step [f; 0; r] (Motor_init ps nm)).2
  = [board.set_pin_mode_digital_output d1;
     pwm_mode_call board_mapping p1;
     board.digital_write d1 0;
     pwm_write_call board_mapping p1 (scaled_pwm max_pwm f);
     board.digital_write d1 0;
     pwm_write_call board_mapping p1 0;
     board.digital_write d1 1;
     pwm_write_call board_mapping p1
       (py_int (py_float max_pwm
                - py_float (Z.min (Z.abs r) 100) / 100 * py_float max_pwm)%float)]
  /\ (forall more : list Z,
        List.filter board.is_pin_mode
          (drive step ([f; 0; r] ++ more) (Motor_init ps nm)).2
        = [board.set_pin_mode_digital_output d1;
           pwm_mode_call board_mapping p1])
  /\ (forall (m : Motor) (speed : Z),
        pins m = ps -> speed < 0 -> prev_motor_speed m <> speed ->
        exists pre : list board.call,
          calls_of (step speed m)
          = pre ++ [board.digital_write d1 1;
                    pwm_write_call board_mapping p1
                      (py_int (py_float max_pwm
                               - py_float (Z.min (Z.abs speed) 100) / 100
                                 * py_float max_pwm)%float)]
          /\ forallb board.is_pin_mode pre = true).
Proof.
  intros Hd Hp Hf Hr max_pwm step.
  assert (Hrun : drive step [f; 0; r] (Motor_init ps nm)
                 = (set_prev_motor_speed r
                      (set_initialized true (Motor_init ps nm)),
                    [board.set_pin_mode_digital_output d1;
                     pwm_mode_call board_mapping p1;
                     board.digital_write d1 0;
                     pwm_write_call board_mapping p1 (scaled_pwm max_pwm f);
                     board.digital_write d1 0;
                     pwm_write_call board_mapping p1 0;
                     board.digital_write d1 1;
                     pwm_write_call board_mapping p1
                       (inverted_pwm max_pwm r)])).
  { unfold step. simpl.
    rewrite (dp_set_speed_calls (Motor_init ps nm) f p1 d1 Hp Hd)
      by (simpl; lia).
    destruct (Z.eqb_spec f 0); [lia|].
    destruct (Z.ltb_spec 0 f); [|lia]. simpl.
    match goal with
    | |- context [DPMotor.set_speed board_mapping 0 ?m] =>
        rewrite (dp_set_speed_calls m 0 p1 d1 Hp Hd) by (simpl; lia)
    end. simpl.
    match goal with
    | |- context [DPMotor.set_speed board_mapping r ?m] =>
        rewrite (dp_set_speed_calls m r p1 d1 Hp Hd) by (simpl; lia)
    end.
    destruct (Z.eqb_spec r 0); [lia|].
    destruct (Z.ltb_spec 0 r); [lia|]. reflexivity. }
  split; [rewrite Hrun; reflexivity|]. split.
  - intros more. rewrite drive_app, Hrun. cbn [fst snd].
    rewrite List.filter_app, dp_drive_no_pin_mode by reflexivity.
    unfold pwm_mode_call, pwm_write_call.
    destruct (bool_decide (mappings.get_mcu board_mapping = "pico"));
      reflexivity.
  - intros m speed <- Hs Hne. unfold step.
    rewrite (dp_set_speed_calls m speed p1 d1 Hp Hd Hne).
    destruct (Z.eqb_spec speed 0); [lia|].
    destruct (Z.ltb_spec 0 speed); [lia|].
    eexists. split; [reflexivity|].
    unfold pwm_mode_call.
    destruct (initialized m),
      (bool_decide (mappings.get_mcu board_mapping = "pico")); reflexivity.
Qed.

End MotorFacts.

(** The duty is the integer Python computes: [29 / 100.0 * 100] is just
    below 29 in binary64. *)
Remark scaled_pwm_binary64 :
  scaled_pwm 100 29 = 28 /\ scaled_pwm 255 40 = 102
  /\ inverted_pwm 255 (-40) = 153.
Proof. repeat split; reflexivity. Qed.

Lemma dp_forward_stop_reverse_witness :
  (drive (DPMotor.set_speed sample_mapping) [40; 0; -40]
     (Motor_init sample_pins "left")).2
  = [board.set_pin_mode_digital_output 7;
     board.set_pin_mode_analog_output 5;
     board.digital_write 7 0; board.analog_write 5 102;
     board.digital_write 7 0; board.analog_write 5 0;
     board.digital_write 7 1; board.analog_write 5 153].
Proof.
  refine (proj1 (dp_forward_stop_reverse sample_mapping sample_pins "left"
                   7 5 40 (-40) _ _ _ _));
    [vm_compute; reflexivity | vm_compute; reflexivity | lia | lia].
Defined.

Lemma ddp_low_before_high_witness :
  Forall (not_both_high 7 8)
    (board.observe ∅
       (drive (DDPMotor.set_speed sample_mapping) [0; 40; -40; 0]
          (Motor_init sample_pins "left")).2).
Proof.
  apply (ddp_low_before_high sample_mapping (Motor_init sample_pins "left")
           5 7 8);
    [vm_compute; reflexivity | vm_compute; reflexivity
    | vm_compute; reflexivity | lia | lia | lia | reflexivity].
Defined.

(** ** Binary64 facts that follow from the sign alone *)

Lemma binary_round_aux_sign (mx ex : Z) (lx : location) :
  SFltb (binary_round_aux prec emax false mx ex lx) (S754_zero false) = false.
Proof.
  unfold binary_round_aux.
  destruct (shr_fexp prec emax mx ex lx) as [mrs' e'].
  destruct (shr_fexp prec emax _ e' loc_Exact) as [mrs'' e''].
  destruct (shr_m mrs''); [reflexivity| |reflexivity].
  destruct (Z.leb _ _); reflexivity.
Qed.

Lemma binary_round_sign (m : positive) (e : Z) :
  SFltb (binary_round prec emax false m e) (S754_zero false) = false.
Proof.
  unfold binary_round. destruct (shl_align _ _ _) as [mz ez].
  apply binary_round_aux_sign.
Qed.

Lemma positive_shape (p : float) :
  (0 <? p)%float = true ->
  (exists m e, Prim2SF p = S754_finite false m e)
  \/ Prim2SF p = S754_infinity false.
Proof.
  rewrite FloatAxioms.ltb_spec. change (Prim2SF 0) with (S754_zero false).
  destruct (Prim2SF p) as [s|s| |s m e]; try discriminate.
  - destruct s; [discriminate|]. right. reflexivity.
  - destruct s; [discriminate|]. left. eauto.
Qed.

Lemma negative_shape (p : float) :
  (p <? 0)%float = true ->
  (exists m e, Prim2SF p = S754_finite true m e)
  \/ Prim2SF p = S754_infinity true.
Proof.
  rewrite FloatAxioms.ltb_spec. change (Prim2SF 0) with (S754_zero false).
  destruct (Prim2SF p) as [s|s| |s m e]; try discriminate.
  - destruct s; [|discriminate]. right. reflexivity.
  - destruct s; [|discriminate]. left. eauto.
Qed.

Lemma finite_shape (x : float) :
  finite_float x ->
  (exists s, Prim2SF x = S754_zero s)
  \/ (exists s m e, Prim2SF x = S754_finite s m e).
Proof.
  unfold finite_float. rewrite FloatAxioms.ltb_spec, FloatAxioms.abs_spec.
  change (Prim2SF infinity) with (S754_infinity false).
  destruct (Prim2SF x) as [s|s| |s m e]; try discriminate; eauto.
Qed.

(** A sum of a float that is not below zero and a positive one is not below
    zero. *)
Lemma not_negative_add (x p : float) :
  not_negative x -> (0 <? p)%float = true -> not_negative (x + p)%float.
Proof.
  unfold not_negative. intros Hx Hp.
  pose proof (positive_shape p Hp) as Hs. clear Hp.
  rewrite FloatAxioms.ltb_spec in Hx. rewrite FloatAxioms.ltb_spec, FloatAxioms.add_spec.
  change (Prim2SF 0) with (S754_zero false) in *.
  destruct Hs as [(m & e & ->)| ->];
    destruct (Prim2SF x) as [sx|sx| |sx mx ex];
    try (destruct sx; try discriminate Hx); try reflexivity.
  unfold SF64add, SFadd, cond_Zopp.
  cbn [Z.add]. apply binary_round_sign.
Qed.

(** A float that is not below zero is not the sentinel. *)
Lemma not_negative_sentinel (x : float) :
  not_negative x -> (x =? -1)%float = false.
Proof.
  unfold not_negative. rewrite FloatAxioms.ltb_spec, FloatAxioms.eqb_spec.
  change (Prim2SF 0) with (S754_zero false).
  change (Prim2SF (-1)) with (S754_finite true 4503599627370496 (-52)).
  destruct (Prim2SF x) as [sx|sx| |sx mx ex]; try reflexivity;
    destruct sx; try discriminate; reflexivity.
Qed.

(** [x - x] is a zero or a NaN: below every positive period. *)
Lemma sub_diag_below (x p : float) :
  (0 <? p)%float = true -> (p <=? x - x)%float = false.
Proof.
  intros Hp. rewrite FloatAxioms.leb_spec, FloatAxioms.sub_spec.
  destruct (positive_shape p Hp) as [(m & e & ->)| ->];
    destruct (Prim2SF x) as [sx|sx| |sx mx ex];
    try (destruct sx; reflexivity); try reflexivity;
    unfold SF64sub, SFsub; rewrite Z.sub_diag; reflexivity.
Qed.

(** For a finite [x], [x - x] is zero: at least every negative period. *)
Lemma sub_diag_above (x p : float) :
  finite_float x -> (p <? 0)%float = true -> (p <=? x - x)%float = true.
Proof.
  intros Hx Hp. rewrite FloatAxioms.leb_spec, FloatAxioms.sub_spec.
  destruct (negative_shape p Hp) as [(m & e & ->)| ->];
    destruct (finite_shape x Hx) as [(s & ->)|(s & mx & ex & ->)];
    try (destruct s; reflexivity);
    unfold SF64sub, SFsub; rewrite Z.sub_diag; reflexivity.
Qed.

(** ** The publish-rate limiter *)

Section RateFacts.
Context {Msg E : Type}.
Variable publisher : Msg -> E.

Lemma Qeq_bool_false (a b : Q) : ~ (a == b)%Q -> Qeq_bool a b = false.
Proof.
  intros Hn. destruct (Qeq_bool a b) eqn:Hb; [|reflexivity].
  apply Qeq_bool_iff in Hb. contradiction.
Qed.

Lemma publish_unthrottled (m : SensorMonitor Msg) (c : clock) (data : Msg) :
  (max_freq m == - (1))%Q ->
  publish publisher c data m
  = (Return tt, set_last_publish_value data m, [publisher data]).
Proof.
  intros Hm. apply Qeq_bool_iff in Hm.
  cbv [publish publish_imp bind get emit modify]. rewrite Hm. reflexivity.
Qed.

Lemma publish_first (m : SensorMonitor Msg) (c : clock) (data : Msg) :
  ~ (max_freq m == 0)%Q -> ~ (max_freq m == - (1))%Q ->
  (0 <? 1000 / py_number (max_freq m))%float = true ->
  (last_publish_time m =? -1)%float = true ->
  publish publisher c data m
  = (Return tt,
     set_last_publish_time (py_float (now_millis c))
       (set_last_publish_value data m),
     [publisher data]).
Proof.
  intros H0 H1 Hp Hl.
  cbv [publish publish_imp period bind get emit modify when ret raise].
  rewrite (Qeq_bool_false _ _ H1), Hl.
  cbn [max_freq last_publish_time set_last_publish_time
       set_last_publish_value fst snd app].
  rewrite (Qeq_bool_false _ _ H0), (sub_diag_below _ _ Hp). reflexivity.
Qed.

Lemma publish_later (m : SensorMonitor Msg) (c : clock) (data : Msg) :
  ~ (max_freq m == 0)%Q -> ~ (max_freq m == - (1))%Q ->
  (last_publish_time m =? -1)%float = false ->
  follows_rate publisher m c data.
Proof.
  intros H0 H1 Hl. unfold follows_rate.
  cbv [publish publish_imp period bind get emit modify when ret raise
       result_of calls_of state_of].
  rewrite (Qeq_bool_false _ _ H1), Hl.
  cbn [max_freq last_publish_time fst snd app].
  rewrite (Qeq_bool_false _ _ H0).
  destruct (1000 / py_number (max_freq m)
            <=? py_float (now_millis c) - last_publish_time m)%float;
    cbn [fst snd app max_freq last_publish_time last_publish_value
         set_last_publish_time set_last_publish_value];
    repeat split; try discriminate; destruct m; reflexivity.
Qed.

Lemma governed_from (inputs : list (clock * Msg)) (m : SensorMonitor Msg) :
  ~ (max_freq m == 0)%Q -> ~ (max_freq m == - (1))%Q ->
  (0 <? 1000 / py_number (max_freq m))%float = true ->
  not_negative (last_publish_time m) ->
  governed publisher m inputs.
Proof.
  revert m; induction inputs as [|[c data] rest IH]; intros m H0 H1 Hp Hl;
    [exact I|].
  pose proof (publish_later m c data H0 H1 (not_negative_sentinel _ Hl))
    as Hr.
  split; [exact Hr|].
  destruct Hr as (_ & Hfwd & Hskip). cbv zeta in Hfwd, Hskip.
  destruct (1000 / py_number (max_freq m)
            <=? py_float (now_millis c) - last_publish_time m)%float.
  - destruct (Hfwd eq_refl) as (_ & Hlast & _ & Hmf).
    apply IH; rewrite ?Hmf, ?Hlast; try assumption.
    apply not_negative_add; assumption.
  - destruct (Hskip eq_refl) as [_ ->]. apply IH; assumption.
Qed.

(** C2, as amended.  A monitor whose [max_freq] is positive, with a period
    [1000.0 / max_freq] that is positive in binary64 (the sentinel is [-1]):
    the first call after construction, at a clock that is not below zero,
    forwards its reading once and sets [last_publish_time] to the current
    time in milliseconds; each later call of any sequence forwards exactly
    when [now - last_publish_time >= 1000.0 / max_freq], evaluated in
    binary64, and a forward moves [last_publish_time] on by the period (a
    binary64 sum), not to [now].  A monitor whose [max_freq] is the sentinel
    forwards every reading.  The current time in milliseconds is the rounded
    binary64 product: half a millisecond goes to the even neighbour. *)
Theorem publish_rate_governed (s : sensor) (v : Msg) :
  (0 < max_freq (SensorMonitor_init s v))%Q ->
  (0 <? 1000 / py_number (max_freq (SensorMonitor_init s v)))%float = true ->
  (forall (c : clock) (data : Msg) (rest : list (clock * Msg)),
     not_negative (py_float (now_millis c)) ->
     let m0 := SensorMonitor_init s v in
     publish publisher c data m0
     = (Return tt,
        set_last_publish_time (py_float (now_millis c))
          (set_last_publish_value data m0),
        [publisher data])
     /\ governed publisher (state_of (publish publisher c data m0)) rest)
  /\ (forall (m : SensorMonitor Msg) (c : clock) (data : Msg),
        (max_freq m == - (1))%Q ->
        publish publisher c data m
        = (Return tt, set_last_publish_value data m, [publisher data]))
  /\ now_millis (at_time (17000000001234 # 10000)) = 1700000000123
  /\ now_millis (at_time (5 # 10000)) = 0
  /\ now_millis (at_time (15 # 10000)) = 2
  /\ now_millis (at_time (17000000001235 # 10000)) = 1700000000124.
Proof.
  intros Hf Hp.
  assert (H0 : ~ (max_freq (SensorMonitor_init s v) == 0)%Q) by lra.
  assert (H1 : ~ (max_freq (SensorMonitor_init s v) == - (1))%Q) by lra.
  split; [|split; [|repeat split; vm_compute; reflexivity]].
  - intros c data rest Hnow m0.
    assert (Hfirst := publish_first m0 c data H0 H1 Hp eq_refl).
    split; [exact Hfirst|].
    rewrite Hfirst. apply governed_from; assumption.
  - intros m c data Hm. apply publish_unthrottled, Hm.
Qed.

End RateFacts.

Lemma publish_rate_governed_witness :
  (publish (fun x : Z => x) (at_millis 1700000000000) 1
     (SensorMonitor_init fast_sensor 0)
   = (Return tt,
      set_last_publish_time (py_float 1700000000000)
        (set_last_publish_value 1 (SensorMonitor_init fast_sensor 0)),
      [1])
   /\ governed (fun x : Z => x)
        (state_of (publish (fun x : Z => x) (at_millis 1700000000000) 1
                     (SensorMonitor_init fast_sensor 0)))
        [(at_millis 1700000000017, 2); (at_millis 1700000000034, 3);
         (at_millis 1700000000050, 4)])
  /\ (feed (fun x => publish (fun y : Z => y) x.1 x.2)
        [(at_millis 1700000000000, 1); (at_millis 1700000000017, 2);
         (at_millis 1700000000034, 3); (at_millis 1700000000050, 4)]
        (SensorMonitor_init fast_sensor 0)).2 = [1; 2; 3]
  /\ Prim2SF
       (last_publish_time
          (feed (fun x => publish (fun y : Z => y) x.1 x.2)
             [(at_millis 1700000000000, 1); (at_millis 1700000000017, 2);
              (at_millis 1700000000034, 3); (at_millis 1700000000050, 4)]
             (SensorMonitor_init fast_sensor 0)).1)
     = S754_finite false 6963200000136534 (-12).
Proof.
  split; [|split; vm_compute; reflexivity].
  refine (proj1 (publish_rate_governed (fun x : Z => x) fast_sensor 0 _ _)
            (at_millis 1700000000000) 1
            [(at_millis 1700000000017, 2); (at_millis 1700000000034, 3);
             (at_millis 1700000000050, 4)] _).
  - reflexivity.
  - vm_compute. reflexivity.
  - vm_compute. reflexivity.
Defined.

(** C2, as the claim words it.  It speaks of every [max_frequency] but the
    sentinel: with a [max_frequency] of -5 the first call forwards its
    reading twice and leaves [last_publish_time] one period before the
    current time, not at it.  And it speaks of an advance by exactly
    [1000 / f]: with a [max_frequency] of 60, the forward of a reading 17 ms
    after the first moves [last_publish_time] by the binary64 sum, which is
    not [1000 / 60] away. *)
Lemma publish_rate_counterexample :
  (calls_of (publish (fun x : Z => x) (at_millis 1700000000000) 1
               (set_max_freq (- (5)) (SensorMonitor_init sample_sensor 0)))
   = [1; 1]
   /\ PrimFloat.eqb
        (last_publish_time
           (state_of (publish (fun x : Z => x) (at_millis 1700000000000) 1
                        (set_max_freq (- (5))
                           (SensorMonitor_init sample_sensor 0)))))
        (py_float (now_millis (at_millis 1700000000000))) = false)
  /\ (calls_of (publish (fun x : Z => x) (at_millis 1700000000017) 2
                  (state_of (publish (fun x : Z => x)
                               (at_millis 1700000000000) 1
                               (SensorMonitor_init fast_sensor 0))))
      = [2]
      /\ Qeq_bool
           (float_value
              (last_publish_time
                 (state_of
                    (publish (fun x : Z => x) (at_millis 1700000000017) 2
                       (state_of (publish (fun x : Z => x)
                                    (at_millis 1700000000000) 1
                                    (SensorMonitor_init fast_sensor 0))))))
            - float_value
                (last_publish_time
                   (state_of (publish (fun x : Z => x)
                                (at_millis 1700000000000) 1
                                (SensorMonitor_init fast_sensor 0)))))
           (1000 / 60) = false).
Proof. vm_compute. repeat split. Qed.

(** ** The encoder monitor *)

Lemma encoder_publish_data (m : EncoderSensorMonitor) (c : clock)
    (data : report) :
  max_freq (encoder_base m) = (- (1))%Q ->
  let msg := {| encoder_header := rospy_Time_now c;
                value := report_value data |} in
  EncoderSensorMonitor.publish_data c data m
  = (Return tt,
     set_encoder_base (set_last_publish_value msg (encoder_base m))
       (set_speed_count (speed_count m + 1) m),
     [msg]).
Proof.
  intros Hm msg.
  cbv [EncoderSensorMonitor.publish_data zoom publish publish_imp bind get
       emit modify set_speed_count encoder_base].
  destruct m as [base tpw cnt]. simpl in Hm. rewrite Hm. reflexivity.
Qed.

(** C10.  Whatever [max_frequency] its configuration carries, an encoder
    monitor leaves its constructor with [max_freq = -1], and every reading
    it receives is forwarded to the publisher, in order. *)
Theorem encoder_always_forwards (s : sensor)
    (inputs : list (clock * report)) :
  max_freq (encoder_base (EncoderSensorMonitor_init s)) = (- (1))%Q
  /\ (feed (fun x => EncoderSensorMonitor.publish_data x.1 x.2) inputs
        (EncoderSensorMonitor_init s)).2
     = map (fun x => {| encoder_header := rospy_Time_now x.1;
                        value := report_value x.2 |}) inputs.
Proof.
  split; [reflexivity|].
  assert (H0 : max_freq (encoder_base (EncoderSensorMonitor_init s))
               = (- (1))%Q) by reflexivity.
  revert H0. generalize (EncoderSensorMonitor_init s).
  induction inputs as [|[c data] rest IH]; intros m Hm; [reflexivity|].
  simpl. rewrite (encoder_publish_data m c data Hm). simpl.
  specialize (IH (set_encoder_base
                    (set_last_publish_value
                       {| encoder_header := rospy_Time_now c;
                          value := report_value data |} (encoder_base m))
                    (set_speed_count (speed_count m + 1) m)) Hm).
  destruct (feed _ rest _) as [m' es]. simpl in *. rewrite IH. reflexivity.
Qed.

(** ** The keypad *)

Lemma decode_key_bands (p x : Q) :
  (0 < p)%Q ->
  let T := fun t12 : Z => (inject_Z t12 / 4096 * p)%Q in
  let k :=
    if Qlt_le_dec x (T 70%Z) then "left"
    else if Qlt_le_dec x (T 230%Z) then "up"
    else if Qlt_le_dec x (T 410%Z) then "down"
    else if Qlt_le_dec x (T 620%Z) then "right"
    else if Qlt_le_dec x (T 880%Z) then "enter"
    else "" in
  (k = "left" <-> (x < T 70%Z)%Q)
  /\ (k = "up" <-> (T 70%Z <= x < T 230%Z)%Q)
  /\ (k = "down" <-> (T 230%Z <= x < T 410%Z)%Q)
  /\ (k = "right" <-> (T 410%Z <= x < T 620%Z)%Q)
  /\ (k = "enter" <-> (T 620%Z <= x < T 880%Z)%Q)
  /\ (k = "" <-> (T 880%Z <= x)%Q).
Proof.
  intros Hp T k. subst k T. cbn beta.
  change (inject_Z 70) with 70%Q. change (inject_Z 230) with 230%Q.
  change (inject_Z 410) with 410%Q. change (inject_Z 620) with 620%Q.
  change (inject_Z 880) with 880%Q.
  assert (E : forall t : Q, (t / 4096 * p == t * (p / 4096))%Q)
    by (intros; field).
  assert (Hu : (0 < p / 4096)%Q) by (apply Qlt_shift_div_l; lra).
  repeat match goal with
         | |- context [Qlt_le_dec ?a ?b] => destruct (Qlt_le_dec a b)
         end;
    repeat split; intros; try discriminate; try reflexivity;
    try match goal with H : _ /\ _ |- _ => destruct H end;
    rewrite ?E in *; clear E Hp; generalize dependent (p / 4096)%Q; intros;
    first [lra | exfalso; lra].
Qed.

Lemma decode_key_12 (value : Z) :
  decode_key 12 value
  = if value <? 70 then "left"
    else if value <? 230 then "up"
    else if value <? 410 then "down"
    else if value <? 620 then "right"
    else if value <? 880 then "enter"
    else "".
Proof.
  unfold decode_key.
  repeat match goal with
         | |- context [Qlt_le_dec ?a ?b] =>
             let H := fresh in
             destruct (Qlt_le_dec a b) as [H|H];
             unfold Qlt, Qle in H; cbn in H
         end;
    repeat match goal with
           | |- context [?a <? ?b] => destruct (Z.ltb_spec a b)
           end;
    first [reflexivity | lia].
Qed.

Lemma decode_key_10 (value : Z) :
  decode_key 10 value
  = if value <? 18 then "left"
    else if value <? 58 then "up"
    else if value <? 103 then "down"
    else if value <? 155 then "right"
    else if value <? 220 then "enter"
    else "".
Proof.
  unfold decode_key.
  repeat match goal with
         | |- context [Qlt_le_dec ?a ?b] =>
             let H := fresh in
             destruct (Qlt_le_dec a b) as [H|H];
             unfold Qlt, Qle in H; cbn in H
         end;
    repeat match goal with
           | |- context [?a <? ?b] => destruct (Z.ltb_spec a b)
           end;
    first [reflexivity | lia].
Qed.

Lemma decode_key_16 (value : Z) :
  decode_key 16 value
  = if value <? 1120 then "left"
    else if value <? 3680 then "up"
    else if value <? 6560 then "down"
    else if value <? 9920 then "right"
    else if value <? 14080 then "enter"
    else "".
Proof.
  unfold decode_key.
  repeat match goal with
         | |- context [Qlt_le_dec ?a ?b] =>
             let H := fresh in
             destruct (Qlt_le_dec a b) as [H|H];
             unfold Qlt, Qle in H; cbn in H
         end;
    repeat match goal with
           | |- context [?a <? ?b] => destruct (Z.ltb_spec a b)
           end;
    first [reflexivity | lia].
Qed.

(** C5.  The decoded key depends on the sample and the ADC depth only; it is
    the key of the first band, in the order left, up, down, right, enter,
    whose bound [t12 / 4096 * 2 ** adc_bits] is strictly above the sample,
    and the empty key when no band matches.  So each key owns the interval
    between the previous bound and its own.  At 12 bits the bounds are 70,
    230, 410, 620 and 880: 50 decodes to left and 150 to up.  At 10 bits
    they are a quarter of that (17.5, 57.5, 102.5, 155, 220), at 16 bits
    sixteen times as much. *)
Theorem keypad_decode (adc_bits value : Z) :
  let T := fun t12 : Z => (inject_Z t12 / 4096 * 2 ^ adc_bits)%Q in
  let x := inject_Z value in
  let k := decode_key adc_bits value in
  k = first_band adc_bits value bands
  /\ ((k = "left" <-> (x < T 70%Z)%Q)
      /\ (k = "up" <-> (T 70%Z <= x < T 230%Z)%Q)
      /\ (k = "down" <-> (T 230%Z <= x < T 410%Z)%Q)
      /\ (k = "right" <-> (T 410%Z <= x < T 620%Z)%Q)
      /\ (k = "enter" <-> (T 620%Z <= x < T 880%Z)%Q)
      /\ (k = "" <-> (T 880%Z <= x)%Q))
  /\ decode_key 12 value
     = (if value <? 70 then "left"
        else if value <? 230 then "up"
        else if value <? 410 then "down"
        else if value <? 620 then "right"
        else if value <? 880 then "enter"
        else "")
  /\ (decode_key 12 50 = "left" /\ decode_key 12 150 = "up")
  /\ decode_key 10 value
     = (if value <? 18 then "left"
        else if value <? 58 then "up"
        else if value <? 103 then "down"
        else if value <? 155 then "right"
        else if value <? 220 then "enter"
        else "")
  /\ (decode_key 10 17 = "left" /\ decode_key 10 18 = "up"
      /\ decode_key 10 219 = "enter" /\ decode_key 10 220 = "")
  /\ (decode_key 16 1119 = "left" /\ decode_key 16 1120 = "up").
Proof.
  intros T x k. split; [reflexivity|].
  split; [|split; [|split; [|split; [|split]]]].
  - apply (decode_key_bands (2 ^ adc_bits)%Q x).
    apply Qpower_0_lt. reflexivity.
  - apply decode_key_12.
  - rewrite !decode_key_12. split; reflexivity.
  - apply decode_key_10.
  - rewrite !decode_key_10. repeat split.
  - rewrite !decode_key_16. split; reflexivity.
Qed.

Section KeypadFacts.
Variable board_mapping : mappings.t.

Lemma publish_returns {Msg E : Type} (publisher : Msg -> E)
    (m : SensorMonitor Msg) (c : clock) (data : Msg) :
  ~ (max_freq m == 0)%Q ->
  result_of (publish publisher c data m) = Return tt
  /\ Forall (fun e => e = publisher data) (calls_of (publish publisher c data m))
  /\ max_freq (state_of (publish publisher c data m)) = max_freq m.
Proof.
  intros Hf.
  cbv [publish publish_imp period bind get emit modify when ret raise
       result_of calls_of state_of].
  destruct (Qeq_bool (max_freq m) (- (1)));
    [cbn; repeat split; repeat constructor|].
  destruct (last_publish_time m =? -1)%float;
    cbn [max_freq last_publish_time set_last_publish_time
         set_last_publish_value fst snd app];
    rewrite (Qeq_bool_false (max_freq m) 0 Hf);
    match goal with
    | |- context [PrimFloat.leb ?a ?b] => destruct (PrimFloat.leb a b)
    end;
    cbn [max_freq last_publish_time set_last_publish_time
         set_last_publish_value fst snd app];
    repeat split; repeat constructor.
Qed.

Lemma feed_app {S E X : Type} (step : X -> Act S E unit)
    (xs ys : list X) (s : S) :
  feed step (xs ++ ys) s
  = ((feed step ys (feed step xs s).1).1,
     (feed step xs s).2 ++ (feed step ys (feed step xs s).1).2).
Proof.
  revert s; induction xs as [|x xs IH]; intros s; simpl.
  - destruct (feed step ys s); reflexivity.
  - rewrite IH. destruct (feed step xs (state_of (step x s))) as [s1 e1].
    simpl. rewrite app_assoc. reflexivity.
Qed.

(** One sample through [publish_data], when the rate limiter returns. *)
Lemma keypad_publish_data (m : KeypadMonitor) (c : clock) (data : report) :
  ~ (max_freq (keypad_base m) == 0)%Q ->
  let k := raw_key board_mapping (c, data) in
  let reset := if bool_decide (last_key m = k) then last_debounce_time m
               else report_time data in
  let debounced := if debounce_elapsed (report_time data) reset
                   then k else "" in
  let keypad := {| keypad_header := rospy_Time_now c; key := debounced |} in
  let sent := publish on_keypad c keypad (keypad_base m) in
  let r := KeypadMonitor.publish_data board_mapping c data m in
  result_of r = Return tt
  /\ state_of r = {| keypad_base := state_of sent;
                     last_debounce_time := reset;
                     last_key := k;
                     last_debounced_key := debounced |}
  /\ calls_of r
     = calls_of sent
       ++ (if negb (bool_decide (last_debounced_key m = ""))
              && negb (bool_decide (last_debounced_key m = debounced))
           then [on_keypad_pressed
                   {| keypad_header := rospy_Time_now c;
                      key := last_debounced_key m |}]
           else []).
Proof.
  intros Hf k reset debounced keypad sent r.
  subst r sent keypad debounced reset k.
  unfold KeypadMonitor.publish_data, raw_key.
  destruct m as [base ldt lk ldk]. cbn [keypad_base last_key
    last_debounce_time last_debounced_key fst snd] in *.
  cbv [bind get when ret modify zoom emit set_last_debounce_time
       set_keypad_base set_last_keys result_of state_of calls_of
       keypad_base last_key last_debounce_time last_debounced_key].
  destruct (bool_decide
              (lk = decode_key (mappings.get_adc_bits board_mapping)
                      (report_value data))); cbn [negb fst snd];
    match goal with
    | |- context [publish on_keypad c ?kp base] =>
        destruct (publish_returns on_keypad base c kp Hf) as (Hres & _ & _);
        unfold result_of in Hres;
        destruct (publish on_keypad c kp base) as [[res st] cs]
    end;
    cbn [fst snd] in *; subst res;
    match goal with
    | |- context [negb ?a && negb ?b] => destruct (negb a && negb b)
    end;
    cbn; rewrite ?app_nil_r; repeat split; reflexivity.
Qed.

Lemma keypad_after_snoc (s : sensor) (samples : list (clock * report))
    (x : clock * report) :
  keypad_after board_mapping s (samples ++ [x])
  = state_of (KeypadMonitor.publish_data board_mapping x.1 x.2
                (keypad_after board_mapping s samples)).
Proof.
  unfold keypad_after. rewrite feed_app. reflexivity.
Qed.

Lemma previous_raw_key_snoc (samples : list (clock * report))
    (x : clock * report) :
  previous_raw_key board_mapping (samples ++ [x]) = raw_key board_mapping x.
Proof. unfold previous_raw_key. rewrite last_snoc. reflexivity. Qed.

(** What the debouncer's state records about the samples it has seen. *)
Lemma keypad_invariant (s : sensor) (samples : list (clock * report)) :
  ~ (max_freq (keypad_base (KeypadMonitor_init s)) == 0)%Q ->
  let m := keypad_after board_mapping s samples in
  max_freq (keypad_base m) = max_freq (keypad_base (KeypadMonitor_init s))
  /\ last_key m = previous_raw_key board_mapping samples
  /\ (last_key m <> "" ->
      stable_since board_mapping samples (last_key m) (last_debounce_time m)).
Proof.
  intros Hf. induction samples as [|x samples IH] using rev_ind.
  - simpl. repeat split; try reflexivity. intros H; contradiction H; reflexivity.
  - destruct IH as (Hmf & Hlk & Hst).
    cbn zeta. rewrite keypad_after_snoc, previous_raw_key_snoc.
    set (m := keypad_after board_mapping s samples) in *.
    assert (Hf' : ~ (max_freq (keypad_base m) == 0)%Q) by (rewrite Hmf; exact Hf).
    destruct x as [c data].
    destruct (keypad_publish_data m c data Hf') as (_ & Hstate & _).
    cbn [fst snd]. rewrite Hstate. cbn [keypad_base last_key last_debounce_time].
    split; [|split; [reflexivity|]].
    + destruct (publish_returns on_keypad (keypad_base m) c
                  {| keypad_header := rospy_Time_now c;
                     key := if debounce_elapsed (report_time data)
                                 (if bool_decide
                                       (last_key m = raw_key board_mapping (c, data))
                                  then last_debounce_time m
                                  else report_time data)
                            then raw_key board_mapping (c, data) else "" |}
                  Hf') as (_ & _ & Hm).
      rewrite Hm. exact Hmf.
    + intros Hk. case_bool_decide as Heq.
      * rewrite <- Heq in Hk. destruct (Hst Hk) as (pre & run & first & -> & Ht & Hall).
        exists pre, (run ++ [(c, data)]), first. rewrite <- Heq.
        split; [rewrite <- app_assoc; reflexivity|]. split; [exact Ht|].
        rewrite app_comm_cons. apply Forall_app. split; [exact Hall|].
        constructor; [symmetry; exact Heq|constructor].
      * exists samples, [], (c, data). repeat split.
        constructor; [reflexivity|constructor].
Qed.


End KeypadFacts.


(** ** The display *)

Section OledFacts.

Lemma latched_refl (w : Oled * bus) : latched [] w w.
Proof.
  repeat split; auto. intros n [Hn|Hn]; [inversion Hn|lia].
Qed.

Lemma latched_trans (w1 w2 w3 : Oled * bus) :
  latched [] w1 w2 -> latched [] w2 w3 -> latched [] w1 w3.
Proof.
  intros (Ha & Hs & Hf & Hl) (Ha' & Hs' & Hf' & Hl').
  split; [congruence|]. split; [lia|]. split; [auto|].
  intros n [Hn|Hn] Hack; [inversion Hn|].
  destruct (Nat.lt_ge_cases n (sent w2.2)).
  - apply Hf', (Hl n); [right; lia|exact Hack].
  - apply (Hl' n); [right; lia|]. rewrite Ha. exact Hack.
Qed.

(** What starting a coroutine does. *)
Lemma begin_effect (c : Oled.coroutine) (w : Oled * bus) :
  let r := Oled.begin c w in
  same_panel w.1 (state_of r).1
  /\ failed (state_of r).1 = failed w.1
  /\ acks (state_of r).2 = acks w.2
  /\ schedule (state_of r).2 = schedule w.2
  /\ match result_of r with
     | Return (Some n) =>
         n = sent w.2 /\ sent (state_of r).2 = Datatypes.S (sent w.2)
         /\ (failed w.1 = false -> calls_of r = issue_of w.1 c)
     | _ =>
         sent (state_of r).2 = sent w.2 /\ calls_of r = []
         /\ (failed w.1 = false -> issue_of w.1 c = [])
     end.
Proof.
  destruct w as [o b]. destruct c as [cmd|i]; simpl.
  - cbv [Oled.begin self bind ret raise update store_cmd i2c_issue
         result_of state_of calls_of same_panel]. simpl.
    destruct (failed o) eqn:Hfail; simpl; [repeat split; auto; discriminate|].
    destruct ((0 <=? cmd) && (cmd <? 256)); simpl; rewrite ?Hfail;
      repeat split; auto.
  - cbv [Oled.begin self bind ret raise update i2c_issue
         result_of state_of calls_of same_panel]. simpl.
    destruct (slice (i * 16) ((i + 1) * 16 + 1) (buffer o)); simpl;
      repeat split; auto.
Qed.

(** What resuming a coroutine with the reply does. *)
Lemma resume_effect (c : Oled.coroutine) (n : nat) (w : Oled * bus) :
  let r := Oled.resume c n w in
  result_of r = Return tt /\ calls_of r = []
  /\ same_panel w.1 (state_of r).1
  /\ failed (state_of r).1 = failed w.1 || is_False (acks w.2 n)
  /\ (state_of r).2 = w.2.
Proof.
  destruct w as [o b].
  cbv [Oled.resume i2c_reply bind when ret update result_of state_of calls_of
       same_panel]. simpl.
  destruct (is_False (acks b n)); simpl;
    rewrite ?orb_true_r, ?orb_false_r; repeat split; auto.
Qed.

Lemma next_choice_eq (w : Oled * bus) :
  Oled.next_choice w = (Return (chosen w), popped w, []).
Proof.
  destruct w as [o [n a sch]]. unfold Oled.next_choice, chosen, popped. simpl.
  destruct sch; reflexivity.
Qed.

Lemma gather_loop_step (fuel : nat) (todo : list Oled.coroutine)
    (waiting : list (Oled.coroutine * nat)) (err : option exn)
    (w : Oled * bus) :
  Oled.gather_loop (Datatypes.S fuel) todo waiting err w
  = match Oled.pick (chosen w) todo waiting with
    | Oled.Begin c todo' =>
        let r1 := Oled.begin c (popped w) in
        let rest :=
          match result_of r1 with
          | Return (Some n) =>
              Oled.gather_loop fuel todo' (waiting ++ [(c, n)]) err
          | Return None => Oled.gather_loop fuel todo' waiting err
          | Raise e =>
              Oled.gather_loop fuel todo' waiting (Oled.first_exn err e)
          end (state_of r1) in
        (result_of rest, state_of rest, calls_of r1 ++ calls_of rest)
    | Oled.Continue c n waiting' =>
        let r1 := Oled.resume c n (popped w) in
        let rest := Oled.gather_loop fuel todo waiting' err (state_of r1) in
        (result_of rest, state_of rest, calls_of rest)
    | Oled.Finished => (Return err, popped w, [])
    end.
Proof.
  cbn [Oled.gather_loop]. unfold bind at 1. rewrite next_choice_eq.
  destruct (Oled.pick (chosen w) todo waiting) as [c todo'|c n waiting'|].
  - unfold bind, attempt, result_of, state_of, calls_of.
    destruct (Oled.begin c (popped w)) as [[[[n|]|e] w1] cs]; cbn;
      match goal with
      | |- context [Oled.gather_loop ?f ?t ?wt ?e ?x] =>
          destruct (Oled.gather_loop f t wt e x) as [[r2 w2] cs2]
      end; reflexivity.
  - pose proof (resume_effect c n (popped w)) as (Hr & Hc & _).
    unfold bind, attempt, result_of, state_of, calls_of in *.
    destruct (Oled.resume c n (popped w)) as [[res w1] cs]; cbn in *.
    subst res cs.
    destruct (Oled.gather_loop fuel todo waiting' err w1) as [[r2 w2] cs2].
    reflexivity.
  - reflexivity.
Qed.

Lemma pick_spec (ch : choice) (todo : list Oled.coroutine)
    (waiting : list (Oled.coroutine * nat)) :
  match Oled.pick ch todo waiting with
  | Oled.Begin c todo' => todo = c :: todo'
  | Oled.Continue c n waiting' =>
      exists k : nat, waiting !! k = Some (c, n) /\ waiting' = delete k waiting
  | Oled.Finished => todo = [] /\ waiting = []
  end.
Proof.
  unfold Oled.pick.
  assert (Hfallback :
    match match todo, waiting with
          | c :: todo', _ => Oled.Begin c todo'
          | [], (c, n) :: waiting' => Oled.Continue c n waiting'
          | [], [] => Oled.Finished
          end with
    | Oled.Begin c todo' => todo = c :: todo'
    | Oled.Continue c n waiting' =>
        exists k : nat, waiting !! k = Some (c, n) /\ waiting' = delete k waiting
    | Oled.Finished => todo = [] /\ waiting = []
    end).
  { destruct todo as [|c todo']; [|reflexivity].
    destruct waiting as [|[c n] waiting']; [split; reflexivity|].
    exists 0%nat. split; reflexivity. }
  destruct ch as [|k]; [exact Hfallback|].
  destruct (waiting !! k) as [[c n]|] eqn:Hk; [|exact Hfallback].
  exists k. split; [exact Hk|reflexivity].
Qed.

Lemma same_panel_refl (o : Oled) : same_panel o o.
Proof. repeat split. Qed.

Lemma same_panel_trans (o1 o2 o3 : Oled) :
  same_panel o1 o2 -> same_panel o2 o3 -> same_panel o1 o3.
Proof. unfold same_panel. intuition congruence. Qed.

Lemma issue_of_same_panel (o o' : Oled) (c : Oled.coroutine) :
  same_panel o o' -> issue_of o' c = issue_of o c.
Proof.
  intros (_ & _ & _ & Hp & Hb & _). unfold issue_of. rewrite Hp, Hb.
  reflexivity.
Qed.

Lemma elem_of_delete_snd (waiting : list (Oled.coroutine * nat)) (k x : nat)
    (c : Oled.coroutine) (n : nat) :
  waiting !! k = Some (c, n) -> x ∈ map snd waiting ->
  x = n \/ x ∈ map snd (delete k waiting).
Proof.
  revert k; induction waiting as [|[c0 n0] waiting IH]; intros k Hk Hx;
    [discriminate|].
  destruct k as [|k]; simpl in *.
  - injection Hk as -> ->. apply elem_of_cons in Hx. exact Hx.
  - apply elem_of_cons in Hx. destruct Hx as [->|Hx].
    + right. apply elem_of_cons. left. reflexivity.
    + destruct (IH k Hk Hx) as [->|Hin]; [left; reflexivity|].
      right. apply elem_of_cons. right. exact Hin.
Qed.

(** The batch, whatever the order in which the loop resumes its
    coroutines. *)
Lemma gather_loop_effect (fuel : nat) :
  forall (todo : list Oled.coroutine) (waiting : list (Oled.coroutine * nat))
         (err : option exn) (w : Oled * bus),
    (2 * length todo + length waiting <= fuel)%nat ->
    let r := Oled.gather_loop fuel todo waiting err w in
    same_panel w.1 (state_of r).1
    /\ latched (map snd waiting) w (state_of r)
    /\ (failed w.1 = false -> (forall n, acks w.2 n <> Some false) ->
        calls_of r = flat_map (issue_of w.1) todo
        /\ failed (state_of r).1 = false).
Proof.
  induction fuel as [|fuel IH]; intros todo waiting err w Hfuel.
  - destruct todo; [|simpl in Hfuel; lia].
    destruct waiting; [|simpl in Hfuel; lia].
    simpl. split; [apply same_panel_refl|]. split; [apply latched_refl|].
    intros Hf _. split; [reflexivity|exact Hf].
  - cbv zeta. rewrite gather_loop_step.
    pose proof (pick_spec (chosen w) todo waiting) as Hpick.
    destruct (Oled.pick (chosen w) todo waiting) as [c todo'|c n waiting'|].
    + subst todo. simpl in Hfuel.
      pose proof (begin_effect c (popped w)) as (Hsp & Hfl & Hak & _ & Hres).
      cbn zeta in *.
      set (r1 := Oled.begin c (popped w)) in *.
      destruct (result_of r1) as [[n|]|e].
      * destruct Hres as (Hn & Hsent & Hcalls).
        specialize (IH todo' (waiting ++ [(c, n)]) err (state_of r1)).
        rewrite length_app in IH. simpl in IH.
        specialize (IH ltac:(lia)). cbv zeta in IH.
        set (r2 := Oled.gather_loop fuel todo' (waiting ++ [(c, n)]) err
                     (state_of r1)) in *.
        destruct IH as (Hsp2 & (Ha2 & Hs2 & Hf2 & Hl2) & Hc2).
        unfold state_of at 1 2 3, calls_of at 1. cbn [fst snd].
        split; [exact (same_panel_trans _ _ _ Hsp Hsp2)|]. split.
        { simpl in *. split; [congruence|]. split; [lia|].
          split; [intros Hx; apply Hf2; congruence|].
          intros x Hx Hack. apply (Hl2 x); [|congruence].
          rewrite map_app. simpl.
          destruct Hx as [Hx|Hx].
          - left. apply elem_of_app. left. exact Hx.
          - destruct (Nat.eq_dec x n) as [->|Hne].
            + left. apply elem_of_app. right. apply list_elem_of_singleton.
              reflexivity.
            + right. lia. }
        { intros Hf Hno. simpl in *.
          destruct Hc2 as [Hc2 Hf3]; [congruence|intros x; rewrite Hak; apply Hno|].
          split; [|exact Hf3].
          rewrite (Hcalls Hf), Hc2.
          f_equal. apply flat_map_ext. intros a.
          apply issue_of_same_panel. exact Hsp. }
      * destruct Hres as (Hsent & Hcalls & Hnone).
        specialize (IH todo' waiting err (state_of r1) ltac:(lia)).
        cbv zeta in IH.
        set (r2 := Oled.gather_loop fuel todo' waiting err (state_of r1)) in *.
        destruct IH as (Hsp2 & (Ha2 & Hs2 & Hf2 & Hl2) & Hc2).
        unfold state_of at 1 2 3, calls_of at 1. cbn [fst snd].
        split; [exact (same_panel_trans _ _ _ Hsp Hsp2)|]. split.
        { simpl in *. split; [congruence|]. split; [lia|].
          split; [intros Hx; apply Hf2; congruence|].
          intros x Hx Hack. apply (Hl2 x); [|congruence].
          destruct Hx as [Hx|Hx]; [left; exact Hx|right; lia]. }
        { intros Hf Hno. simpl in *.
          destruct Hc2 as [Hc2 Hf3]; [congruence|intros x; rewrite Hak; apply Hno|].
          split; [|exact Hf3].
          rewrite Hcalls, (Hnone Hf), Hc2. simpl.
          apply flat_map_ext. intros a.
          apply issue_of_same_panel. exact Hsp. }
      * destruct Hres as (Hsent & Hcalls & Hnone).
        specialize (IH todo' waiting (Oled.first_exn err e) (state_of r1)
                       ltac:(lia)).
        cbv zeta in IH.
        set (r2 := Oled.gather_loop fuel todo' waiting (Oled.first_exn err e)
                     (state_of r1)) in *.
        destruct IH as (Hsp2 & (Ha2 & Hs2 & Hf2 & Hl2) & Hc2).
        unfold state_of at 1 2 3, calls_of at 1. cbn [fst snd].
        split; [exact (same_panel_trans _ _ _ Hsp Hsp2)|]. split.
        { simpl in *. split; [congruence|]. split; [lia|].
          split; [intros Hx; apply Hf2; congruence|].
          intros x Hx Hack. apply (Hl2 x); [|congruence].
          destruct Hx as [Hx|Hx]; [left; exact Hx|right; lia]. }
        { intros Hf Hno. simpl in *.
          destruct Hc2 as [Hc2 Hf3]; [congruence|intros x; rewrite Hak; apply Hno|].
          split; [|exact Hf3].
          rewrite Hcalls, (Hnone Hf), Hc2. simpl.
          apply flat_map_ext. intros a.
          apply issue_of_same_panel. exact Hsp. }
    + destruct Hpick as (k & Hk & ->).
      pose proof (resume_effect c n (popped w)) as (_ & _ & Hsp & Hfl & Hbus).
      cbn zeta in *.
      set (r1 := Oled.resume c n (popped w)) in *.
      assert (Hlen : (length (delete k waiting) < length waiting)%nat).
      { rewrite length_delete by (eexists; exact Hk). 
        apply lookup_lt_Some in Hk. lia. }
      specialize (IH todo (delete k waiting) err (state_of r1) ltac:(lia)).
      cbv zeta in IH.
      set (r2 := Oled.gather_loop fuel todo (delete k waiting) err
                   (state_of r1)) in *.
      destruct IH as (Hsp2 & (Ha2 & Hs2 & Hf2 & Hl2) & Hc2).
      unfold state_of at 1 2 3, calls_of at 1. cbn [fst snd].
      split; [exact (same_panel_trans _ _ _ Hsp Hsp2)|]. split.
      { rewrite Hbus in *. simpl in *. split; [congruence|]. split; [lia|].
        split; [intros Hx; apply Hf2; rewrite Hfl, Hx; reflexivity|].
        intros x Hx Hack.
        destruct Hx as [Hx|Hx].
        - destruct (elem_of_delete_snd waiting k x c n Hk Hx) as [->|Hin].
          + apply Hf2. rewrite Hfl, Hack. apply orb_true_r.
          + apply (Hl2 x); [left; exact Hin|exact Hack].
        - apply (Hl2 x); [right; exact Hx|exact Hack]. }
      { intros Hf Hno. rewrite Hbus in *. simpl in *.
        assert (Hf1 : failed (state_of r1).1 = false).
        { rewrite Hfl, Hf. simpl. specialize (Hno n).
          destruct (acks w.2 n) as [[|]|]; try reflexivity. contradiction. }
        destruct (Hc2 Hf1 Hno) as [Hc3 Hf3].
        split; [|exact Hf3]. rewrite Hc3.
        apply flat_map_ext. intros a.
        apply issue_of_same_panel. exact Hsp. }
    + destruct Hpick as [-> ->]. simpl.
      split; [apply same_panel_refl|]. split.
      { repeat split; simpl; auto. intros x [Hx|Hx]; [inversion Hx|lia]. }
      { intros Hf _. split; [reflexivity|exact Hf]. }
Qed.

Lemma quiet_latch_bind {A B : Type} (c : OledAct A) (k : A -> OledAct B) :
  quiet_latch c -> (forall a, quiet_latch (k a)) -> quiet_latch (bind c k).
Proof.
  intros Hc Hk w. specialize (Hc w). unfold bind, state_of, calls_of in *.
  destruct (c w) as [[[a|e] w1] l1]; cbn [fst snd] in *; [|exact Hc].
  specialize (Hk a w1). unfold state_of, calls_of in Hk.
  destruct (k a w1) as [[r2 w2] l2]. cbn [fst snd] in *.
  destruct Hc as [Hl1 Hq1], Hk as [Hl2 Hq2].
  split; [exact (latched_trans _ _ _ Hl1 Hl2)|].
  intros Hf. rewrite (Hq1 Hf). apply Hq2.
  destruct Hl1 as (_ & _ & Hm & _). exact (Hm Hf).
Qed.

Lemma quiet_latch_catch {A : Type} (c : OledAct A) (h : exn -> OledAct A) :
  quiet_latch c -> (forall e, quiet_latch (h e)) -> quiet_latch (catch c h).
Proof.
  intros Hc Hh w. specialize (Hc w). unfold catch, state_of, calls_of in *.
  destruct (c w) as [[[a|e] w1] l1]; cbn [fst snd] in *; [exact Hc|].
  specialize (Hh e w1). unfold state_of, calls_of in Hh.
  destruct (h e w1) as [[r2 w2] l2]. cbn [fst snd] in *.
  destruct Hc as [Hl1 Hq1], Hh as [Hl2 Hq2].
  split; [exact (latched_trans _ _ _ Hl1 Hl2)|].
  intros Hf. rewrite (Hq1 Hf). apply Hq2.
  destruct Hl1 as (_ & _ & Hm & _). exact (Hm Hf).
Qed.

Lemma quiet_latch_ret {A : Type} (a : A) : quiet_latch (ret a).
Proof. intros w. split; [apply latched_refl|reflexivity]. Qed.

Lemma quiet_latch_raise {A : Type} (e : exn) : quiet_latch (@raise _ _ A e).
Proof. intros w. split; [apply latched_refl|reflexivity]. Qed.

Lemma quiet_latch_self : quiet_latch self.
Proof. intros w. split; [apply latched_refl|reflexivity]. Qed.

Lemma quiet_latch_when (b : bool) (c : OledAct unit) :
  quiet_latch c -> quiet_latch (when b c).
Proof. destruct b; [auto|intros _; apply quiet_latch_ret]. Qed.

Lemma quiet_latch_set_buffer (l : list Z) : quiet_latch (update (set_buffer l)).
Proof.
  intros [o b]. split; [|reflexivity].
  repeat split; simpl; auto. intros n [Hn|Hn]; [inversion Hn|lia].
Qed.

Lemma gather_effect (cs : list Oled.coroutine) (w : Oled * bus) :
  state_of (Oled.gather cs w)
  = state_of (Oled.gather_loop (2 * length cs) cs [] None w)
  /\ calls_of (Oled.gather cs w)
     = calls_of (Oled.gather_loop (2 * length cs) cs [] None w).
Proof.
  unfold Oled.gather, bind, state_of, calls_of.
  destruct (Oled.gather_loop (2 * length cs) cs [] None w)
    as [[[[e|]|e] w1] l1]; cbn; rewrite ?app_nil_r; split; reflexivity.
Qed.

(** A flush: the result, the latch, and the transactions when no failure is
    reported. *)
Lemma show_async_effect (w : Oled * bus) :
  let r := Oled.show_async w in
  let batch :=
    [Oled.write_cmd_async 33;
     Oled.write_cmd_async (Oled.xpos w.1).1;
     Oled.write_cmd_async (Oled.xpos w.1).2;
     Oled.write_cmd_async 34;
     Oled.write_cmd_async 0;
     Oled.write_cmd_async (pages w.1 - 1)] ++ map Oled.task (seq 0 64) in
  result_of r = Return tt
  /\ latched [] w (state_of r)
  /\ (failed w.1 = true -> r = (Return tt, w, []))
  /\ (failed w.1 = false -> (forall n, acks w.2 n <> Some false) ->
      calls_of r = flat_map (issue_of w.1) batch
      /\ failed (state_of r).1 = false).
Proof.
  intros r batch. subst r.
  unfold Oled.show_async, Oled.write_framebuf_async.
  cbv [bind self catch ret raise]. cbn [fst snd].
  destruct (failed w.1) eqn:Hf.
  - cbn. split; [reflexivity|]. split; [apply latched_refl|].
    split; [reflexivity|discriminate].
  - fold batch.
    pose proof (gather_effect batch w) as [Hst Hcs].
    pose proof (gather_loop_effect (2 * length batch) batch [] None w
                  ltac:(simpl; lia)) as (_ & Hl & Hc).
    cbv zeta in Hl, Hc. rewrite <- Hst in Hl, Hc. rewrite <- Hcs in Hc.
    unfold result_of, state_of, calls_of in *.
    destruct (Oled.gather batch w) as [[[[]|e] w1] l1]; cbn [fst snd] in *;
      rewrite ?app_nil_r; cbn [app];
      (split; [reflexivity|]); (split; [exact Hl|]);
      (split; [discriminate|]); intros _ Hno; exact (Hc Hf Hno).
Qed.

Lemma quiet_latch_show_async : quiet_latch Oled.show_async.
Proof.
  intros w. destruct (show_async_effect w) as (_ & Hl & Hq & _).
  split; [exact Hl|]. intros Hf. rewrite (Hq Hf). reflexivity.
Qed.

Lemma quiet_latch_image (img : list Z) : quiet_latch (Oled.image img).
Proof.
  unfold Oled.image. apply quiet_latch_bind; [apply quiet_latch_self|].
  intros o. destruct (bool_decide _);
    [apply quiet_latch_set_buffer|apply quiet_latch_raise].
Qed.

Lemma quiet_latch_show_png (file : outcome (list Z)) :
  quiet_latch (Oled.show_png file).
Proof.
  destruct file as [img|e]; [|apply quiet_latch_raise].
  apply quiet_latch_bind; [apply quiet_latch_image|].
  intros _. apply quiet_latch_show_async.
Qed.

Lemma quiet_latch_show_all (files : list (outcome (list Z))) :
  quiet_latch (Oled.show_all files).
Proof.
  induction files as [|f rest IH]; [apply quiet_latch_ret|].
  apply quiet_latch_bind; [apply quiet_latch_show_png|]. intros _. exact IH.
Qed.

Lemma quiet_latch_service_async (req : SetOLEDImage) :
  quiet_latch (Oled.set_oled_image_service_async req).
Proof.
  unfold Oled.set_oled_image_service_async.
  apply quiet_latch_bind.
  { apply quiet_latch_when. destruct (bitmaps req) as [|[img|e] ?];
      [apply quiet_latch_raise| |apply quiet_latch_raise].
    apply quiet_latch_bind; [apply quiet_latch_image|].
    intros _. apply quiet_latch_show_async. }
  intros _. apply quiet_latch_bind.
  { apply quiet_latch_when. destruct (bitmaps req) as [|f ?];
      [apply quiet_latch_raise|apply quiet_latch_show_png]. }
  intros _. apply quiet_latch_when, quiet_latch_show_all.
Qed.

Lemma quiet_latch_service (req : SetOLEDImage) :
  quiet_latch (Oled.set_oled_image_service req).
Proof.
  unfold Oled.set_oled_image_service.
  apply quiet_latch_bind; [apply quiet_latch_self|]. intros o.
  destruct (failed o); [apply quiet_latch_ret|].
  apply quiet_latch_bind; [|intros _; apply quiet_latch_ret].
  apply quiet_latch_catch; [apply quiet_latch_service_async|].
  intros _. apply quiet_latch_ret.
Qed.

Lemma service_failed (req : SetOLEDImage) (w : Oled * bus) :
  failed w.1 = true ->
  Oled.set_oled_image_service req w = (Return false, w, []).
Proof.
  intros Hf. unfold Oled.set_oled_image_service, bind, self. cbn [fst snd].
  rewrite Hf. reflexivity.
Qed.

Lemma serve_failed (reqs : list SetOLEDImage) (w : Oled * bus) :
  failed w.1 = true ->
  serve reqs w = (map (fun _ => false) reqs, w, []).
Proof.
  intros Hf. induction reqs as [|req rest IH]; [reflexivity|].
  simpl. rewrite (service_failed req w Hf).
  unfold state_of, result_of, calls_of. cbn [fst snd]. rewrite IH.
  reflexivity.
Qed.

Lemma start_loop_latched (cmds : list (list Z)) (w : Oled * bus) :
  latched [] w (state_of (Oled.start_loop cmds w)).
Proof.
  revert w; induction cmds as [|cmd rest IH]; intros w;
    [apply latched_refl|].
  destruct w as [o b]. cbn [Oled.start_loop].
  cbv [bind i2c_issue i2c_reply update ret state_of]. cbn.
  destruct (is_False (acks b (sent b))) eqn:Hack.
  - cbn. unfold latched. simpl.
    split; [reflexivity|]. split; [lia|]. split; intros; reflexivity.
  - match goal with
    | |- context [Oled.start_loop rest ?x] =>
        specialize (IH x); unfold state_of in IH;
        destruct (Oled.start_loop rest x) as [[r2 w2] l2]
    end.
    cbn [fst snd] in *. destruct IH as (Ha & Hs & Hf & Hl). simpl in *.
    unfold latched. simpl.
    split; [exact Ha|]. split; [lia|]. split; [exact Hf|].
    intros n [Hn|Hn] Hn'; [inversion Hn|].
    destruct (Nat.eq_dec n (sent b)) as [->|Hne].
    + rewrite Hn' in Hack. discriminate.
    + apply (Hl n); [right; lia|exact Hn'].
Qed.

Lemma start_latched (w : Oled * bus) :
  latched [] w (state_of (Oled.start w)).
Proof.
  unfold Oled.start, bind, self, emit, state_of. cbn [fst snd].
  pose proof (start_loop_latched (write_commands w.1) w) as H.
  unfold state_of in H.
  destruct w as [o b]. cbn [fst snd] in *.
  destruct (Oled.start_loop (write_commands o) (o, b)) as [[r2 w2] l2].
  exact H.
Qed.

Lemma perform_latched (op : operation) (w : Oled * bus) :
  latched [] w (perform op w).
Proof.
  destruct op as [| |req]; simpl.
  - apply start_latched.
  - apply quiet_latch_show_async.
  - apply quiet_latch_service.
Qed.

(** C4.  Whatever operation of the display is running ([start], a flush, a
    service call), once the board answers [False] to a transaction that the
    operation sent, the display leaves the operation with [failed] set; from
    then on every service call answers [False], changes nothing and sends
    nothing, and so does every flush. *)
Theorem oled_failure_latches (op : operation) (w : Oled * bus) (n : nat) :
  let w' := perform op w in
  (sent w.2 <= n < sent w'.2)%nat -> acks w.2 n = Some false ->
  failed w'.1 = true
  /\ (forall reqs : list SetOLEDImage,
        serve reqs w' = (map (fun _ => false) reqs, w', []))
  /\ (forall req : SetOLEDImage,
        Oled.set_oled_image_service req w' = (Return false, w', []))
  /\ Oled.show_async w' = (Return tt, w', []).
Proof.
  intros w' Hn Hack.
  destruct (perform_latched op w) as (_ & _ & _ & Hl). fold w' in Hl.
  assert (Hf : failed w'.1 = true) by (apply (Hl n); [right; exact Hn|exact Hack]).
  split; [exact Hf|]. split; [|split].
  - intros reqs. apply serve_failed, Hf.
  - intros req. apply service_failed, Hf.
  - destruct (show_async_effect w') as (_ & _ & Hq & _). exact (Hq Hf).
Qed.

Lemma issue_of_task (o : Oled) (i : nat) :
  length (buffer o) = 1025%nat -> (i < 64)%nat ->
  issue_of o (Oled.task i)
  = [i2c_write 60 (64 :: slice (16 * i) (16 * i + 16) (drop 1 (buffer o)))
       (i2c_port o)].
Proof.
  intros Hlen Hi. unfold issue_of, slice.
  replace ((i + 1) * 16 + 1 - i * 16)%nat with 17%nat by lia.
  replace (16 * i + 16 - 16 * i)%nat with 16%nat by lia.
  rewrite drop_drop. replace (1 + 16 * i)%nat with (Datatypes.S (i * 16)) by lia.
  destruct (drop (i * 16) (buffer o)) as [|x l] eqn:Hd.
  - apply (f_equal length) in Hd. rewrite length_drop in Hd. simpl in Hd. lia.
  - assert (Hl : drop (Datatypes.S (i * 16)) (buffer o) = l).
    { replace (Datatypes.S (i * 16)) with (i * 16 + 1)%nat by lia.
      rewrite <- drop_drop, Hd. reflexivity. }
    rewrite Hl. reflexivity.
Qed.

Lemma chunks_cover {A : Type} (l : list A) (n : nat) :
  concat (map (fun i => slice (16 * i) (16 * i + 16) l) (seq 0 n))
  = take (16 * n) l.
Proof.
  induction n as [|n IH]; [reflexivity|].
  rewrite seq_S, map_app, concat_app, IH. simpl. rewrite app_nil_r.
  unfold slice. replace (16 * n + 16 - 16 * n)%nat with 16%nat by lia.
  rewrite take_take_drop. f_equal. lia.
Qed.

Lemma flat_map_tasks (o : Oled) (l : list nat) :
  length (buffer o) = 1025%nat -> Forall (fun i => (i < 64)%nat) l ->
  flat_map (issue_of o) (map Oled.task l)
  = map (fun i => i2c_write 60
                    (64 :: slice (16 * i) (16 * i + 16) (drop 1 (buffer o)))
                    (i2c_port o)) l.
Proof.
  intros Hlen Hall. induction Hall as [|i l Hi _ IH]; [reflexivity|].
  cbn [flat_map map]. rewrite IH, (issue_of_task o i Hlen Hi). reflexivity.
Qed.

(** C8.  A flush of the 128 x 64 display (the one the program creates:
    width 128, 8 pages, a buffer of 1 + 1024 bytes) on which no failure is
    reported, in whatever order the loop resumes the batch: the transactions
    are the six commands of the addressing window (0x21, 0, 127, 0x22, 0, 7),
    each after the command marker 0x80, and then 64 chunks, each the data
    marker 0x40 and 16 bytes of the frame buffer.  64 is
    [ceil(1024 / 16)], and the chunks, in order, are the frame buffer. *)
Theorem oled_flush_transactions (o : Oled) (b : bus) :
  width o = 128 -> pages o = 8 -> length (buffer o) = 1025%nat ->
  failed o = false -> (forall n, acks b n <> Some false) ->
  let framebuffer := drop 1 (buffer o) in
  let chunk := fun i : nat => slice (16 * i) (16 * i + 16) framebuffer in
  let r := Oled.show_async (o, b) in
  calls_of r
  = map (fun cmd => i2c_write 60 [128; cmd] (i2c_port o))
      [33; 0; 127; 34; 0; 7]
    ++ map (fun i => i2c_write 60 (64 :: chunk i) (i2c_port o)) (seq 0 64)
  /\ ((length framebuffer + (16 - 1)) / 16)%nat = 64%nat
  /\ Forall (fun i => length (chunk i) = 16%nat) (seq 0 64)
  /\ concat (map chunk (seq 0 64)) = framebuffer
  /\ failed (state_of r).1 = false.
Proof.
  intros Hw Hp Hlen Hf Hno framebuffer chunk r.
  assert (Hfb : length framebuffer = 1024%nat).
  { unfold framebuffer. rewrite length_drop, Hlen. reflexivity. }
  destruct (show_async_effect (o, b)) as (_ & _ & _ & Hc).
  destruct (Hc Hf Hno) as [Hcalls Hfailed]. fold r in Hcalls, Hfailed.
  split; [|split; [|split; [|split]]].
  - rewrite Hcalls. cbn [fst]. rewrite flat_map_app.
    rewrite (flat_map_tasks o (seq 0 64) Hlen).
    + unfold Oled.xpos. rewrite Hw, Hp. reflexivity.
    + apply Forall_forall. intros i Hi. apply elem_of_seq in Hi. lia.
  - rewrite Hfb. reflexivity.
  - apply Forall_forall. intros i Hi. apply elem_of_seq in Hi.
    unfold chunk, slice. rewrite length_take, length_drop, Hfb. lia.
  - unfold chunk. rewrite chunks_cover. apply take_ge. rewrite Hfb. lia.
  - exact Hfailed.
Qed.

End OledFacts.

Lemma oled_failure_latches_witness :
  failed (perform do_show_async (sample_display, failing_bus)).1 = true.
Proof.
  refine (proj1 (oled_failure_latches do_show_async
                   (sample_display, failing_bus) 3 _ _));
    [vm_compute; lia | reflexivity].
Defined.

Lemma oled_flush_transactions_witness :
  length (calls_of (Oled.show_async (sample_display, silent_bus))) = 70%nat.
Proof.
  destruct (oled_flush_transactions sample_display silent_bus)
    as (Hcalls & _);
    [reflexivity | reflexivity | reflexivity | reflexivity
    | intros n; discriminate | ].
  rewrite Hcalls. reflexivity.
Defined.

(** ** The on-demand pin read *)

Section PinFacts.
Variable board_mapping : mappings.t.

(** Reports of other pins leave the pin absent. *)
Lemma deliver_absent (rs : list report) (pin : Z) (pin_values : gmap Z Z) :
  pin_values !! pin = None ->
  Forall (fun r => (if report_type r =? 3
                    then report_pin r + mappings.get_analog_offset board_mapping
                    else report_pin r) <> pin) rs ->
  exists pin_values' : gmap Z Z,
    deliver board_mapping rs pin_values = (Return tt, pin_values', [])
    /\ pin_values' !! pin = None.
Proof.
  intros Hnone Hall. revert pin_values Hnone.
  induction Hall as [|r rs Hr _ IH]; intros pin_values Hnone;
    [exists pin_values; split; [reflexivity|exact Hnone]|].
  cbn [deliver]. unfold bind, data_callback, modify.
  match goal with
  | |- context [deliver board_mapping rs ?m] =>
      destruct (IH m) as (pv' & Heq & Hn);
      [rewrite lookup_insert_ne by exact Hr; exact Hnone|];
      rewrite Heq
  end.
  exists pv'. split; [reflexivity|exact Hn].
Qed.

(** While the pin does not report, the polling loop leaves it absent. *)
Lemma poll_absent (ticks : list tick) (pin : Z) (start_time : Q)
    (pin_values : gmap Z Z) :
  pin_values !! pin = None ->
  Forall (fun tk =>
            Forall (fun r => (if report_type r =? 3
                              then report_pin r
                                   + mappings.get_analog_offset board_mapping
                              else report_pin r) <> pin) (arrivals tk)) ticks ->
  exists pin_values' : gmap Z Z,
    poll board_mapping pin start_time ticks pin_values
    = (Return tt, pin_values', [])
    /\ pin_values' !! pin = None.
Proof.
  intros Hnone Hall. revert pin_values Hnone.
  induction Hall as [|tk ticks Htk _ IH]; intros pin_values Hnone;
    [exists pin_values; split; [reflexivity|exact Hnone]|].
  cbn [poll]. unfold bind at 1, get at 1.
  destruct (negb _ && _);
    [|exists pin_values; split; [reflexivity|exact Hnone]].
  destruct (deliver_absent (arrivals tk) pin pin_values Hnone Htk)
    as (pv1 & Hd & Hdn).
  unfold bind. rewrite Hd.
  destruct (IH _ Hdn) as (pv2 & Hp & Hpn). rewrite Hp.
  exists pv2. split; [reflexivity|exact Hpn].
Qed.

(** A read of a pin that never reports raises [KeyError]: the sentinel of
    the timeout branch is overwritten by a second [pin_values[pin]]. *)
Lemma get_pin_value_never_reported (req : GetPinValue) (start_time : Q)
    (ticks : list tick) (pin_values : gmap Z Z) :
  pin_values !! get_pin req = None ->
  Forall (fun tk =>
            Forall (fun r => (if report_type r =? 3
                              then report_pin r
                                   + mappings.get_analog_offset board_mapping
                              else report_pin r) <> get_pin req)
              (arrivals tk)) ticks ->
  result_of (handle_get_pin_value board_mapping req start_time ticks pin_values)
  = Raise KeyError.
Proof.
  intros Hnone Hall.
  unfold handle_get_pin_value, result_of.
  unfold bind at 1, get at 1. unfold bind at 1.
  match goal with
  | |- context [when ?b ?c pin_values] =>
      assert (Hw : exists l, when b c pin_values = (Return tt, pin_values, l))
  end.
  { rewrite Hnone. cbn. unfold bind, when, emit, ret.
    destruct (bool_decide (get_type req = "analog")),
      (bool_decide (get_type req = "digital")); cbn; eexists; reflexivity. }
  destruct Hw as [l ->].
  destruct (poll_absent ticks (get_pin req) start_time pin_values Hnone Hall)
    as (pv' & Hp & Hpn).
  unfold bind at 1. rewrite Hp.
  unfold bind, get, ret, subscript. rewrite Hpn.
  reflexivity.
Qed.

End PinFacts.

(** C3 (the code departs from it).  A digital read of pin 5, which has no
    value yet and never reports during the five seconds: the service does
    not return [-1], it raises [KeyError]. *)
Theorem get_pin_value_timeout_raises :
  handle_get_pin_value sample_mapping {| get_pin := 5; get_type := "digital" |}
    0 [ {| tick_time := 1; arrivals := [] |};
        {| tick_time := 3; arrivals := [] |};
        {| tick_time := 6; arrivals := [] |} ] ∅
  = (Raise KeyError, ∅, [board.set_pin_mode_digital_input 5]).
Proof. vm_compute. reflexivity. Qed.

(** * Further properties *)

(** ** Motors *)

Section MoreMotorFacts.
Variable board_mapping : mappings.t.

(** What one effective [set_speed] of the PP driver does when the two pins
    are configured. *)
Lemma pp_set_speed_calls (m : Motor) (speed p1 p2 : Z) :
  pins m !! "p1" = Some p1 -> pins m !! "p2" = Some p2 ->
  prev_motor_speed m <> speed ->
  PPMotor.set_speed board_mapping speed m
  = (Return tt,
     set_prev_motor_speed speed
       (if (speed =? 0) || initialized m then m else set_initialized true m),
     if speed =? 0 then
       [pwm_write_call board_mapping p2 0; pwm_write_call board_mapping p1 0]
     else if 0 <? speed then
       (if initialized m then []
        else [pwm_mode_call board_mapping p2; pwm_mode_call board_mapping p1])
       ++ [pwm_write_call board_mapping p2 0;
           pwm_write_call board_mapping p1
             (scaled_pwm (mappings.get_max_pwm_value board_mapping) speed)]
     else
       (if initialized m then []
        else [pwm_mode_call board_mapping p1; pwm_mode_call board_mapping p2])
       ++ [pwm_write_call board_mapping p1 0;
           pwm_write_call board_mapping p2
             (scaled_pwm (mappings.get_max_pwm_value board_mapping)
                (- speed))]).
Proof.
  destruct m as [ps nm prev ini]. simpl. intros H1 H2 Hne.
  cbv [PPMotor.set_speed PPMotor.init_motors pin subscript bind get when ret
       raise emit modify calls_of set_pin_mode_analog_output analog_write
       set_initialized set_prev_motor_speed
       pins initialized prev_motor_speed negb].
  destruct (Z.eqb_spec prev speed) as [|_]; [contradiction|].
  destruct (Z.eqb_spec speed 0) as [Hz|Hz];
    [|destruct (Z.ltb_spec 0 speed) as [Hs|Hs];
      destruct (Z.ltb_spec speed 0); try lia];
    destruct ini;
    repeat (progress (cbn; rewrite ?H1, ?H2));
    reflexivity.
Qed.

Lemma pp_set_speed_pins (m : Motor) (speed : Z) :
  pins (state_of (PPMotor.set_speed board_mapping speed m)) = pins m.
Proof.
  destruct m as [ps nm prev ini].
  cbv [PPMotor.set_speed PPMotor.init_motors pin subscript bind get when ret
       raise emit modify state_of set_pin_mode_analog_output analog_write
       set_initialized set_prev_motor_speed
       pins initialized prev_motor_speed negb].
  destruct (prev =? speed); [reflexivity|].
  destruct ini, (speed =? 0), (0 <? speed), (speed <? 0);
    repeat (match goal with
            | |- context [ps !! ?k] => destruct (ps !! k)
            end; cbn);
    reflexivity.
Qed.

Lemma pp_set_speed_safe (m : Motor) (speed p1 p2 : Z) (lv : gmap Z Z) :
  pins m !! "p1" = Some p1 -> pins m !! "p2" = Some p2 -> p1 <> p2 ->
  not_both_high p1 p2 lv ->
  let cs := calls_of (PPMotor.set_speed board_mapping speed m) in
  Forall (not_both_high p1 p2) (board.observe lv cs)
  /\ not_both_high p1 p2 (settle lv cs).
Proof.
  intros H1 H2 N Hlv cs. subst cs.
  destruct (Z.eq_dec (prev_motor_speed m) speed) as [<-|Hne].
  { rewrite pp_same_speed. split; [constructor|exact Hlv]. }
  rewrite (pp_set_speed_calls m speed p1 p2 H1 H2 Hne).
  unfold calls_of, pwm_mode_call, pwm_write_call, not_both_high in *. simpl.
  destruct (initialized m), (speed =? 0), (0 <? speed),
    (bool_decide (mappings.get_mcu board_mapping = "pico"));
    cbn [app board.observe settle fold_left board.apply];
    repeat first [apply Forall_cons_2 | apply Forall_nil_2 | split];
    rewrite ?is_high_insert;
    repeat (case_decide; try congruence);
    try reflexivity; try exact Hlv;
    rewrite ?andb_false_r; reflexivity.
Qed.

(** X1.  PP motor with two distinct pins that are not both driven to begin
    with: during any sequence of [set_speed] calls the two PWM pins are
    never both at a non-zero duty, since each call zeroes the pin of the
    other direction first. *)
Theorem pp_never_both_driven (m : Motor) (p1 p2 : Z) (speeds : list Z)
    (lv : gmap Z Z) :
  pins m !! "p1" = Some p1 -> pins m !! "p2" = Some p2 -> p1 <> p2 ->
  not_both_high p1 p2 lv ->
  Forall (not_both_high p1 p2)
    (board.observe lv (drive (PPMotor.set_speed board_mapping) speeds m).2).
Proof.
  intros H1 H2 N. revert m lv H1 H2.
  induction speeds as [|v rest IH]; intros m lv H1 H2 Hlv; [constructor|].
  simpl.
  destruct (pp_set_speed_safe m v p1 p2 lv H1 H2 N Hlv) as [Hobs Hend].
  pose proof (pp_set_speed_pins m v) as Hp.
  specialize (IH (state_of (PPMotor.set_speed board_mapping v m))
                 (settle lv (calls_of (PPMotor.set_speed board_mapping v m)))).
  rewrite Hp in IH. specialize (IH H1 H2 Hend).
  destruct (drive (PPMotor.set_speed board_mapping) rest
              (state_of (PPMotor.set_speed board_mapping v m))) as [m' cs].
  simpl in *. rewrite observe_app. apply Forall_app. split; assumption.
Qed.

End MoreMotorFacts.

Lemma pp_never_both_driven_witness :
  Forall (not_both_high 5 6)
    (board.observe ∅
       (drive (PPMotor.set_speed sample_mapping) [40; -40; 0; -100]
          (Motor_init sample_pins "left")).2).
Proof.
  apply (pp_never_both_driven sample_mapping (Motor_init sample_pins "left")
           5 6);
    [vm_compute; reflexivity | vm_compute; reflexivity | lia | reflexivity].
Defined.

Section MotorInterfaces.
Variable board_mapping : mappings.t.

Lemma set_speed_same (ty : motor_type) (m : Motor) :
  set_speed board_mapping ty (prev_motor_speed m) m = (Return tt, m, []).
Proof.
  destruct ty; simpl;
    [apply ddp_same_speed | apply dp_same_speed | apply pp_same_speed].
Qed.

(** Once initialized, no driver sets a pin mode again. *)
Lemma initialized_no_pin_mode (ty : motor_type) (m : Motor) (speed : Z) :
  initialized m = true ->
  List.filter board.is_pin_mode
    (calls_of (set_speed board_mapping ty speed m)) = []
  /\ initialized (state_of (set_speed board_mapping ty speed m)) = true.
Proof.
  destruct m as [ps nm prev ini]. simpl. intros ->.
  destruct ty;
    cbv [set_speed DDPMotor.set_speed DDPMotor.init_motors
         DPMotor.set_speed DPMotor.init_motors
         PPMotor.set_speed PPMotor.init_motors
         pin subscript bind get when ret
         raise emit modify calls_of state_of set_pin_mode_analog_output
         analog_write pwm_write_call
         set_initialized set_prev_motor_speed
         pins initialized prev_motor_speed negb];
    (destruct (prev =? speed); [split; reflexivity|]);
    destruct (speed =? 0), (0 <? speed), (0 <=? speed), (speed <? 0),
      (bool_decide (mappings.get_mcu board_mapping = "pico"));
    repeat (match goal with
            | |- context [ps !! ?k] => destruct (ps !! k)
            end; cbn);
    split; reflexivity.
Qed.

Lemma drive_initialized_no_pin_mode (ty : motor_type) (speeds : list Z)
    (m : Motor) :
  initialized m = true ->
  List.filter board.is_pin_mode
    (drive (set_speed board_mapping ty) speeds m).2 = [].
Proof.
  revert m; induction speeds as [|v rest IH]; intros m Hi; [reflexivity|].
  simpl. destruct (initialized_no_pin_mode ty m v Hi) as [Hc Hs].
  specialize (IH _ Hs).
  destruct (drive (set_speed board_mapping ty) rest
              (state_of (set_speed board_mapping ty v m))) as [m' cs].
  simpl in *. rewrite List.filter_app, Hc, IH. reflexivity.
Qed.

Lemma configured_ddp (ps : gmap string Z) :
  configured ddp ps ->
  exists p1 d1 d2, ps !! "p1" = Some p1 /\ ps !! "d1" = Some d1
                   /\ ps !! "d2" = Some d2.
Proof.
  intros H. inversion H as [|? ? [p1 H1] H']; subst.
  inversion H' as [|? ? [d1 H2] H'']; subst.
  inversion H'' as [|? ? [d2 H3] _]; subst. eauto 7.
Qed.

Lemma configured_dp (ps : gmap string Z) :
  configured dp ps ->
  exists p1 d1, ps !! "p1" = Some p1 /\ ps !! "d1" = Some d1.
Proof.
  intros H. inversion H as [|? ? [p1 H1] H']; subst.
  inversion H' as [|? ? [d1 H2] _]; subst. eauto.
Qed.

Lemma configured_pp (ps : gmap string Z) :
  configured pp ps ->
  exists p1 p2, ps !! "p1" = Some p1 /\ ps !! "p2" = Some p2.
Proof.
  intros H. inversion H as [|? ? [p1 H1] H']; subst.
  inversion H' as [|? ? [p2 H2] _]; subst. eauto.
Qed.

(** The first effective call on a motor fresh from its constructor. *)
Lemma first_call_pin_modes (ty : motor_type) (ps : gmap string Z)
    (nm : string) (v : Z) :
  configured ty ps -> v <> 0 ->
  List.filter board.is_pin_mode
    (calls_of (set_speed board_mapping ty v (Motor_init ps nm)))
  = lazy_init_calls board_mapping ty ps v
  /\ initialized (state_of (set_speed board_mapping ty v (Motor_init ps nm)))
     = true.
Proof.
  intros Hc Hv. destruct ty; simpl.
  - destruct (configured_ddp ps Hc) as (p1 & d1 & d2 & H1 & H2 & H3).
    rewrite (ddp_set_speed_calls board_mapping (Motor_init ps nm) v p1 d1 d2)
      by (simpl; auto).
    unfold lazy_init_calls. rewrite H1, H2, H3.
    unfold calls_of, state_of, pwm_mode_call, pwm_write_call. simpl.
    destruct (0 <=? v),
      (bool_decide (mappings.get_mcu board_mapping = "pico"));
      split; reflexivity.
  - destruct (configured_dp ps Hc) as (p1 & d1 & H1 & H2).
    rewrite (dp_set_speed_calls board_mapping (Motor_init ps nm) v p1 d1)
      by (simpl; auto).
    unfold lazy_init_calls. rewrite H1, H2.
    destruct (Z.eqb_spec v 0); [contradiction|].
    unfold calls_of, state_of, pwm_mode_call, pwm_write_call. simpl.
    destruct (0 <? v),
      (bool_decide (mappings.get_mcu board_mapping = "pico"));
      split; reflexivity.
  - destruct (configured_pp ps Hc) as (p1 & p2 & H1 & H2).
    rewrite (pp_set_speed_calls board_mapping (Motor_init ps nm) v p1 p2)
      by (simpl; auto).
    unfold lazy_init_calls. rewrite H1, H2.
    destruct (Z.eqb_spec v 0); [contradiction|].
    unfold calls_of, state_of, pwm_mode_call, pwm_write_call. simpl.
    destruct (0 <? v),
      (bool_decide (mappings.get_mcu board_mapping = "pico"));
      split; reflexivity.
Qed.

(** X2.  For each motor interface, with the pins it reads configured: over
    any sequence of speeds on a motor fresh from its constructor, the only
    pin-mode calls are those of the lazy initialization, made once, in the
    call of the first speed that is not 0; their order follows the sign of
    that speed for PP and DP.  While every speed is 0 there is none. *)
Theorem lazy_init_once (ty : motor_type) (ps : gmap string Z) (nm : string)
    (speeds : list Z) :
  configured ty ps ->
  List.filter board.is_pin_mode
    (drive (set_speed board_mapping ty) speeds (Motor_init ps nm)).2
  = match first_nonzero speeds with
    | Some v => lazy_init_calls board_mapping ty ps v
    | None => []
    end.
Proof.
  intros Hc. induction speeds as [|v rest IH]; [reflexivity|].
  cbn [drive first_nonzero List.find].
  destruct (Z.eqb_spec v 0) as [->|Hv]; cbn [negb].
  - pose proof (set_speed_same ty (Motor_init ps nm)) as Hn.
    cbn [prev_motor_speed Motor_init] in Hn. rewrite Hn.
    unfold state_of, calls_of. cbn [fst snd].
    fold (first_nonzero rest).
    destruct (drive (set_speed board_mapping ty) rest (Motor_init ps nm))
      as [m' cs]. exact IH.
  - destruct (first_call_pin_modes ty ps nm v Hc Hv) as [Hf Hi].
    pose proof (drive_initialized_no_pin_mode ty rest _ Hi) as Hrest.
    destruct (drive (set_speed board_mapping ty) rest
                (state_of (set_speed board_mapping ty v (Motor_init ps nm))))
      as [m' cs].
    cbn [snd] in *. rewrite List.filter_app, Hf, Hrest. apply app_nil_r.
Qed.

(** Speed 0 scales to duty 0 for every PWM resolution. *)
Lemma scaled_pwm_zero (max_pwm : Z) : scaled_pwm max_pwm 0 = 0.
Proof.
  unfold scaled_pwm, py_int.
  change (py_float (Z.min 0 100) / 100)%float with 0%float.
  rewrite mul_spec.
  change (Prim2SF 0) with (S754_zero false).
  destruct (Prim2SF (py_float max_pwm)) as [s|s| |s m e]; reflexivity.
Qed.

(** X3.  For each motor interface, with distinct configured pins: an
    effective [set_speed(0)] leaves every PWM pin of the motor at duty 0,
    for every PWM resolution of the board (the DDP driver computes this duty
    with the scaling formula). *)
Theorem set_speed_zero_stops (ty : motor_type) (m : Motor) (lv : gmap Z Z) :
  configured ty (pins m) ->
  NoDup (map (fun k => pins m !! k) (motor_keys ty)) ->
  prev_motor_speed m <> 0 ->
  Forall (fun k =>
            exists p, pins m !! k = Some p
                      /\ settle lv (calls_of (set_speed board_mapping ty 0 m))
                           !! p = Some 0)
    (pwm_keys ty).
Proof.
  intros Hc Hd Hp. destruct ty; simpl in *.
  - destruct (configured_ddp _ Hc) as (p1 & d1 & d2 & H1 & H2 & H3).
    rewrite H1, H2, H3 in Hd.
    apply NoDup_cons in Hd as [Hn1 Hd]. apply NoDup_cons in Hd as [Hn2 _].
    assert (p1 <> d2).
    { intros ->. apply Hn1. right. left. }
    rewrite (ddp_set_speed_calls board_mapping m 0 p1 d1 d2 H1 H2 H3 Hp).
    rewrite scaled_pwm_zero.
    constructor; [|constructor]. exists p1. split; [exact H1|].
    unfold calls_of, settle, pwm_mode_call, pwm_write_call. simpl.
    destruct (initialized m),
      (bool_decide (mappings.get_mcu board_mapping = "pico")); simpl;
      rewrite lookup_insert_ne by congruence; apply lookup_insert_eq.
  - destruct (configured_dp _ Hc) as (p1 & d1 & H1 & H2).
    rewrite (dp_set_speed_calls board_mapping m 0 p1 d1 H1 H2 Hp).
    constructor; [|constructor]. exists p1. split; [exact H1|].
    unfold calls_of, settle, pwm_write_call. simpl.
    destruct (bool_decide (mappings.get_mcu board_mapping = "pico")); simpl;
      apply lookup_insert_eq.
  - destruct (configured_pp _ Hc) as (p1 & p2 & H1 & H2).
    rewrite H1, H2 in Hd. apply NoDup_cons in Hd as [Hn1 _].
    assert (p1 <> p2).
    { intros ->. apply Hn1. left. }
    rewrite (pp_set_speed_calls board_mapping m 0 p1 p2 H1 H2 Hp).
    constructor; [|constructor; [|constructor]].
    + exists p1. split; [exact H1|].
      unfold calls_of, settle, pwm_write_call. simpl.
      destruct (bool_decide (mappings.get_mcu board_mapping = "pico")); simpl;
        apply lookup_insert_eq.
    + exists p2. split; [exact H2|].
      unfold calls_of, settle, pwm_write_call. simpl.
      destruct (bool_decide (mappings.get_mcu board_mapping = "pico")); simpl;
        (rewrite lookup_insert_ne by congruence); apply lookup_insert_eq.
Qed.

(** A call that raises, raises [KeyError] and leaves the motor as it was. *)
Lemma set_speed_raises (ty : motor_type) (speed : Z) (m : Motor) (e : exn) :
  result_of (set_speed board_mapping ty speed m) = Raise e ->
  e = KeyError /\ state_of (set_speed board_mapping ty speed m) = m.
Proof.
  destruct m as [ps nm prev ini].
  destruct ty;
    cbv [set_speed DDPMotor.set_speed DDPMotor.init_motors
         DPMotor.set_speed DPMotor.init_motors
         PPMotor.set_speed PPMotor.init_motors
         pin subscript bind get when ret
         raise emit modify result_of state_of set_pin_mode_analog_output
         analog_write
         set_initialized set_prev_motor_speed
         pins initialized prev_motor_speed negb];
    (destruct (prev =? speed); [cbn; discriminate|]);
    destruct ini, (speed =? 0), (0 <? speed), (0 <=? speed), (speed <? 0);
    repeat (first [ match goal with
                    | E : ps !! ?k = _ |- context [ps !! ?k] => rewrite E
                    end
                  | match goal with
                    | |- context [ps !! ?k] => destruct (ps !! k) eqn:?
                    end ]; cbn);
    cbn; intros H;
    first [discriminate H | injection H as <-; split; reflexivity].
Qed.

(** With its pins configured, a call returns. *)
Lemma set_speed_returns (ty : motor_type) (speed : Z) (m : Motor) :
  configured ty (pins m) ->
  result_of (set_speed board_mapping ty speed m) = Return tt
  /\ prev_motor_speed (state_of (set_speed board_mapping ty speed m)) = speed
  /\ pins (state_of (set_speed board_mapping ty speed m)) = pins m.
Proof.
  intros Hc.
  destruct (Z.eq_dec (prev_motor_speed m) speed) as [<-|Hne].
  { rewrite set_speed_same. repeat split. }
  destruct ty; simpl.
  - destruct (configured_ddp _ Hc) as (p1 & d1 & d2 & H1 & H2 & H3).
    rewrite (ddp_set_speed_calls board_mapping m speed p1 d1 d2 H1 H2 H3 Hne).
    destruct (initialized m); repeat split.
  - destruct (configured_dp _ Hc) as (p1 & d1 & H1 & H2).
    rewrite (dp_set_speed_calls board_mapping m speed p1 d1 H1 H2 Hne).
    destruct ((speed =? 0) || initialized m); repeat split.
  - destruct (configured_pp _ Hc) as (p1 & p2 & H1 & H2).
    rewrite (pp_set_speed_calls board_mapping m speed p1 p2 H1 H2 Hne).
    destruct ((speed =? 0) || initialized m); repeat split.
Qed.

(** X4.  When [set_speed] raises, the exception is the [KeyError] of a pin
    name that the interface reads and [self.pins] lacks, and the motor is
    left as it was: the speed is not recorded and the motor is not marked
    initialized, so the next call with the same speed tries again. *)
Theorem set_speed_raise_keeps_motor (ty : motor_type) (speed : Z)
    (m : Motor) (e : exn) :
  result_of (set_speed board_mapping ty speed m) = Raise e ->
  e = KeyError
  /\ state_of (set_speed board_mapping ty speed m) = m
  /\ ~ configured ty (pins m).
Proof.
  intros H. destruct (set_speed_raises ty speed m e H) as [He Hs].
  split; [exact He|]. split; [exact Hs|].
  intros Hc. destruct (set_speed_returns ty speed m Hc) as (Hr & _).
  congruence.
Qed.

(** X5.  A motor whose pins hold every name its interface reads never
    raises: every [set_speed], whatever the speed and whatever the motor
    has done before, returns and leaves [prev_motor_speed] at the commanded
    speed, and the pins as they were. *)
Theorem set_speed_configured (ty : motor_type) (speed : Z) (m : Motor) :
  configured ty (pins m) ->
  result_of (set_speed board_mapping ty speed m) = Return tt
  /\ prev_motor_speed (state_of (set_speed board_mapping ty speed m)) = speed
  /\ pins (state_of (set_speed board_mapping ty speed m)) = pins m.
Proof. exact (set_speed_returns ty speed m). Qed.

End MotorInterfaces.

Lemma lazy_init_once_witness :
  List.filter board.is_pin_mode
    (drive (set_speed sample_mapping pp) [0; -30; 30; 0]
       (Motor_init sample_pins "left")).2
  = [board.set_pin_mode_analog_output 5; board.set_pin_mode_analog_output 6].
Proof.
  refine (lazy_init_once sample_mapping pp sample_pins "left"
            [0; -30; 30; 0] _).
  repeat constructor; vm_compute; eexists; reflexivity.
Defined.

Lemma set_speed_zero_stops_witness :
  Forall (fun k =>
            exists p, sample_pins !! k = Some p
                      /\ settle ∅
                           (calls_of
                              (set_speed sample_mapping ddp 0
                                 (set_prev_motor_speed 40
                                    (Motor_init sample_pins "left"))))
                           !! p = Some 0)
    ["p1"].
Proof.
  refine (set_speed_zero_stops sample_mapping ddp
            (set_prev_motor_speed 40 (Motor_init sample_pins "left")) ∅
            _ _ _).
  - repeat constructor; vm_compute; eexists; reflexivity.
  - apply (bool_decide_unpack _). vm_compute. exact I.
  - simpl. lia.
Defined.

Lemma set_speed_raise_keeps_motor_witness :
  KeyError = KeyError
  /\ state_of (set_speed sample_mapping dp 40
                 (Motor_init {[ "d1" := 7 ]} "left"))
     = Motor_init {[ "d1" := 7 ]} "left"
  /\ ~ configured dp {[ "d1" := 7 ]}.
Proof.
  refine (set_speed_raise_keeps_motor sample_mapping dp 40
            (Motor_init {[ "d1" := 7 ]} "left") KeyError _).
  vm_compute. reflexivity.
Defined.

Lemma set_speed_configured_witness :
  result_of (set_speed sample_mapping ddp (-120)
               (Motor_init sample_pins "left")) = Return tt
  /\ prev_motor_speed
       (state_of (set_speed sample_mapping ddp (-120)
                    (Motor_init sample_pins "left"))) = -120
  /\ pins (state_of (set_speed sample_mapping ddp (-120)
                       (Motor_init sample_pins "left"))) = sample_pins.
Proof.
  refine (set_speed_configured sample_mapping ddp (-120)
            (Motor_init sample_pins "left") _).
  repeat constructor; vm_compute; eexists; reflexivity.
Defined.

(** ** The publish-rate limiter, further *)

Section MoreRateFacts.
Context {Msg E : Type}.
Variable publisher : Msg -> E.

(** Division by a zero [max_freq]. *)
Lemma publish_zero (m : SensorMonitor Msg) (c : clock) (data : Msg) :
  (max_freq m == 0)%Q ->
  let r := publish publisher c data m in
  result_of r = Raise ZeroDivisionError
  /\ calls_of r
     = (if (last_publish_time m =? -1)%float then [publisher data] else [])
  /\ max_freq (state_of r) = max_freq m.
Proof.
  intros Hz r. subst r.
  assert (Hm1 : Qeq_bool (max_freq m) (- (1)) = false).
  { apply Qeq_bool_false. rewrite Hz. discriminate. }
  apply Qeq_bool_iff in Hz.
  cbv [publish publish_imp period bind get emit modify when ret raise
       result_of calls_of state_of].
  rewrite Hm1. destruct (last_publish_time m =? -1)%float;
    cbn [max_freq last_publish_time set_last_publish_time
         set_last_publish_value fst snd app];
    rewrite Hz; repeat split.
Qed.

(** X6.  A monitor whose [max_freq] is 0: [publish] raises
    [ZeroDivisionError] on every call.  The first call has forwarded its
    reading before it raises; a later call forwards nothing. *)
Theorem publish_zero_frequency (m : SensorMonitor Msg) (c : clock)
    (data : Msg) :
  (max_freq m == 0)%Q ->
  let r := publish publisher c data m in
  result_of r = Raise ZeroDivisionError
  /\ calls_of r
     = (if (last_publish_time m =? -1)%float then [publisher data] else [])
  /\ max_freq (state_of r) = max_freq m.
Proof. exact (publish_zero m c data). Qed.

(** X7.  A monitor whose [max_freq] is negative and not the sentinel, with
    the negative period [1000.0 / max_freq]: the first call, at a finite
    clock, forwards its reading twice, and leaves [last_publish_time] at the
    binary64 sum of the current time in milliseconds and the period, one
    period before the current time. *)
Theorem publish_negative_frequency (m : SensorMonitor Msg) (c : clock)
    (data : Msg) :
  (max_freq m < 0)%Q -> ~ (max_freq m == - (1))%Q ->
  (1000 / py_number (max_freq m) <? 0)%float = true ->
  (last_publish_time m =? -1)%float = true ->
  finite_float (py_float (now_millis c)) ->
  let r := publish publisher c data m in
  result_of r = Return tt
  /\ calls_of r = [publisher data; publisher data]
  /\ last_publish_time (state_of r)
     = (py_float (now_millis c) + 1000 / py_number (max_freq m))%float
  /\ last_publish_value (state_of r) = data.
Proof.
  intros Hneg Hm1 Hp Hl Hfin r. subst r.
  cbv [publish publish_imp period bind get emit modify when ret raise
       result_of calls_of state_of].
  rewrite (Qeq_bool_false _ _ Hm1), Hl.
  cbn [max_freq last_publish_time set_last_publish_time
       set_last_publish_value fst snd app].
  rewrite (Qeq_bool_false (max_freq m) 0) by lra.
  rewrite (sub_diag_above _ _ Hfin Hp). repeat split.
Qed.

(** The value that one call leaves in [last_publish_value]. *)
Lemma publish_value (m : SensorMonitor Msg) (c : clock) (data : Msg) :
  let r := publish publisher c data m in
  match last (calls_of r) with
  | Some e => e = publisher (last_publish_value (state_of r))
  | None => last_publish_value (state_of r) = last_publish_value m
  end.
Proof.
  cbv [publish publish_imp period bind get emit modify when ret raise
       calls_of state_of].
  destruct (Qeq_bool (max_freq m) (- (1))); [reflexivity|].
  destruct (last_publish_time m =? -1)%float;
    cbn [max_freq last_publish_time set_last_publish_time
         set_last_publish_value fst snd app];
    destruct (Qeq_bool (max_freq m) 0); try reflexivity;
    match goal with
    | |- context [PrimFloat.leb ?a ?b] => destruct (PrimFloat.leb a b)
    end; reflexivity.
Qed.

(** X9.  For every monitor and every sequence of calls, also one that
    raises on the way: [last_publish_value], which the [get_...] services
    return, is the reading forwarded last, not the reading received last;
    it is unchanged while nothing is forwarded. *)
Theorem last_publish_value_is_last_forwarded
    (inputs : list (clock * Msg)) (m : SensorMonitor Msg) :
  let run := feed (fun x => publish publisher x.1 x.2) inputs m in
  match last run.2 with
  | Some e => e = publisher (last_publish_value run.1)
  | None => last_publish_value run.1 = last_publish_value m
  end.
Proof.
  revert m; induction inputs as [|[c data] rest IH]; intros m; [reflexivity|].
  cbn [feed fst snd]. pose proof (publish_value m c data) as Hv.
  cbv zeta in Hv, IH.
  set (r := publish publisher c data m) in *.
  specialize (IH (state_of r)).
  destruct (feed _ rest (state_of r)) as [m' es]. cbn [fst snd] in *.
  rewrite last_app. destruct (last es) as [e|]; [exact IH|].
  destruct (last (calls_of r)) as [e|]; congruence.
Qed.

End MoreRateFacts.

Lemma publish_zero_frequency_witness :
  result_of (publish (fun x : Z => x) (at_time 1000) 7
               (set_max_freq 0 (SensorMonitor_init sample_sensor 0)))
  = Raise ZeroDivisionError.
Proof.
  refine (proj1 (publish_zero_frequency (fun x : Z => x)
                   (set_max_freq 0 (SensorMonitor_init sample_sensor 0))
                   (at_time 1000) 7 _)).
  reflexivity.
Defined.

Lemma publish_negative_frequency_witness :
  calls_of (publish (fun x : Z => x) (at_millis 1700000000000) 7
              (set_max_freq (- (3)) (SensorMonitor_init sample_sensor 0)))
  = [7; 7]
  /\ Prim2SF
       (last_publish_time
          (state_of
             (publish (fun x : Z => x) (at_millis 1700000000000) 7
                (set_max_freq (- (3)) (SensorMonitor_init sample_sensor 0)))))
     = S754_finite false 6963199998634667 (-12).
Proof.
  pose proof (publish_negative_frequency (fun x : Z => x)
                (set_max_freq (- (3)) (SensorMonitor_init sample_sensor 0))
                (at_millis 1700000000000) 7) as H.
  cbv zeta in H.
  destruct H as (_ & Hcalls & Hlast & _);
    [reflexivity | discriminate | vm_compute; reflexivity | reflexivity
    | vm_compute; reflexivity |].
  split; [exact Hcalls|]. rewrite Hlast. vm_compute. reflexivity.
Defined.

(** ** The keypad, further *)

Section MoreKeypadFacts.
Variable board_mapping : mappings.t.

Lemma pressed_keys_app (es es' : list keypad_topic) :
  pressed_keys (es ++ es') = pressed_keys es ++ pressed_keys es'.
Proof.
  induction es as [|[msg|msg] es IH]; simpl; rewrite ?IH; reflexivity.
Qed.

Lemma pressed_keys_on_keypad (es : list keypad_topic) (msg : Keypad) :
  Forall (fun e => e = on_keypad msg) es -> pressed_keys es = [].
Proof.
  induction 1 as [|e es -> _ IH]; [reflexivity|exact IH].
Qed.

(** The debounced key that the monitor holds is empty or the raw key of the
    last sample. *)
Lemma keypad_held_is_raw (s : sensor) (samples : list (clock * report)) :
  ~ (max_freq (keypad_base (KeypadMonitor_init s)) == 0)%Q ->
  let m := keypad_after board_mapping s samples in
  last_debounced_key m = "" \/ last_debounced_key m = last_key m.
Proof.
  intros Hf. destruct samples as [|x samples _] using rev_ind.
  - left. reflexivity.
  - cbn zeta. rewrite keypad_after_snoc.
    destruct (keypad_invariant board_mapping s samples Hf) as (Hmf & _ & _).
    set (m := keypad_after board_mapping s samples) in *.
    assert (Hf' : ~ (max_freq (keypad_base m) == 0)%Q)
      by (rewrite Hmf; exact Hf).
    destruct x as [c data].
    destruct (keypad_publish_data board_mapping m c data Hf')
      as (_ & Hstate & _).
    cbn [fst snd]. rewrite Hstate. cbn [last_debounced_key last_key].
    destruct (debounce_elapsed _ _); [right|left]; reflexivity.
Qed.

(** X10.  A keypad monitor whose [max_freq] is not 0, after any samples:
    the debounced key it holds is empty or the raw key of the last sample;
    a held key is never replaced by another key directly, it is kept or
    dropped to the empty key; and a sample sends a message on the
    [_pressed] topic exactly when it drops a held key, one message, with
    that key. *)
Theorem keypad_pressed_on_release (s : sensor)
    (samples : list (clock * report)) (c : clock) (data : report) :
  ~ (max_freq (keypad_base (KeypadMonitor_init s)) == 0)%Q ->
  let before := keypad_after board_mapping s samples in
  let r := KeypadMonitor.publish_data board_mapping c data before in
  let held := last_debounced_key before in
  let now := last_debounced_key (state_of r) in
  (held = "" \/ held = previous_raw_key board_mapping samples)
  /\ (held <> "" -> now = "" \/ now = held)
  /\ pressed_keys (calls_of r)
     = (if bool_decide (held <> "" /\ now = "") then [held] else []).
Proof.
  intros Hf before r held now.
  destruct (keypad_invariant board_mapping s samples Hf) as (Hmf & Hlk & _).
  pose proof (keypad_held_is_raw s samples Hf) as Hheld.
  cbv zeta in Hheld. fold before in Hmf, Hlk, Hheld. fold held in Hheld.
  assert (Hf' : ~ (max_freq (keypad_base before) == 0)%Q)
    by (rewrite Hmf; exact Hf).
  destruct (keypad_publish_data board_mapping before c data Hf')
    as (_ & Hstate & Hcalls).
  fold r in Hstate, Hcalls. fold held in Hcalls.
  assert (Hnow : now
                 = if debounce_elapsed (report_time data)
                        (if bool_decide
                              (last_key before
                               = raw_key board_mapping (c, data))
                         then last_debounce_time before
                         else report_time data)
                   then raw_key board_mapping (c, data) else "").
  { unfold now. rewrite Hstate. reflexivity. }
  assert (Hkeep : held <> "" -> now = "" \/ now = held).
  { intros Hne. rewrite Hnow.
    case_bool_decide as Heq.
    - destruct (debounce_elapsed _ _); [right|left; reflexivity].
      destruct Hheld as [H|H]; [contradiction|]. congruence.
    - left. unfold debounce_elapsed.
      destruct (Qlt_le_dec _ _) as [Hlt|_]; [|reflexivity].
      exfalso. lra. }
  split; [|split; [exact Hkeep|]].
  - rewrite <- Hlk. exact Hheld.
  - rewrite Hcalls, pressed_keys_app.
    match type of Hcalls with
    | context [publish on_keypad c ?kp (keypad_base before)] =>
        destruct (publish_returns on_keypad (keypad_base before) c kp Hf')
          as (_ & Hall & _);
        rewrite (pressed_keys_on_keypad _ kp Hall)
    end.
    cbn [app]. rewrite <- Hnow. clear Hstate Hcalls Hall Hnow Hheld.
    repeat case_bool_decide; cbn; try reflexivity; exfalso;
      intuition congruence.
Qed.

(** A keypad whose [max_freq] is 0 and that holds no key: the sample
    raises before the keys are stored. *)
Lemma keypad_zero_step (m : KeypadMonitor) (c : clock) (data : report) :
  (max_freq (keypad_base m) == 0)%Q ->
  last_key m = "" -> last_debounced_key m = "" ->
  let r := KeypadMonitor.publish_data board_mapping c data m in
  result_of r = Raise ZeroDivisionError
  /\ max_freq (keypad_base (state_of r)) = max_freq (keypad_base m)
  /\ last_key (state_of r) = "" /\ last_debounced_key (state_of r) = ""
  /\ Forall (fun e => exists msg, e = on_keypad msg /\ key msg = "")
       (calls_of r).
Proof.
  intros Hz Hlk Hldk r. subst r.
  unfold KeypadMonitor.publish_data.
  destruct m as [base ldt lk ldk]. cbn [keypad_base last_key
    last_debounce_time last_debounced_key fst snd] in *. subst lk ldk.
  cbv [bind get when ret modify zoom emit set_last_debounce_time
       set_keypad_base set_last_keys result_of state_of calls_of
       keypad_base last_key last_debounce_time last_debounced_key].
  set (k := decode_key (mappings.get_adc_bits board_mapping)
              (report_value data)).
  destruct (bool_decide ("" = k)) eqn:Hk; cbn [negb fst snd];
    match goal with
    | |- context [publish on_keypad c ?kp base] =>
        assert (Hkey : key kp = "");
        [|destruct (publish_zero on_keypad base c kp Hz)
            as (Hres & Hcs & Hmf);
          unfold result_of, calls_of, state_of in Hres, Hcs, Hmf;
          destruct (publish on_keypad c kp base) as [[res st] cs];
          cbn [fst snd] in *; subst res; cbn [fst snd];
          split; [reflexivity|]; split; [exact Hmf|];
          split; [reflexivity|]; split; [reflexivity|];
          rewrite Hcs; destruct (PrimFloat.eqb _ _); repeat constructor;
          exists kp; split; [reflexivity|exact Hkey]]
    end.
  - apply bool_decide_eq_true in Hk. cbn [key]. rewrite <- Hk.
    destruct (debounce_elapsed _ _); reflexivity.
  - cbn [key]. unfold debounce_elapsed.
    destruct (Qlt_le_dec _ _) as [Hlt|_]; [exfalso; lra|reflexivity].
Qed.

(** X19.  A keypad whose [max_freq] is 0, after any samples: every further
    sample raises [ZeroDivisionError] before the keys are stored, so the
    monitor never holds a key (neither raw nor debounced), every message it
    sends is on the keypad topic with the empty key, and it never sends a
    [_pressed] message. *)
Theorem keypad_zero_frequency (s : sensor)
    (samples : list (clock * report)) (c : clock) (data : report) :
  (max_freq (keypad_base (KeypadMonitor_init s)) == 0)%Q ->
  let before := keypad_after board_mapping s samples in
  let r := KeypadMonitor.publish_data board_mapping c data before in
  result_of r = Raise ZeroDivisionError
  /\ last_key (state_of r) = "" /\ last_debounced_key (state_of r) = ""
  /\ Forall (fun e => exists msg, e = on_keypad msg /\ key msg = "")
       (calls_of r)
  /\ pressed_keys (calls_of r) = [].
Proof.
  intros Hz before r.
  assert (Hinv : (max_freq (keypad_base before) == 0)%Q
                 /\ last_key before = "" /\ last_debounced_key before = "").
  { subst before. clear r.
    induction samples as [|x samples' IH] using rev_ind.
    - split; [exact Hz|split; reflexivity].
    - rewrite keypad_after_snoc. destruct IH as (Hm & Hlk & Hldk).
      destruct (keypad_zero_step (keypad_after board_mapping s samples')
                  x.1 x.2 Hm Hlk Hldk) as (_ & Hmf & Hlk' & Hldk' & _).
      split; [rewrite Hmf; exact Hm|split; assumption]. }
  destruct Hinv as (Hm & Hlk & Hldk).
  destruct (keypad_zero_step before c data Hm Hlk Hldk)
    as (Hres & _ & Hlk' & Hldk' & Hall).
  fold r in Hres, Hlk', Hldk', Hall.
  repeat (split; [assumption|]).
  clear -Hall. induction Hall as [|e es (msg & -> & _) _ IH];
    [reflexivity|exact IH].
Qed.

End MoreKeypadFacts.

Lemma keypad_pressed_on_release_witness :
  pressed_keys
    (calls_of
       (KeypadMonitor.publish_data sample_mapping (at_time 3)
          {| report_type := 3; report_pin := 1; report_value := 4000;
             report_time := 3 |}
          (keypad_after sample_mapping sample_sensor
             [(at_time 1,
               {| report_type := 3; report_pin := 1; report_value := 10;
                  report_time := 1 |});
              (at_time 2,
               {| report_type := 3; report_pin := 1; report_value := 10;
                  report_time := 2 |})])))
  = ["left"].
Proof.
  refine (proj2 (proj2 (keypad_pressed_on_release sample_mapping sample_sensor
            [(at_time 1,
              {| report_type := 3; report_pin := 1; report_value := 10;
                 report_time := 1 |});
             (at_time 2,
              {| report_type := 3; report_pin := 1; report_value := 10;
                 report_time := 2 |})]
            (at_time 3)
            {| report_type := 3; report_pin := 1; report_value := 4000;
               report_time := 3 |} _))).
  discriminate.
Defined.

Lemma keypad_zero_frequency_witness :
  result_of
    (KeypadMonitor.publish_data sample_mapping (at_time 2)
       {| report_type := 3; report_pin := 1; report_value := 10;
          report_time := 2 |}
       (keypad_after sample_mapping stalled_sensor
          [(at_time 1,
            {| report_type := 3; report_pin := 1; report_value := 10;
               report_time := 1 |})]))
  = Raise ZeroDivisionError.
Proof.
  refine (proj1 (keypad_zero_frequency sample_mapping stalled_sensor
            [(at_time 1,
              {| report_type := 3; report_pin := 1; report_value := 10;
                 report_time := 1 |})]
            (at_time 2)
            {| report_type := 3; report_pin := 1; report_value := 10;
               report_time := 2 |} _)).
  reflexivity.
Defined.

(** ** The display, further *)

Section MoreOledFacts.

(** [start] sends the queue up to the first transaction that the board
    refuses. *)
Lemma start_loop_effect (cmds : list (list Z)) :
  forall (o : Oled) (b : bus) (i : nat),
    (i <= length cmds)%nat ->
    (forall j, (j < i)%nat -> acks b (sent b + j)%nat <> Some false) ->
    ((i < length cmds)%nat -> acks b (sent b + i)%nat = Some false) ->
    let r := Oled.start_loop cmds (o, b) in
    result_of r = Return tt
    /\ calls_of r
       = map (fun cmd => i2c_write 60 cmd (i2c_port o))
           (take (Datatypes.S i) cmds)
    /\ (state_of r).1
       = (if bool_decide (i < length cmds)%nat then set_failed true o else o)
    /\ sent (state_of r).2
       = (sent b + Nat.min (Datatypes.S i) (length cmds))%nat
    /\ acks (state_of r).2 = acks b.
Proof.
  induction cmds as [|cmd rest IH]; intros o b i Hi Hok Hbad.
  - simpl in Hi. assert (i = 0%nat) as -> by lia.
    cbn. repeat split. lia.
  - cbn [Oled.start_loop].
    cbv [bind i2c_issue i2c_reply update ret result_of state_of calls_of].
    cbn [fst snd sent acks].
    destruct i as [|i].
    + rewrite Nat.add_0_r in Hbad.
      rewrite (Hbad ltac:(simpl; lia)). cbn.
      repeat split. lia.
    + assert (Hack : is_False (acks b (sent b)) = false).
      { specialize (Hok 0%nat ltac:(lia)). rewrite Nat.add_0_r in Hok.
        destruct (acks b (sent b)) as [[|]|]; try reflexivity.
        contradiction Hok; reflexivity. }
      rewrite Hack.
      specialize (IH o {| sent := Datatypes.S (sent b); acks := acks b;
                          schedule := schedule b |} i
                    ltac:(simpl in Hi; lia)).
      cbn [sent acks] in IH.
      assert (Hok' : forall j, (j < i)%nat ->
                acks b (Datatypes.S (sent b) + j)%nat <> Some false).
      { intros j Hj. replace (Datatypes.S (sent b) + j)%nat
          with (sent b + Datatypes.S j)%nat by lia.
        apply Hok. lia. }
      assert (Hbad' : (i < length rest)%nat ->
                acks b (Datatypes.S (sent b) + i)%nat = Some false).
      { intros Hlt. replace (Datatypes.S (sent b) + i)%nat
          with (sent b + Datatypes.S i)%nat by lia.
        apply Hbad. simpl. lia. }
      specialize (IH Hok' Hbad'). cbv zeta in IH.
      unfold result_of, state_of, calls_of in IH.
      destruct (Oled.start_loop rest _) as [[r2 w2] l2].
      cbn [fst snd] in *. destruct IH as (Hr & Hc & Hs & Hn & Ha).
      split; [exact Hr|]. split; [rewrite Hc; reflexivity|].
      split.
      { rewrite Hs. cbn [length].
        destruct (bool_decide (i < length rest)%nat) eqn:E1,
                 (bool_decide (Datatypes.S i < Datatypes.S (length rest))%nat)
                   eqn:E2; try reflexivity; exfalso.
        - apply bool_decide_eq_true in E1.
          apply bool_decide_eq_false in E2. lia.
        - apply bool_decide_eq_false in E1.
          apply bool_decide_eq_true in E2. lia. }
      split; [rewrite Hn; cbn [length]; lia|exact Ha].
Qed.

(** X11.  [start] configures the I2C port and then sends the queued
    commands in order, each as one transaction, until the board answers
    [False] to one of them: with [i] the position of the first refused
    command (the length of the queue when none is refused), the commands up
    to and including the [i]-th are sent and nothing after it; [failed] is
    set exactly when a command was refused, and the queue itself is kept. *)
Theorem oled_start_sends_queue (o : Oled) (b : bus) (i : nat) :
  (i <= length (write_commands o))%nat ->
  (forall j, (j < i)%nat -> acks b (sent b + j)%nat <> Some false) ->
  ((i < length (write_commands o))%nat ->
   acks b (sent b + i)%nat = Some false) ->
  let r := Oled.start (o, b) in
  result_of r = Return tt
  /\ calls_of r
     = set_pin_mode_i2c (i2c_port o)
       :: map (fun cmd => i2c_write 60 cmd (i2c_port o))
            (take (Datatypes.S i) (write_commands o))
  /\ failed (state_of r).1
     = failed o || bool_decide (i < length (write_commands o))%nat
  /\ same_panel o (state_of r).1.
Proof.
  intros Hi Hok Hbad r. subst r.
  pose proof (start_loop_effect (write_commands o) o b i Hi Hok Hbad) as H.
  cbv zeta in H.
  unfold Oled.start, bind, self, emit, result_of, state_of, calls_of in *.
  cbn [fst snd] in *.
  destruct (Oled.start_loop (write_commands o) (o, b)) as [[r2 w2] l2].
  cbn [fst snd] in *. destruct H as (Hr & Hc & Hs & _ & _).
  split; [exact Hr|]. split; [rewrite Hc; reflexivity|].
  rewrite Hs. destruct (bool_decide _); cbn;
    rewrite ?orb_true_r, ?orb_false_r; repeat split.
Qed.

(** A chunk of the buffer as [write_framebuf] and the tasks of the flush
    cut it: the byte before the chunk, which the data marker overwrites,
    and 16 bytes of the frame buffer. *)
Lemma slice_chunk (o : Oled) (i : nat) :
  length (buffer o) = 1025%nat -> (i < 64)%nat ->
  exists x : Z,
    slice (i * 16) ((i + 1) * 16 + 1) (buffer o)
    = x :: slice (16 * i) (16 * i + 16) (drop 1 (buffer o)).
Proof.
  intros Hlen Hi. pose proof (issue_of_task o i Hlen Hi) as H.
  unfold issue_of in H.
  destruct (slice (i * 16) ((i + 1) * 16 + 1) (buffer o)) as [|x data];
    [discriminate|].
  exists x. congruence.
Qed.

Lemma write_cmd_effect (cmd : Z) (o : Oled) (b : bus) :
  0 <= cmd < 256 ->
  Oled.write_cmd cmd (o, b)
  = (Return tt,
     (set_write_commands (write_commands o ++ [[128; cmd]])
        (set_temp (128, cmd) o), b),
     []).
Proof.
  intros Hc.
  cbv [Oled.write_cmd store_cmd bind self update ret raise]. cbn [fst snd].
  assert (H : (0 <=? cmd) && (cmd <? 256) = true).
  { apply andb_true_iff. split; [apply Z.leb_le|apply Z.ltb_lt]; lia. }
  rewrite H. reflexivity.
Qed.

Lemma write_framebuf_loop_effect (idx : list nat) :
  forall (o : Oled) (b : bus),
    length (buffer o) = 1025%nat -> Forall (fun i => (i < 64)%nat) idx ->
    Oled.write_framebuf_loop idx (o, b)
    = (Return tt,
       (set_write_commands
          (write_commands o
           ++ map (fun i => 64 :: slice (16 * i) (16 * i + 16)
                                    (drop 1 (buffer o))) idx) o, b),
       []).
Proof.
  induction idx as [|i rest IH]; intros o b Hlen Hall.
  - cbn. rewrite app_nil_r. destruct o; reflexivity.
  - inversion Hall as [|? ? Hi Hrest]; subst.
    cbn [Oled.write_framebuf_loop]. unfold bind at 1. unfold self at 1.
    cbn [fst snd].
    destruct (slice_chunk o i Hlen Hi) as [x Hx]. rewrite Hx.
    unfold bind at 1. unfold update at 1. cbn [fst snd].
    rewrite (IH _ b); [|exact Hlen|exact Hrest].
    cbn [write_commands set_write_commands buffer map app].
    rewrite <- app_assoc. reflexivity.
Qed.

Lemma show_effect (o : Oled) (b : bus) :
  width o = 128 -> pages o = 8 -> length (buffer o) = 1025%nat ->
  Oled.show (o, b)
  = (Return tt,
     (set_write_commands
        (write_commands o
         ++ map (fun cmd => [128; cmd]) [33; 0; 127; 34; 0; 7]
         ++ map (fun i => 64 :: slice (16 * i) (16 * i + 16)
                                  (drop 1 (buffer o))) (seq 0 64))
        (set_temp (128, 7) o), b),
     []).
Proof.
  intros Hw Hp Hlen.
  assert (Hall : Forall (fun i => (i < 64)%nat) (seq 0 64)).
  { apply Forall_forall. intros i Hi. apply elem_of_seq in Hi. lia. }
  unfold Oled.show, Oled.write_framebuf, Oled.xpos.
  unfold bind at 1. unfold self at 1. cbn [fst snd]. rewrite Hw, Hp.
  change (128 =? 64) with false. change (128 =? 72) with false.
  change (0 + (0 + 0)) with 0. change (128 - 1 + (0 + 0)) with 127.
  change (8 - 1) with 7.
  repeat (unfold bind at 1; rewrite write_cmd_effect by lia).
  rewrite write_framebuf_loop_effect; [|exact Hlen|exact Hall].
  cbn [write_commands buffer set_write_commands set_temp app].
  rewrite <- !app_assoc. reflexivity.
Qed.

(** X12.  The synchronous [show] of the 128 x 64 display sends nothing: it
    appends to the queue of [start] the six commands of the addressing
    window and the 64 chunks of the frame buffer, after what the queue
    held, and leaves the buffer, the bus and [failed] as they were. *)
Theorem oled_show_queues_frame (o : Oled) (b : bus) :
  width o = 128 -> pages o = 8 -> length (buffer o) = 1025%nat ->
  let chunk := fun i : nat =>
    slice (16 * i) (16 * i + 16) (drop 1 (buffer o)) in
  let r := Oled.show (o, b) in
  result_of r = Return tt /\ calls_of r = [] /\ (state_of r).2 = b
  /\ write_commands (state_of r).1
     = write_commands o
       ++ map (fun cmd => [128; cmd]) [33; 0; 127; 34; 0; 7]
       ++ map (fun i => 64 :: chunk i) (seq 0 64)
  /\ buffer (state_of r).1 = buffer o
  /\ failed (state_of r).1 = failed o.
Proof.
  intros Hw Hp Hlen chunk r. subst r chunk.
  rewrite (show_effect o b Hw Hp Hlen). repeat split.
Qed.

(** X13.  Start-up of the 128 x 64 display: [show] and then [start], while
    the board refuses nothing, configure the port, send what the queue
    held before, and then the very transactions that a flush
    ([show_async]) of the same display sends. *)
Theorem oled_show_then_start (o : Oled) (b : bus) :
  width o = 128 -> pages o = 8 -> length (buffer o) = 1025%nat ->
  failed o = false -> (forall n, acks b n <> Some false) ->
  calls_of (Oled.start (state_of (Oled.show (o, b))))
  = set_pin_mode_i2c (i2c_port o)
    :: map (fun cmd => i2c_write 60 cmd (i2c_port o)) (write_commands o)
    ++ calls_of (Oled.show_async (o, b)).
Proof.
  intros Hw Hp Hlen Hf Hno.
  rewrite (show_effect o b Hw Hp Hlen). unfold state_of at 1. cbn [fst snd].
  match goal with
  | |- context [Oled.start (?x, b)] => set (o' := x)
  end.
  pose proof (start_loop_effect (write_commands o') o' b
                (length (write_commands o')) (Nat.le_refl _)
                (fun j _ => Hno _) ltac:(lia)) as H.
  cbv zeta in H.
  unfold Oled.start, bind, self, emit, result_of, state_of, calls_of in *.
  cbn [fst snd] in *.
  destruct (Oled.start_loop (write_commands o') (o', b)) as [[r2 w2] l2].
  cbn [fst snd] in *. destruct H as (_ & Hc & _).
  rewrite Hc, take_ge by lia.
  subst o'. cbn [write_commands set_write_commands i2c_port set_temp].
  rewrite !map_app. cbn [app]. f_equal. f_equal.
  destruct (show_async_effect (o, b)) as (_ & _ & _ & Hflush).
  destruct (Hflush Hf Hno) as [Hcalls _].
  unfold calls_of in Hcalls. rewrite Hcalls. cbn [fst].
  rewrite flat_map_app, (flat_map_tasks o (seq 0 64) Hlen).
  - unfold Oled.xpos. rewrite Hw, Hp. rewrite map_map. reflexivity.
  - apply Forall_forall. intros i Hi. apply elem_of_seq in Hi. lia.
Qed.

Lemma same_geometry_refl (o : Oled) : same_geometry o o.
Proof. repeat split. Qed.

Lemma same_geometry_trans (o1 o2 o3 : Oled) :
  same_geometry o1 o2 -> same_geometry o2 o3 -> same_geometry o1 o3.
Proof. unfold same_geometry. intuition congruence. Qed.

Lemma same_panel_geometry (o o' : Oled) :
  same_panel o o' -> same_geometry o o'.
Proof. unfold same_panel, same_geometry. intuition congruence. Qed.

Lemma keeps_geometry_bind {A B : Type} (c : OledAct A) (k : A -> OledAct B) :
  keeps_geometry c -> (forall a, keeps_geometry (k a)) ->
  keeps_geometry (bind c k).
Proof.
  intros Hc Hk w. specialize (Hc w). unfold bind, state_of in *.
  destruct (c w) as [[[a|e] w1] l1]; cbn [fst snd] in *; [|exact Hc].
  specialize (Hk a w1). unfold state_of in Hk.
  destruct (k a w1) as [[r2 w2] l2]. cbn [fst snd] in *.
  exact (same_geometry_trans _ _ _ Hc Hk).
Qed.

Lemma keeps_geometry_catch {A : Type} (c : OledAct A) (h : exn -> OledAct A) :
  keeps_geometry c -> (forall e, keeps_geometry (h e)) ->
  keeps_geometry (catch c h).
Proof.
  intros Hc Hh w. specialize (Hc w). unfold catch, state_of in *.
  destruct (c w) as [[[a|e] w1] l1]; cbn [fst snd] in *; [exact Hc|].
  specialize (Hh e w1). unfold state_of in Hh.
  destruct (h e w1) as [[r2 w2] l2]. cbn [fst snd] in *.
  exact (same_geometry_trans _ _ _ Hc Hh).
Qed.

Lemma keeps_geometry_ret {A : Type} (a : A) : keeps_geometry (ret a).
Proof. intros w. apply same_geometry_refl. Qed.

Lemma keeps_geometry_raise {A : Type} (e : exn) :
  keeps_geometry (@raise _ _ A e).
Proof. intros w. apply same_geometry_refl. Qed.

Lemma keeps_geometry_self : keeps_geometry self.
Proof. intros w. apply same_geometry_refl. Qed.

Lemma keeps_geometry_when (b : bool) (c : OledAct unit) :
  keeps_geometry c -> keeps_geometry (when b c).
Proof. destruct b; [auto|intros _; apply keeps_geometry_ret]. Qed.

(** [image] accepts a bitmap of the size of the frame buffer only, so the
    buffer keeps its length. *)
Lemma keeps_geometry_image (img : list Z) : keeps_geometry (Oled.image img).
Proof.
  intros [o b]. unfold Oled.image, bind, self, state_of. cbn [fst snd].
  case_bool_decide as Hlen; [|apply same_geometry_refl].
  unfold update, same_geometry.
  cbn [fst snd width height pages i2c_port buffer write_commands set_buffer].
  split_and!; try reflexivity.
  rewrite length_app, Hlen, length_firstn.
  destruct (buffer o); simpl; lia.
Qed.

Lemma keeps_geometry_show_async : keeps_geometry Oled.show_async.
Proof.
  intros w. apply same_panel_geometry.
  unfold Oled.show_async, Oled.write_framebuf_async.
  cbv [bind self catch ret raise]. cbn [fst snd].
  destruct (failed w.1); [apply same_panel_refl|].
  match goal with
  | |- context [Oled.gather ?cs w] =>
      pose proof (gather_effect cs w) as [Hst _];
      pose proof (gather_loop_effect (2 * length cs) cs [] None w
                    ltac:(simpl; lia)) as (Hsp & _);
      cbv zeta in Hsp; rewrite <- Hst in Hsp; unfold state_of in *;
      destruct (Oled.gather cs w) as [[[[]|e] w1] l1]
  end; exact Hsp.
Qed.

Lemma keeps_geometry_show_png (file : outcome (list Z)) :
  keeps_geometry (Oled.show_png file).
Proof.
  destruct file as [img|e]; [|apply keeps_geometry_raise].
  apply keeps_geometry_bind; [apply keeps_geometry_image|].
  intros _. apply keeps_geometry_show_async.
Qed.

Lemma keeps_geometry_show_all (files : list (outcome (list Z))) :
  keeps_geometry (Oled.show_all files).
Proof.
  induction files as [|f rest IH]; [apply keeps_geometry_ret|].
  apply keeps_geometry_bind; [apply keeps_geometry_show_png|].
  intros _. exact IH.
Qed.

Lemma keeps_geometry_service_async (req : SetOLEDImage) :
  keeps_geometry (Oled.set_oled_image_service_async req).
Proof.
  unfold Oled.set_oled_image_service_async.
  apply keeps_geometry_bind.
  { apply keeps_geometry_when. destruct (bitmaps req) as [|[img|e] ?];
      [apply keeps_geometry_raise| |apply keeps_geometry_raise].
    apply keeps_geometry_bind; [apply keeps_geometry_image|].
    intros _. apply keeps_geometry_show_async. }
  intros _. apply keeps_geometry_bind.
  { apply keeps_geometry_when. destruct (bitmaps req) as [|f ?];
      [apply keeps_geometry_raise|apply keeps_geometry_show_png]. }
  intros _. apply keeps_geometry_when, keeps_geometry_show_all.
Qed.

Lemma keeps_geometry_service (req : SetOLEDImage) :
  keeps_geometry (Oled.set_oled_image_service req).
Proof.
  unfold Oled.set_oled_image_service.
  apply keeps_geometry_bind; [apply keeps_geometry_self|]. intros o.
  destruct (failed o); [apply keeps_geometry_ret|].
  apply keeps_geometry_bind; [|intros _; apply keeps_geometry_ret].
  apply keeps_geometry_catch; [apply keeps_geometry_service_async|].
  intros _. apply keeps_geometry_ret.
Qed.

Lemma keeps_geometry_start : keeps_geometry Oled.start.
Proof.
  intros [o b]. apply same_panel_geometry.
  unfold Oled.start, bind, self, emit, state_of. cbn [fst snd].
  assert (H : forall cmds o b,
             same_panel o (Oled.start_loop cmds (o, b)).1.2.1).
  { clear. induction cmds as [|cmd rest IH]; intros o b;
      [apply same_panel_refl|].
    cbn [Oled.start_loop]. cbv [bind i2c_issue i2c_reply update ret].
    cbn [fst snd].
    destruct (is_False _); [cbn; repeat split|].
    match goal with
    | |- context [Oled.start_loop rest (o, ?x)] =>
        specialize (IH o x);
        destruct (Oled.start_loop rest (o, x)) as [[r2 w2] l2]
    end.
    exact IH. }
  specialize (H (write_commands o) o b).
  destruct (Oled.start_loop (write_commands o) (o, b)) as [[r2 w2] l2].
  exact H.
Qed.

Lemma perform_keeps_geometry (op : operation) (w : Oled * bus) :
  same_geometry w.1 (perform op w).1.
Proof.
  destruct op as [| |req]; simpl.
  - apply keeps_geometry_start.
  - apply keeps_geometry_show_async.
  - apply keeps_geometry_service.
Qed.

(** X14.  Whatever operations run on a display ([start], flushes, service
    calls with any requests, bitmaps of any size, on any bus and under any
    schedule), it keeps its width, height, pages, port and queue, and its
    buffer keeps its length: the display that [actuators] creates stays a
    128 x 64 display with a buffer of 1 + 1024 bytes. *)
Theorem oled_geometry_kept (ops : list operation) (w : Oled * bus) :
  same_geometry w.1 (perform_all ops w).1
  /\ forall (port : Z) (queued : list (list Z)) (b : bus),
       let o := (perform_all ops (Oled_init 128 64 port queued, b)).1 in
       width o = 128 /\ pages o = 8 /\ length (buffer o) = 1025%nat.
Proof.
  assert (H : forall w, same_geometry w.1 (perform_all ops w).1).
  { induction ops as [|op rest IH]; intros w0; [apply same_geometry_refl|].
    unfold perform_all. cbn [fold_left].
    exact (same_geometry_trans _ _ _ (perform_keeps_geometry op w0)
             (IH (perform op w0))). }
  split; [apply H|].
  intros port queued b o.
  destruct (H (Oled_init 128 64 port queued, b)) as (Hw & _ & Hp & _ & Hl & _).
  fold o in Hw, Hp, Hl. rewrite Hw, Hp, Hl. repeat split.
Qed.


Lemma image_then_flush (img : list Z) (o : Oled) (b : bus) :
  length img = 1024%nat ->
  width o = 128 -> pages o = 8 -> length (buffer o) = 1025%nat ->
  failed o = false -> (forall n, acks b n <> Some false) ->
  let r := bind (Oled.image img) (fun _ => Oled.show_async) (o, b) in
  result_of r = Return tt
  /\ calls_of r
     = map (fun cmd => i2c_write 60 [128; cmd] (i2c_port o))
         [33; 0; 127; 34; 0; 7]
       ++ map (fun i => i2c_write 60
                          (64 :: slice (16 * i) (16 * i + 16) img)
                          (i2c_port o)) (seq 0 64)
  /\ drop 1 (buffer (state_of r).1) = img
  /\ failed (state_of r).1 = false.
Proof.
  intros Himg Hw Hp Hlen Hf Hno r. subst r.
  unfold bind at 1. unfold Oled.image, bind, self. cbn [fst snd].
  rewrite bool_decide_true by (rewrite Himg, Hlen; reflexivity).
  unfold update. cbn [fst snd].
  set (o' := set_buffer (take 1 (buffer o) ++ img) o).
  assert (Hb' : drop 1 (buffer o') = img).
  { subst o'. cbn [buffer set_buffer].
    destruct (buffer o) as [|x l]; [discriminate|]. reflexivity. }
  assert (Hlen' : length (buffer o') = 1025%nat).
  { subst o'. cbn [buffer set_buffer].
    rewrite length_app, length_take, Himg, Hlen. reflexivity. }
  destruct (show_async_effect (o', b)) as (Hres & _ & _ & Hflush).
  destruct (Hflush Hf Hno) as [Hcalls Hfailed].
  pose proof (keeps_geometry_show_async (o', b)) as Hgeo.
  assert (Hsp : buffer (state_of (Oled.show_async (o', b))).1 = buffer o').
  { unfold Oled.show_async, Oled.write_framebuf_async.
    cbv [bind self catch ret raise]. cbn [fst snd].
    change (failed o') with (failed o). rewrite Hf.
    match goal with
    | |- context [Oled.gather ?cs (o', b)] =>
        pose proof (gather_effect cs (o', b)) as [Hst _];
        pose proof (gather_loop_effect (2 * length cs) cs [] None (o', b)
                      ltac:(simpl; lia)) as (Hs & _);
        cbv zeta in Hs; rewrite <- Hst in Hs; unfold state_of in *;
        destruct (Oled.gather cs (o', b)) as [[[[]|e] w1] l1]
    end; destruct Hs as (_ & _ & _ & _ & Hbuf & _); exact Hbuf. }
  unfold result_of, state_of, calls_of in *.
  destruct (Oled.show_async (o', b)) as [[res w1] l1]. cbn [fst snd] in *.
  subst res. cbn [fst snd app].
  split; [reflexivity|]. split; [|split; [rewrite Hsp; exact Hb'|exact Hfailed]].
  rewrite Hcalls, flat_map_app, (flat_map_tasks o' (seq 0 64) Hlen').
  - rewrite Hb'. unfold Oled.xpos.
    change (width o') with (width o). change (pages o') with (pages o).
    rewrite Hw, Hp. reflexivity.
  - apply Forall_forall. intros i Hi. apply elem_of_seq in Hi. lia.
Qed.

(** X16.  A [text] or [image] request on the 128 x 64 display, with a
    bitmap of 1024 bytes and while the board refuses nothing: the call
    answers [True], the bitmap becomes the frame buffer, and the
    transactions of the call are the six commands of the addressing window
    and then the bitmap itself, cut into 64 chunks of 16 bytes, each
    behind the data marker 0x40. *)
Theorem oled_image_sent (req : SetOLEDImage) (img : list Z)
    (more : list (outcome (list Z))) (o : Oled) (b : bus) :
  req_type req = "text" \/ req_type req = "image" ->
  bitmaps req = Return img :: more -> length img = 1024%nat ->
  width o = 128 -> pages o = 8 -> length (buffer o) = 1025%nat ->
  failed o = false -> (forall n, acks b n <> Some false) ->
  let chunk := fun i : nat => slice (16 * i) (16 * i + 16) img in
  let r := Oled.set_oled_image_service req (o, b) in
  result_of r = Return true
  /\ calls_of r
     = map (fun cmd => i2c_write 60 [128; cmd] (i2c_port o))
         [33; 0; 127; 34; 0; 7]
       ++ map (fun i => i2c_write 60 (64 :: chunk i) (i2c_port o)) (seq 0 64)
  /\ drop 1 (buffer (state_of r).1) = img
  /\ concat (map chunk (seq 0 64)) = img.
Proof.
  intros Hty Hbm Himg Hw Hp Hlen Hf Hno chunk r. subst r chunk.
  destruct (image_then_flush img o b Himg Hw Hp Hlen Hf Hno)
    as (Hres & Hcalls & Hbuf & _).
  cbv zeta in Hres, Hcalls, Hbuf.
  split; [|split; [|split]]; cycle 3.
  { rewrite chunks_cover. apply take_ge. rewrite Himg. lia. }
  all: unfold Oled.set_oled_image_service, Oled.set_oled_image_service_async,
         Oled.show_png.
  all: unfold bind at 1; unfold self at 1; cbn [fst snd]; rewrite Hf.
  all: rewrite Hbm.
  all: unfold result_of, state_of, calls_of in *.
  all: destruct Hty as [Hty|Hty]; rewrite Hty; cbn [bool_decide]; 
       repeat match goal with
         | |- context [bool_decide (?a = ?b)] =>
             first [rewrite (bool_decide_true (a = b)) by reflexivity
                   |rewrite (bool_decide_false (a = b)) by discriminate]
         end;
       unfold when;
       set (act := bind (Oled.image img) (fun _ => Oled.show_async)) in *;
       cbv [bind catch ret]; 
       destruct (act (o, b)) as [[res w1] l1]; cbn [fst snd] in *;
       subst res; cbn [fst snd]; rewrite ?app_nil_r; 
       first [reflexivity|assumption].
Qed.

End MoreOledFacts.

Lemma oled_start_sends_queue_witness :
  calls_of (Oled.start (queued_display, refusing_bus))
  = [set_pin_mode_i2c 0; i2c_write 60 [128; 174] 0;
     i2c_write 60 [128; 213] 0].
Proof.
  refine (proj1 (proj2 (oled_start_sends_queue queued_display refusing_bus
                          1 _ _ _))).
  - simpl. lia.
  - intros j Hj. assert (j = 0%nat) as -> by lia. discriminate.
  - reflexivity.
Defined.

Lemma oled_show_queues_frame_witness :
  calls_of (Oled.show (sample_display, silent_bus)) = [].
Proof.
  refine (proj1 (proj2 (oled_show_queues_frame sample_display silent_bus
                          _ _ _))); reflexivity.
Defined.

Lemma oled_show_then_start_witness :
  calls_of (Oled.start (state_of (Oled.show (queued_display, silent_bus))))
  = set_pin_mode_i2c 0
    :: map (fun cmd => i2c_write 60 cmd 0)
         [[128; 174]; [128; 213]; [128; 175]]
    ++ calls_of (Oled.show_async (queued_display, silent_bus)).
Proof.
  refine (oled_show_then_start queued_display silent_bus _ _ _ _ _);
    try reflexivity.
  intros n. discriminate.
Defined.


Lemma oled_image_sent_witness :
  drop 1 (buffer (state_of (Oled.set_oled_image_service white_image
                              (sample_display, silent_bus))).1)
  = repeat 255 1024.
Proof.
  refine (proj1 (proj2 (proj2 (oled_image_sent white_image (repeat 255 1024)
            [] sample_display silent_bus _ _ _ _ _ _ _ _)))); 
    try reflexivity.
  - right. reflexivity.
  - intros n. discriminate.
Defined.

(** ** The on-demand pin read, further *)

Section MorePinFacts.
Variable board_mapping : mappings.t.

(** The last report of a delivery is the value of its pin afterwards. *)
Lemma deliver_last (rs : list report) (r : report) (pin_values : gmap Z Z) :
  exists pin_values' : gmap Z Z,
    deliver board_mapping (rs ++ [r]) pin_values = (Return tt, pin_values', [])
    /\ pin_values' !! pin_number board_mapping r = Some (report_value r).
Proof.
  revert pin_values. induction rs as [|r0 rs IH]; intros pin_values.
  - cbn. eexists. split; [reflexivity|]. apply lookup_insert_eq.
  - cbn [app deliver]. unfold bind at 1. unfold data_callback at 1, modify.
    match goal with
    | |- context [deliver board_mapping (rs ++ [r]) ?m] =>
        destruct (IH m) as (pv' & Heq & Hv); rewrite Heq
    end.
    exists pv'. split; [reflexivity|exact Hv].
Qed.

(** The polling loop stops at once when the pin has a value. *)
Lemma poll_present (ticks : list tick) (pin : Z) (start_time : Q)
    (pin_values : gmap Z Z) :
  is_Some (pin_values !! pin) ->
  poll board_mapping pin start_time ticks pin_values
  = (Return tt, pin_values, []).
Proof.
  intros Hs. destruct ticks as [|tk rest]; [reflexivity|].
  cbn [poll]. unfold bind, get.
  rewrite (bool_decide_true _ Hs). reflexivity.
Qed.

(** X17.  A pin that has reported once is answered from [pin_values]: the
    service returns the stored value at once, asks the board for nothing
    and leaves [pin_values] as it is, whatever the request type and
    however long ago the value was stored. *)
Theorem get_pin_value_stored (req : GetPinValue) (start_time : Q)
    (ticks : list tick) (pin_values : gmap Z Z) (v : Z) :
  pin_values !! get_pin req = Some v ->
  handle_get_pin_value board_mapping req start_time ticks pin_values
  = (Return v, pin_values, []).
Proof.
  intros Hv. unfold handle_get_pin_value.
  unfold bind at 1, get at 1. rewrite Hv.
  rewrite (bool_decide_true (is_Some (Some v))) by eauto.
  cbn [negb when]. unfold bind at 1, ret at 1.
  unfold bind at 1.
  rewrite (poll_present ticks (get_pin req) start_time pin_values)
    by (rewrite Hv; eauto).
  unfold bind, get, ret, subscript. rewrite Hv. reflexivity.
Qed.

(** X18.  A pin without a value: the service asks the board to report it
    (an analog pin under its number less the analog offset) and polls.
    When the first turn of the loop begins less than five seconds after the
    start and the reports that arrive during it end with one that the
    callback files under the pin (for an analog report, its pin plus the
    analog offset), the service returns the value of that report. *)
Theorem get_pin_value_reported (req : GetPinValue) (start_time : Q)
    (tk : tick) (ticks : list tick) (rs : list report) (r : report)
    (pin_values : gmap Z Z) :
  pin_values !! get_pin req = None ->
  (tick_time tk - start_time < 5)%Q ->
  arrivals tk = rs ++ [r] ->
  pin_number board_mapping r = get_pin req ->
  let res := handle_get_pin_value board_mapping req start_time (tk :: ticks)
               pin_values in
  result_of res = Return (report_value r)
  /\ calls_of res = watched board_mapping req
  /\ (state_of res) !! get_pin req = Some (report_value r).
Proof.
  intros Hnone Hlt Harr Hkey res.
  assert (H : exists pv',
             res = (Return (report_value r), pv', watched board_mapping req)
             /\ pv' !! get_pin req = Some (report_value r));
    [|destruct H as (pv' & -> & Hv); repeat split; exact Hv].
  subst res. unfold handle_get_pin_value.
  unfold bind at 1, get at 1. unfold bind at 1.
  match goal with
  | |- context [when ?b ?c pin_values] =>
      assert (Hw : when b c pin_values
                   = (Return tt, pin_values, watched board_mapping req))
  end.
  { rewrite Hnone. unfold watched. cbn. unfold bind, when, emit, ret.
    destruct (bool_decide (get_type req = "analog")),
      (bool_decide (get_type req = "digital")); reflexivity. }
  rewrite Hw. unfold bind at 1.
  assert (Hp : exists pv', poll board_mapping (get_pin req) start_time
                             (tk :: ticks) pin_values = (Return tt, pv', [])
                           /\ pv' !! get_pin req = Some (report_value r)).
  { cbn [poll]. unfold bind at 1, get at 1. rewrite Hnone.
    rewrite (bool_decide_false (is_Some None)) by (intros [? ?]; discriminate).
    destruct (Qlt_le_dec (tick_time tk - start_time) 5) as [_|Hge]; [|lra].
    cbn [negb andb]. rewrite Harr.
    destruct (deliver_last rs r pin_values) as (pv' & Hd & Hv).
    rewrite Hkey in Hv. unfold bind. rewrite Hd.
    rewrite poll_present by (rewrite Hv; eauto).
    exists pv'. split; [reflexivity|exact Hv]. }
  destruct Hp as (pv' & Hp & Hv). rewrite Hp.
  exists pv'. unfold bind, get, ret, subscript.
  rewrite Hv. cbn. rewrite ?app_nil_r. split; reflexivity.
Qed.

End MorePinFacts.

Lemma get_pin_value_stored_witness :
  handle_get_pin_value sample_mapping {| get_pin := 5; get_type := "digital" |}
    0 [ {| tick_time := 1; arrivals := [] |} ] {[ 5 := 1 ]}
  = (Return 1, {[ 5 := 1 ]}, []).
Proof.
  refine (get_pin_value_stored sample_mapping
            {| get_pin := 5; get_type := "digital" |} 0
            [ {| tick_time := 1; arrivals := [] |} ] {[ 5 := 1 ]} 1 _).
  reflexivity.
Defined.

Lemma get_pin_value_reported_witness :
  result_of
    (handle_get_pin_value sample_mapping
       {| get_pin := 15; get_type := "analog" |} 0
       [ {| tick_time := 1;
            arrivals := [ {| report_type := 3; report_pin := 1;
                             report_value := 512; report_time := 1 |} ] |} ]
       ∅)
  = Return 512.
Proof.
  refine (proj1 (get_pin_value_reported sample_mapping
            {| get_pin := 15; get_type := "analog" |} 0
            {| tick_time := 1;
               arrivals := [ {| report_type := 3; report_pin := 1;
                                report_value := 512; report_time := 1 |} ] |}
            [] []
            {| report_type := 3; report_pin := 1;
               report_value := 512; report_time := 1 |}
            ∅ _ _ _ _)); reflexivity.
Defined.
